(** * Hirely recruitment platform: match scoring and the assessment life cycle

    A shallow embedding of the scoring heuristics (the [ai-analysis] edge
    function and the applicant-side [calculateMatchScore]), of the
    [generate-assessment] edge function, and of the two assessment front ends
    (the dashboard modal and the standalone assessment page) together with the
    part of the Postgres schema they rely on.

    Conventions of the embedding:
    - a JavaScript [number] is a rational, or one of [Infinity],
      [-Infinity], [NaN] (negative zero is not distinguished from zero).
      [JS.double] rounds a rational to binary64; the quotient and the product
      of the assessment score are rounded with it, since there the rounding
      decides the stored integer. The two match scores are computed with the
      exact operations;
    - a string is the byte string of its UTF-8 encoding; [toLowerCase] acts
      on ASCII letters, [trim] strips the white space and the line
      terminators of ECMAScript;
    - timestamps are milliseconds since the epoch, as [Date.getTime] gives;
    - a nullable column or an optional field is an [option];
    - the hosted database is a record of finite maps, and every handler takes
      the store and returns the new one. *)

From Stdlib Require Import QArith Qround Qpower ZArith Lia Lqa Ascii String.
From stdpp Require Import gmap strings list pretty.

Local Open Scope Z_scope.

(** ** JavaScript numbers *)

Module JS.

Inductive number : Type :=
| Fin (q : Q)
| PosInf
| NegInf
| NaN.

Definition of_Z (z : Z) : number := Fin (inject_Z z).
Definition of_nat (n : nat) : number := of_Z (Z.of_nat n).

(** [a + b] *)
Definition add (a b : number) : number :=
  match a, b with
  | NaN, _ | _, NaN => NaN
  | Fin x, Fin y => Fin (x + y)%Q
  | PosInf, NegInf | NegInf, PosInf => NaN
  | PosInf, _ | _, PosInf => PosInf
  | NegInf, _ | _, NegInf => NegInf
  end.

Definition inf_of_sign (c : comparison) : number :=
  match c with Eq => NaN | Gt => PosInf | Lt => NegInf end.

Definition sign (a : number) : comparison :=
  match a with
  | Fin q => (q ?= 0)%Q
  | PosInf => Gt
  | NegInf => Lt
  | NaN => Eq
  end.

Definition sign_mul (c d : comparison) : comparison :=
  match c, d with
  | Eq, _ | _, Eq => Eq
  | Gt, Gt | Lt, Lt => Gt
  | _, _ => Lt
  end.

(** [a * b] *)
Definition mul (a b : number) : number :=
  match a, b with
  | NaN, _ | _, NaN => NaN
  | Fin x, Fin y => Fin (x * y)%Q
  | _, _ => inf_of_sign (sign_mul (sign a) (sign b))
  end.

(** [a / b]: a finite quotient, [Infinity] for a non-zero dividend over zero,
    [NaN] for [0 / 0]. *)
Definition div (a b : number) : number :=
  match a, b with
  | NaN, _ | _, NaN => NaN
  | Fin x, Fin y =>
      match (y ?= 0)%Q with
      | Eq => inf_of_sign (x ?= 0)%Q
      | _ => Fin (x / y)%Q
      end
  | Fin _, _ => Fin 0
  | _, Fin y =>
      match (y ?= 0)%Q with
      | Lt => inf_of_sign (sign_mul (sign a) Lt)
      | _ => a
      end
  | _, _ => NaN
  end.

(** *** binary64 *)

(** The integer nearest to [x], halves to the even one. *)
Definition nearest_even (x : Q) : Z :=
  let k := Qfloor x in
  match (x - inject_Z k ?= 1 # 2)%Q with
  | Lt => k
  | Gt => k + 1
  | Eq => if Z.even k then k else k + 1
  end.

(** [floor (log2 q)] for a positive [q]. *)
Definition ilog2 (q : Q) : Z :=
  let k := Z.log2 (Qnum q) - Z.log2 (Zpos (Qden q)) in
  if Qle_bool (2 ^ k) q then k else k - 1.

(** A positive rational rounded to the nearest binary64 value, halves to the
    even mantissa: 53 bits of mantissa, steps of [2^-1074] at the subnormal
    end. *)
Definition round_pos (q : Q) : Q :=
  let e := Z.max (ilog2 q - 52) (-1074) in
  Qred (inject_Z (nearest_even (q / 2 ^ e)) * 2 ^ e).

(** The binary64 value of a rational; what rounds to [2^1024] or beyond is
    infinite. *)
Definition double (q : Q) : number :=
  match (q ?= 0)%Q with
  | Eq => Fin 0
  | Gt =>
      let r := round_pos (Qred q) in
      if Qle_bool (2 ^ 1024) r then PosInf else Fin r
  | Lt =>
      let r := round_pos (Qred (- q)) in
      if Qle_bool (2 ^ 1024) r then NegInf else Fin (- r)
  end.

Definition to_double (a : number) : number :=
  match a with
  | Fin q => double q
  | _ => a
  end.

(** [a * b] and [a / b] of binary64 operands: the exact result, rounded. *)
Definition mul64 (a b : number) : number := to_double (mul a b).
Definition div64 (a b : number) : number := to_double (div a b).

(** [Math.round]: the nearest integer, halves towards [+Infinity]. *)
Definition Math_round (a : number) : number :=
  match a with
  | Fin q => of_Z (Qfloor (q + (1 # 2))%Q)
  | _ => a
  end.

Definition Math_floor (a : number) : number :=
  match a with
  | Fin q => of_Z (Qfloor q)
  | _ => a
  end.

Definition Math_min (a b : number) : number :=
  match a, b with
  | NaN, _ | _, NaN => NaN
  | NegInf, _ | _, NegInf => NegInf
  | PosInf, c | c, PosInf => c
  | Fin x, Fin y => if Qle_bool x y then a else b
  end.

Definition Math_max (a b : number) : number :=
  match a, b with
  | NaN, _ | _, NaN => NaN
  | PosInf, _ | _, PosInf => PosInf
  | NegInf, c | c, NegInf => c
  | Fin x, Fin y => if Qle_bool x y then b else a
  end.

(** [a >= b]; every comparison with [NaN] is false. *)
Definition ge (a b : number) : bool :=
  match a, b with
  | NaN, _ | _, NaN => false
  | PosInf, _ | _, NegInf => true
  | Fin x, Fin y => Qle_bool y x
  | _, _ => false
  end.

(** Truthiness of a number: [0] and [NaN] are falsy. *)
Definition truthy (a : number) : bool :=
  match a with
  | Fin q => negb (Qeq_bool q 0)
  | NaN => false
  | _ => true
  end.

(** Truthiness of an integer column value. *)
Definition Z_truthy (z : Z) : bool := negb (z =? 0).

(** The integers among the numbers. *)
Definition as_int (a : number) : option Z :=
  match a with
  | Fin q => if Qeq_bool q (inject_Z (Qfloor q)) then Some (Qfloor q) else None
  | _ => None
  end.

Definition digit (d : Z) : string := pretty (Z.to_N d).

Fixpoint frac_digits (fuel : nat) (q : Q) : string :=
  match fuel with
  | O => ""
  | S fuel' =>
      if Qeq_bool q 0 then ""
      else
        let d := Qfloor (q * 10)%Q in
        digit d +:+ frac_digits fuel' (q * 10 - inject_Z d)%Q
  end.

Definition Q_abs (q : Q) : Q := if Qle_bool 0 q then q else (- q)%Q.

(** Number to string, as a template literal does it. Integers print in
    decimal; the digits of a fraction are cut after seventeen places. *)
Definition toString (a : number) : string :=
  match a with
  | NaN => "NaN"
  | PosInf => "Infinity"
  | NegInf => "-Infinity"
  | Fin q =>
      match as_int a with
      | Some z => pretty z
      | None =>
          let m := Q_abs q in
          (if Qle_bool 0 q then "" else "-")
          +:+ pretty (Qfloor m) +:+ "."
          +:+ frac_digits 17 (m - inject_Z (Qfloor m))%Q
      end
  end.

(** What [JSON.stringify] sends for a number: [NaN] and the infinities
    become [null]. *)
Definition to_json (a : number) : option Q :=
  match a with
  | Fin q => Some q
  | _ => None
  end.

End JS.

(** ** JavaScript strings *)

Module Str.

Definition lower_ascii (c : ascii) : ascii :=
  let n := N_of_ascii c in
  if ((65 <=? n) && (n <=? 90))%N then ascii_of_N (n + 32) else c.

(** [s.toLowerCase()] *)
Fixpoint toLowerCase (s : string) : string :=
  match s with
  | EmptyString => EmptyString
  | String c s' => String (lower_ascii c) (toLowerCase s')
  end.

(** [s.includes(sub)]: [sub] occurs in [s] as a contiguous substring. *)
Fixpoint includes (s sub : string) : bool :=
  String.prefix sub s
  || match s with
     | EmptyString => false
     | String _ s' => includes s' sub
     end.

(** Truthiness of a string: only the empty string is falsy. *)
Definition truthy (s : string) : bool :=
  match s with EmptyString => false | _ => true end.

(** The white space that [trim] strips (WhiteSpace and LineTerminator of
    ECMAScript), by the length of its encoding. One byte: TAB, LF, VT, FF, CR
    and the space. *)
Definition space1 (a : ascii) : bool :=
  let n := N_of_ascii a in
  ((9 <=? n) && (n <=? 13) || (n =? 32))%N.

(** Two bytes: U+00A0. *)
Definition space2 (a b : ascii) : bool :=
  ((N_of_ascii a =? 194) && (N_of_ascii b =? 160))%N.

(** Three bytes: U+1680, U+2000 to U+200A, U+2028, U+2029, U+202F, U+205F,
    U+3000 and U+FEFF. *)
Definition space3 (a b c : ascii) : bool :=
  let x := N_of_ascii a in
  let y := N_of_ascii b in
  let z := N_of_ascii c in
  ((x =? 225) && (y =? 154) && (z =? 128)
   || (x =? 226) && (y =? 128)
      && ((128 <=? z) && (z <=? 138) || (z =? 168) || (z =? 169) || (z =? 175))
   || (x =? 226) && (y =? 129) && (z =? 159)
   || (x =? 227) && (y =? 128) && (z =? 128)
   || (x =? 239) && (y =? 187) && (z =? 191))%N.

(** The rest of [s] behind one leading white-space character, if [s] starts
    with one. *)
Definition skip_space (s : string) : option string :=
  match s with
  | EmptyString => None
  | String a s1 =>
      if space1 a then Some s1
      else
        match s1 with
        | EmptyString => None
        | String b s2 =>
            if space2 a b then Some s2
            else
              match s2 with
              | EmptyString => None
              | String c s3 => if space3 a b c then Some s3 else None
              end
        end
  end.

(** Drops the white space at the start. *)
Fixpoint trim_start (s : string) : string :=
  match s with
  | EmptyString => EmptyString
  | String a s1 =>
      if space1 a then trim_start s1
      else
        match s1 with
        | EmptyString => s
        | String b s2 =>
            if space2 a b then trim_start s2
            else
              match s2 with
              | EmptyString => s
              | String c s3 => if space3 a b c then trim_start s3 else s
              end
        end
  end.

(** Nothing but white space. *)
Definition blank (s : string) : bool := negb (truthy (trim_start s)).

(** Drops the white space at the end: cuts [s] where nothing but white space
    follows. *)
Fixpoint trim_end (s : string) : string :=
  match s with
  | EmptyString => EmptyString
  | String c s' => if blank s then EmptyString else String c (trim_end s')
  end.

(** [s.trim()] *)
Definition trim (s : string) : string := trim_end (trim_start s).

End Str.

(** ** The schema *)

Module Jobs.

(** [public.jobs]: the columns the scoring reads. [experience_level] is
    checked to be one of 'entry', 'mid', 'senior', 'executive' (or NULL). *)
Record row : Type := {
  id : string;
  recruiter_id : string;
  skills_required : option (list string);
  experience_level : option string;
}.

Definition experience_level_check (l : option string) : bool :=
  match l with
  | None => true
  | Some s =>
      String.eqb s "entry" || String.eqb s "mid"
      || String.eqb s "senior" || String.eqb s "executive"
  end.

End Jobs.

Module ApplicantProfiles.

(** [public.applicant_profiles], keyed by [user_id]. *)
Record row : Type := {
  user_id : string;
  skills : option (list string);
  experience_years : option Z;
}.

End ApplicantProfiles.

Module Applications.

Record row : Type := {
  id : string;
  job_id : string;
  applicant_id : string;
}.

End Applications.

Module AiMatchScores.

Record criteria_t : Type := {
  skills_match : Z;
  experience_match : Z;
  requirements_match : Z;
  overall_fit : Z;
}.

(** [public.ai_match_scores], unique on [(job_id, applicant_id)]. *)
Record row : Type := {
  job_id : string;
  applicant_id : string;
  match_score : Z;
  criteria : criteria_t;
  analysis : string;
}.

(** [match_score INTEGER NOT NULL CHECK (match_score >= 0 AND match_score <= 100)]
    applied to the number the client sends: [None] when the row is refused. *)
Definition match_score_column (n : JS.number) : option Z :=
  match JS.to_json n with
  | None => None
  | Some _ =>
      match JS.as_int n with
      | Some z => if (0 <=? z) && (z <=? 100) then Some z else None
      | None => None
      end
  end.

End AiMatchScores.

Module Assessments.

Inductive status_t : Type := sent | in_progress | completed | expired.

Record Question : Type := {
  question : string;
  type : string;
  options : option (list string);
}.

(** The [questions JSONB] column: an array of questions, an object with the
    two optional buckets, or some other JSON value. *)
Inductive questions_t : Type :=
| JArray (qs : list Question)
| JObject (work_ethics technical : option (list Question))
| JNull
| JBool (b : bool)
| JNumber (n : Q)
| JString (s : string).

(** [public.assessments]. *)
Record row : Type := {
  id : string;
  application_id : string;
  job_id : string;
  applicant_id : string;
  questions : questions_t;
  status : status_t;
  assessment_url : string;
  score : option Z;
  responses : option (gmap string string);
  expires_at : Z;
  created_at : Z;
  updated_at : Z;
}.

(** [interval '7 days'] in milliseconds. *)
Definition seven_days : Z := 7 * 24 * 60 * 60 * 1000.

End Assessments.

Module Db.

Record store : Type := {
  jobs : gmap string Jobs.row;
  applicant_profiles : gmap string ApplicantProfiles.row;
  applications : gmap string Applications.row;
  ai_match_scores : gmap (string * string) AiMatchScores.row;
  assessments : gmap string Assessments.row;
}.

Definition with_ai_match_scores (db : store) (t : gmap (string * string) AiMatchScores.row) : store :=
  {| jobs := jobs db; applicant_profiles := applicant_profiles db;
     applications := applications db; ai_match_scores := t;
     assessments := assessments db |}.

Definition with_assessments (db : store) (t : gmap string Assessments.row) : store :=
  {| jobs := jobs db; applicant_profiles := applicant_profiles db;
     applications := applications db; ai_match_scores := ai_match_scores db;
     assessments := t |}.

End Db.

(** ** The [ai-analysis] edge function *)

Module AiAnalysis.

Import JS.

(** [profile?.skills && job?.skills_required], then the skill term. An empty
    array is truthy, so only a missing row or a NULL column skips the term. *)
Definition matchingSkills (applicantSkills requiredSkills : list string) : list string :=
  List.filter
    (fun skill =>
       existsb (fun req => Str.includes req skill || Str.includes skill req)
               requiredSkills)
    applicantSkills.

Definition skills_term (profile : option ApplicantProfiles.row) (job : option Jobs.row)
    (matchScore : number) : number :=
  match profile ≫= ApplicantProfiles.skills, job ≫= Jobs.skills_required with
  | Some skills, Some skills_required =>
      let applicantSkills := List.map Str.toLowerCase skills in
      let requiredSkills := List.map Str.toLowerCase skills_required in
      add matchScore
          (mul (div (of_nat (length (matchingSkills applicantSkills requiredSkills)))
                    (of_nat (length requiredSkills)))
               (of_Z 30))
  | _, _ => matchScore
  end.

Definition experience_term (profile : option ApplicantProfiles.row) (job : option Jobs.row)
    (matchScore : number) : number :=
  match profile ≫= ApplicantProfiles.experience_years, job ≫= Jobs.experience_level with
  | Some expYears, Some level =>
      if Z_truthy expYears && Str.truthy level then
        if String.eqb level "senior" && (5 <=? expYears) then add matchScore (of_Z 10)
        else if String.eqb level "mid" && (2 <=? expYears) then add matchScore (of_Z 10)
        else if String.eqb level "junior" && (0 <=? expYears) then add matchScore (of_Z 10)
        else matchScore
      else matchScore
  | _, _ => matchScore
  end.

(** The value of [matchScore] after line 56. *)
Definition matchScore (profile : option ApplicantProfiles.row) (job : option Jobs.row) : number :=
  let s := of_Z 60 in
  let s := skills_term profile job s in
  let s := experience_term profile job s in
  Math_min (Math_round s) (of_Z 100).

Definition label (matchScore : number) : string :=
  if ge matchScore (of_Z 80) then "Strong"
  else if ge matchScore (of_Z 60) then "Good"
  else "Moderate".

Definition analysis (matchScore : number) : string :=
  "Candidate shows " +:+ toString matchScore +:+ "% compatibility with the role. "
  +:+ label matchScore +:+ " match based on skills and experience.".

Inductive response : Type :=
| Success (match_score : number) (analysis : string)
| Failure (error : string).

(** The handler: read the two rows, score, upsert on [(job_id, applicant_id)],
    answer. A refused row makes the handler throw, and the catch block answers
    with status 500. The row is refused by the [match_score] column, or by the
    foreign key on [job_id] when there is no such job (the foreign key on
    [applicant_id] points into [auth.users], which is outside the model). *)
Definition serve (db : Db.store) (jobId applicantId : string) : response * Db.store :=
  let job := Db.jobs db !! jobId in
  let profile := Db.applicant_profiles db !! applicantId in
  let s := matchScore profile job in
  match AiMatchScores.match_score_column s, job with
  | None, _ | _, None => (Failure "Failed to save match score", db)
  | Some z, Some _ =>
      let r := {| AiMatchScores.job_id := jobId;
                  AiMatchScores.applicant_id := applicantId;
                  AiMatchScores.match_score := z;
                  AiMatchScores.criteria :=
                    {| AiMatchScores.skills_match := z;
                       AiMatchScores.experience_match := z;
                       AiMatchScores.requirements_match := z;
                       AiMatchScores.overall_fit := z |};
                  AiMatchScores.analysis := analysis s |} in
      (Success s (analysis s),
       Db.with_ai_match_scores db (<[(jobId, applicantId) := r]> (Db.ai_match_scores db)))
  end.

End AiAnalysis.

(** ** The applicant's job list: [calculateMatchScore] *)

Module ApplicantJobs.

Import JS.

(** The component's [ApplicantProfile]: the three selected columns. *)
Definition matchingSkills (skills_required skills : list string) : list string :=
  List.filter
    (fun skill =>
       existsb (fun userSkill =>
                  Str.includes (Str.toLowerCase userSkill) (Str.toLowerCase skill)
                  || Str.includes (Str.toLowerCase skill) (Str.toLowerCase userSkill))
               skills)
    skills_required.

(** The [switch] on [job.experience_level]: strict equality with each case
    label in turn; a NULL level falls to [default]. *)
Definition experienceScore (level : option string) (experience_years : Z) : number :=
  let years := of_Z experience_years in
  let level_is (l : string) :=
    match level with Some s => String.eqb s l | None => false end in
  if level_is "entry" then
    if ge years (of_Z 0) then of_Z 100 else of_Z 50
  else if level_is "mid" then
    if ge years (of_Z 3) then of_Z 100 else Math_max (of_Z 0) (mul years (of_Z 33))
  else if level_is "senior" then
    if ge years (of_Z 7) then of_Z 100 else Math_max (of_Z 0) (mul years (of_Z 14))
  else if level_is "lead" then
    if ge years (of_Z 10) then of_Z 100 else Math_max (of_Z 0) (mul years (of_Z 10))
  else of_Z 75.

(** Skills match (40% weight): the pair [(score, factors)] after the block. *)
Definition skills_block (p : ApplicantProfiles.row) (job : Jobs.row)
    (acc : number * number) : number * number :=
  let '(score, factors) := acc in
  match Jobs.skills_required job, ApplicantProfiles.skills p with
  | Some skills_required, Some skills =>
      let skillScore :=
        mul (div (of_nat (length (matchingSkills skills_required skills)))
                 (of_nat (length skills_required)))
            (of_Z 100) in
      (add score (mul skillScore (Fin (4 # 10))), add factors (Fin (4 # 10)))
  | _, _ => acc
  end.

(** Experience match (30% weight). *)
Definition experience_block (p : ApplicantProfiles.row) (job : Jobs.row)
    (acc : number * number) : number * number :=
  let '(score, factors) := acc in
  match ApplicantProfiles.experience_years p with
  | Some y =>
      if JS.Z_truthy y then
        (add score (mul (experienceScore (Jobs.experience_level job) y) (Fin (3 # 10))),
         add factors (Fin (3 # 10)))
      else acc
  | None => acc
  end.

(** Base compatibility (30% weight). *)
Definition base_block (acc : number * number) : number * number :=
  let '(score, factors) := acc in
  (add score (mul (of_Z 75) (Fin (3 # 10))), add factors (Fin (3 # 10))).

Definition calculateMatchScore (applicantProfile : option ApplicantProfiles.row)
    (job : Jobs.row) : number :=
  match applicantProfile with
  | None => of_Z 0
  | Some p =>
      let '(score, factors) :=
        base_block (experience_block p job (skills_block p job (of_Z 0, of_Z 0))) in
      Math_round (div score factors)
  end.

End ApplicantJobs.

(** ** Row-level security and the statements the clients issue *)

Module Rls.

(** [auth.uid() = applicant_id]; a NULL [auth.uid()] satisfies nothing. *)
Definition is_applicant (uid : option string) (r : Assessments.row) : bool :=
  match uid with
  | Some u => String.eqb u (Assessments.applicant_id r)
  | None => false
  end.

(** The recruiter of the assessment's job. *)
Definition is_recruiter (db : Db.store) (uid : option string) (r : Assessments.row) : bool :=
  match uid, Db.jobs db !! Assessments.job_id r with
  | Some u, Some j => String.eqb u (Jobs.recruiter_id j)
  | _, _ => false
  end.

(** The two SELECT policies of [public.assessments]. *)
Definition can_select (db : Db.store) (uid : option string) (r : Assessments.row) : bool :=
  is_recruiter db uid r || is_applicant uid r.

(** The UPDATE policy. *)
Definition can_update (uid : option string) (r : Assessments.row) : bool :=
  is_applicant uid r.

(** [select * from assessments where id = $1], as [uid] sees it. *)
Definition select_by_id (db : Db.store) (uid : option string) (id : string)
    : option Assessments.row :=
  match Db.assessments db !! id with
  | Some r => if can_select db uid r then Some r else None
  | None => None
  end.

(** The submitted columns of an UPDATE. The modal also sends [updated_at]. *)
Record changes : Type := {
  responses : gmap string string;
  score : option Z;
  status : Assessments.status_t;
  updated_at : option Z;
}.

Definition apply_changes (c : changes) (r : Assessments.row) : Assessments.row :=
  {| Assessments.id := Assessments.id r;
     Assessments.application_id := Assessments.application_id r;
     Assessments.job_id := Assessments.job_id r;
     Assessments.applicant_id := Assessments.applicant_id r;
     Assessments.questions := Assessments.questions r;
     Assessments.status := status c;
     Assessments.assessment_url := Assessments.assessment_url r;
     Assessments.score := score c;
     Assessments.responses := Some (responses c);
     Assessments.expires_at := Assessments.expires_at r;
     Assessments.created_at := Assessments.created_at r;
     Assessments.updated_at := default (Assessments.updated_at r) (updated_at c) |}.

(** [update_updated_at_column], the BEFORE UPDATE trigger. *)
Definition update_updated_at_column (db_now : Z) (r : Assessments.row) : Assessments.row :=
  {| Assessments.id := Assessments.id r;
     Assessments.application_id := Assessments.application_id r;
     Assessments.job_id := Assessments.job_id r;
     Assessments.applicant_id := Assessments.applicant_id r;
     Assessments.questions := Assessments.questions r;
     Assessments.status := Assessments.status r;
     Assessments.assessment_url := Assessments.assessment_url r;
     Assessments.score := Assessments.score r;
     Assessments.responses := Assessments.responses r;
     Assessments.expires_at := Assessments.expires_at r;
     Assessments.created_at := Assessments.created_at r;
     Assessments.updated_at := db_now |}.

(** [update assessments set ... where id = $1], as [uid] runs it: a row the
    policy hides is not updated, and that is no error. *)
Definition update_by_id (db : Db.store) (db_now : Z) (uid : option string) (id : string)
    (c : changes) : Db.store :=
  match Db.assessments db !! id with
  | Some r =>
      if can_update uid r then
        Db.with_assessments db
          (<[id := update_updated_at_column db_now (apply_changes c r)]> (Db.assessments db))
      else db
  | None => db
  end.

(** The [score INTEGER] column for the number the client sends, which is
    always a result of [Math.round]; [NaN] arrives as NULL. *)
Definition score_column (n : JS.number) : option Z :=
  match JS.to_json n with
  | Some q => Some (Qfloor q)
  | None => None
  end.

End Rls.

(** ** The [generate-assessment] edge function *)

Module GenerateAssessment.

Import Assessments.

Definition multiple_choice (q : string) (opts : list string) : Question :=
  {| question := q; type := "multiple_choice"; options := Some opts |}.

Definition defaultQuestions : questions_t :=
  JObject
    (Some [ multiple_choice "How do you handle tight deadlines?"
              ["Plan ahead"; "Work overtime"; "Ask for help"; "Prioritize tasks"];
            multiple_choice "What motivates you at work?"
              ["Recognition"; "Growth"; "Team success"; "Challenges"] ])
    (Some [ multiple_choice "Your experience with required tech?"
              ["Expert level"; "Intermediate"; "Beginner"; "No experience"];
            multiple_choice "Your problem-solving approach?"
              ["Research first"; "Trial and error"; "Ask colleagues"; "Break into steps"] ]).

(** Truthiness of the request's [questions] field. *)
Definition truthy (q : option questions_t) : bool :=
  match q with
  | None | Some JNull => false
  | Some (JBool b) => b
  | Some (JNumber n) => JS.truthy (JS.Fin n)
  | Some (JString s) => Str.truthy s
  | Some (JArray _) | Some (JObject _ _) => true
  end.

(** [questions || defaultQuestions] *)
Definition questions_or_default (q : option questions_t) : questions_t :=
  match q with
  | Some v => if truthy q then v else defaultQuestions
  | None => defaultQuestions
  end.

Definition assessmentUrl (assessmentId : string) : string :=
  "https://3546ba8a-43ad-441c-9ebb-78d22208b095.lovableproject.com/assessment/"
  +:+ assessmentId.

(** INSERT with the column defaults of the migration; the primary key refuses
    an [id] that is taken. The function runs with the service role, which row
    level security does not restrict. *)
Definition insert (db : Db.store) (db_now : Z) (id application_id job_id applicant_id : string)
    (qs : questions_t) (url : string) (st : status_t) : option Db.store :=
  match Db.assessments db !! id with
  | Some _ => None
  | None =>
      Some (Db.with_assessments db
              (<[id := {| Assessments.id := id;
                          application_id := application_id;
                          job_id := job_id;
                          applicant_id := applicant_id;
                          questions := qs;
                          status := st;
                          assessment_url := url;
                          score := None;
                          responses := None;
                          expires_at := db_now + seven_days;
                          created_at := db_now;
                          updated_at := db_now |}]> (Db.assessments db)))
  end.

Inductive response : Type :=
| Success (assessmentId assessmentUrl : string)
| Failure (error : string).

(** The handler. [uuid] is what [crypto.randomUUID()] returns and [db_now] is
    the database's [now()]. *)
Definition serve (db : Db.store) (db_now : Z) (uuid : string)
    (applicationId : string) (questions : option questions_t) : response * Db.store :=
  match Db.applications db !! applicationId with
  | None => (Failure "Failed to fetch application", db)
  | Some application =>
      let assessmentId := uuid in
      let url := assessmentUrl assessmentId in
      match insert db db_now assessmentId applicationId
                   (Applications.job_id application)
                   (Applications.applicant_id application)
                   (questions_or_default questions) url sent with
      | None => (Failure "Failed to create assessment", db)
      | Some db' => (Success assessmentId url, db')
      end
  end.

End GenerateAssessment.

(** ** The dashboard modal ([AssessmentModal]) *)

Module AssessmentModal.

Import JS.

(** The component's [Assessment]: the row, with [questions] replaced by the
    flattened array. *)
Record Assessment : Type := {
  data : Assessments.row;
  questions : list Assessments.Question;
}.

Record state : Type := {
  assessment : option Assessment;
  responses : gmap string string;
  currentQuestionIndex : Z;
  timeRemaining : Z;
  isOpen : bool;
}.

(** The state of a freshly opened modal. *)
Definition opened : state :=
  {| assessment := None; responses := ∅; currentQuestionIndex := 0;
     timeRemaining := 0; isOpen := true |}.

(** [onClose()]: the parent clears its selection and the modal goes away. *)
Definition onClose (st : state) : state :=
  {| assessment := assessment st; responses := responses st;
     currentQuestionIndex := currentQuestionIndex st;
     timeRemaining := timeRemaining st; isOpen := false |}.

(** Lines 430-441: the array handed to the presentation. *)
Definition questionsArray (parsedQuestions : Assessments.questions_t)
    : list Assessments.Question :=
  match parsedQuestions with
  | Assessments.JArray qs => qs
  | Assessments.JObject work_ethics technical =>
      let workEthicsQuestions := default [] work_ethics in
      let technicalQuestions := default [] technical in
      workEthicsQuestions ++ technicalQuestions
  | _ => []
  end.

Section WithParser.

(** [JSON.parse] on the text of a question payload; [None] when it throws. *)
Variable JSON_parse : string → option Assessments.questions_t.

(** Lines 426-428. *)
Definition parsedQuestions (q : Assessments.questions_t) : option Assessments.questions_t :=
  match q with
  | Assessments.JString s => JSON_parse s
  | _ => Some q
  end.

(** [fetchAssessment]: the new state and the toast shown, if any. [user] is
    the signed-in user's id and [now] the browser's clock. *)
Definition fetchAssessment (db : Db.store) (now : Z) (user : option string)
    (assessmentId : string) (st : state) : state * option string :=
  let found :=
    match Rls.select_by_id db user assessmentId with
    | Some r => if Rls.is_applicant user r then Some r else None
    | None => None
    end in
  match found with
  | None => (onClose st, Some "Error loading assessment")
  | Some data =>
      match Assessments.status data with
      | Assessments.completed => (onClose st, Some "Assessment already completed")
      | _ =>
          let expiresAt := Assessments.expires_at data in
          if expiresAt <? now then (onClose st, Some "Assessment has expired")
          else
            let timeLeft := (expiresAt - now) / 1000 in
            match parsedQuestions (Assessments.questions data) with
            | None =>
                (onClose
                   {| assessment := assessment st; responses := responses st;
                      currentQuestionIndex := currentQuestionIndex st;
                      timeRemaining := timeLeft; isOpen := isOpen st |},
                 Some "Error loading assessment")
            | Some parsed =>
                ({| assessment := Some {| data := data; questions := questionsArray parsed |};
                    responses := responses st;
                    currentQuestionIndex := currentQuestionIndex st;
                    timeRemaining := timeLeft; isOpen := isOpen st |}, None)
            end
      end
  end.

End WithParser.

(** The key under which the answer to question [index] is kept. *)
Definition questionKey (index : nat) : string := "question_" +:+ pretty index.

(** [handleResponseChange] *)
Definition handleResponseChange (questionId value : string) (st : state) : state :=
  {| assessment := assessment st;
     responses := <[questionId := value]> (responses st);
     currentQuestionIndex := currentQuestionIndex st;
     timeRemaining := timeRemaining st; isOpen := isOpen st |}.

(** [response && response.trim().length > 0] *)
Definition answered (responses : gmap string string) (index : nat) : bool :=
  match responses !! questionKey index with
  | Some response =>
      Str.truthy response && (0 <? String.length (Str.trim response))%nat
  | None => false
  end.

(** The [forEach] of [calculateScore], from index [index] on. *)
Fixpoint count_answered (responses : gmap string string) (index : nat)
    (qs : list Assessments.Question) : nat :=
  match qs with
  | [] => 0
  | _ :: qs' =>
      ((if answered responses index then 1 else 0)
       + count_answered responses (S index) qs')%nat
  end.

Definition calculateScore (st : state) : number :=
  match assessment st with
  | None => of_Z 0
  | Some a =>
      let correctAnswers := count_answered (responses st) 0 (questions a) in
      let totalQuestions := length (questions a) in
      if (0 <? totalQuestions)%nat then
        Math_round
          (mul64 (div64 (of_nat correctAnswers) (of_nat totalQuestions)) (of_Z 100))
      else of_Z 0
  end.

(** [handleSubmit]. [now] is the browser's clock, [db_now] the database's.
    The Submit button and the countdown, when it reaches zero, both call it. *)
Definition handleSubmit (db : Db.store) (now db_now : Z) (user : option string)
    (assessmentId : string) (st : state) : Db.store * state * option string :=
  match assessment st with
  | None => (db, st, None)
  | Some _ =>
      let score := calculateScore st in
      let db' :=
        Rls.update_by_id db db_now user assessmentId
          {| Rls.responses := responses st;
             Rls.score := Rls.score_column score;
             Rls.status := Assessments.completed;
             Rls.updated_at := Some now |} in
      (db', onClose st,
       Some "Assessment submitted successfully! The recruiter will review your responses.")
  end.

End AssessmentModal.

(** ** The standalone assessment page ([Assessment]) *)

Module AssessmentPage.

Import JS.

Inductive section_t : Type := work_ethics | technical.

Definition section_name (s : section_t) : string :=
  match s with
  | work_ethics => "work_ethics"
  | technical => "technical"
  end.

(** The component's [Assessment]: the row with [questions] parsed. *)
Record Assessment : Type := {
  data : Assessments.row;
  questions : Assessments.questions_t;
}.

Record state : Type := {
  assessment : option Assessment;
  currentSection : section_t;
  currentQuestionIndex : Z;
  answers : gmap string string;
  route : option string;
}.

(** The state of the page when it is mounted. *)
Definition mounted : state :=
  {| assessment := None; currentSection := work_ethics; currentQuestionIndex := 0;
     answers := ∅; route := None |}.

Definition navigate (to : string) (st : state) : state :=
  {| assessment := assessment st; currentSection := currentSection st;
     currentQuestionIndex := currentQuestionIndex st; answers := answers st;
     route := Some to |}.

Section WithParser.

Variable JSON_parse : string → option Assessments.questions_t.

Definition fetchAssessment (db : Db.store) (now : Z) (user : option string)
    (assessmentId : string) (st : state) : state * option string :=
  match Rls.select_by_id db user assessmentId with
  | None => (navigate "/" st, Some "Assessment not found")
  | Some data =>
      if Assessments.expires_at data <? now then
        (navigate "/" st, Some "This assessment has expired")
      else
        match Assessments.status data with
        | Assessments.completed =>
            (navigate "/" st, Some "This assessment has already been completed")
        | _ =>
            match AssessmentModal.parsedQuestions JSON_parse (Assessments.questions data) with
            | None => (navigate "/" st, Some "Failed to load assessment")
            | Some parsed =>
                ({| assessment := Some {| data := data; questions := parsed |};
                    currentSection := currentSection st;
                    currentQuestionIndex := currentQuestionIndex st;
                    answers := answers st; route := route st |}, None)
            end
        end
  end.

End WithParser.

(** [questions[section]]: [None] for [undefined]. Reading a property of
    [null] throws, which [property] does not cover: see [is_null]. *)
Definition property (q : Assessments.questions_t) (s : section_t)
    : option (list Assessments.Question) :=
  match q with
  | Assessments.JObject we tech =>
      match s with work_ethics => we | technical => tech end
  | _ => None
  end.

Definition is_null (q : Assessments.questions_t) : bool :=
  match q with Assessments.JNull => true | _ => false end.

(** [getCurrentQuestions]; the outer [None] is the TypeError. *)
Definition getCurrentQuestions (st : state) : option (list Assessments.Question) :=
  match assessment st with
  | None => Some []
  | Some a =>
      if is_null (questions a) then None
      else Some (default [] (property (questions a) (currentSection st)))
  end.

(** [bucket?.length || 0] *)
Definition length_or_0 (b : option (list Assessments.Question)) : nat :=
  match b with Some l => length l | None => 0%nat end.

Definition getTotalQuestions (st : state) : option nat :=
  match assessment st with
  | None => Some 0%nat
  | Some a =>
      if is_null (questions a) then None
      else Some (length_or_0 (property (questions a) work_ethics)
                 + length_or_0 (property (questions a) technical))%nat
  end.

(** [Object.keys(answers).length] *)
Definition getCompletedQuestions (st : state) : nat := size (answers st).

Definition questionKey (s : section_t) (index : Z) : string :=
  section_name s +:+ "_" +:+ pretty index.

(** [array[index]] *)
Definition at_index {A} (l : list A) (index : Z) : option A :=
  if index <? 0 then None else l !! Z.to_nat index.

Definition handleAnswerChange (value : string) (st : state) : state :=
  {| assessment := assessment st; currentSection := currentSection st;
     currentQuestionIndex := currentQuestionIndex st;
     answers := <[questionKey (currentSection st) (currentQuestionIndex st) := value]> (answers st);
     route := route st |}.

Definition goto (s : section_t) (index : Z) (st : state) : state :=
  {| assessment := assessment st; currentSection := s;
     currentQuestionIndex := index; answers := answers st; route := route st |}.

(** [handleSubmit]: a TypeError from [getTotalQuestions] lands in the catch
    block and nothing is sent. *)
Definition handleSubmit (db : Db.store) (db_now : Z) (user : option string)
    (assessmentId : string) (st : state) : Db.store * state * option string :=
  match getTotalQuestions st with
  | None => (db, st, Some "Failed to submit assessment")
  | Some totalQuestions =>
      let score :=
        Math_round
          (mul64 (div64 (of_nat (getCompletedQuestions st)) (of_nat totalQuestions))
             (of_Z 100)) in
      let db' :=
        Rls.update_by_id db db_now user assessmentId
          {| Rls.responses := answers st;
             Rls.score := Rls.score_column score;
             Rls.status := Assessments.completed;
             Rls.updated_at := None |} in
      (db', navigate "/assessment-complete" st, Some "Assessment submitted successfully!")
  end.

Definition handleNext (db : Db.store) (db_now : Z) (user : option string)
    (assessmentId : string) (st : state) : Db.store * state * option string :=
  match getCurrentQuestions st with
  | None => (db, st, None)
  | Some currentQuestions =>
      if currentQuestionIndex st <? Z.of_nat (length currentQuestions) - 1 then
        (db, goto (currentSection st) (currentQuestionIndex st + 1) st, None)
      else
        match currentSection st with
        | work_ethics => (db, goto technical 0 st, None)
        | technical => handleSubmit db db_now user assessmentId st
        end
  end.

Definition handlePrevious (st : state) : state :=
  if 0 <? currentQuestionIndex st then
    goto (currentSection st) (currentQuestionIndex st - 1) st
  else
    match currentSection st with
    | technical =>
        let workEthicsQuestions :=
          default [] (assessment st ≫= fun a => property (questions a) work_ethics) in
        goto work_ethics (Z.of_nat (length workEthicsQuestions) - 1) st
    | work_ethics => st
    end.

(** What the applicant can do on the rendered page. *)
Inductive event : Type :=
| Select (value : string)
| Next
| Previous.

Definition currentQuestion (st : state) : option Assessments.Question :=
  getCurrentQuestions st ≫= fun qs => at_index qs (currentQuestionIndex st).

Definition currentAnswer (st : state) : option string :=
  answers st !! questionKey (currentSection st) (currentQuestionIndex st).

(** The question card is rendered only with an assessment loaded, while the
    page has not navigated away, and when rendering does not throw. *)
Definition rendered (st : state) : bool :=
  match assessment st, route st with
  | Some a, None => negb (is_null (questions a))
  | _, _ => false
  end.

(** A radio item exists for each option of the current question; the Next
    button is disabled without a truthy current answer, the Previous button
    on the first question of the first section. *)
Definition enabled (st : state) (e : event) : bool :=
  rendered st &&
  match e with
  | Select value =>
      match currentQuestion st ≫= Assessments.options with
      | Some opts => bool_decide (value ∈ opts)
      | None => false
      end
  | Next =>
      match currentAnswer st with
      | Some a => Str.truthy a
      | None => false
      end
  | Previous =>
      negb (match currentSection st with
            | work_ethics => currentQuestionIndex st =? 0
            | technical => false
            end)
  end.

Definition handle (db_now : Z) (user : option string) (assessmentId : string)
    (e : event) (s : Db.store * state) : Db.store * state :=
  let '(db, st) := s in
  match e with
  | Select value => (db, handleAnswerChange value st)
  | Next => fst (handleNext db db_now user assessmentId st)
  | Previous => (db, handlePrevious st)
  end.

(** The states a loaded page reaches through enabled events. *)
Inductive reachable (db_now : Z) (user : option string) (assessmentId : string)
    (a : Assessment) : Db.store * state → Prop :=
| reach_loaded db :
    reachable db_now user assessmentId a
      (db, {| assessment := Some a; currentSection := work_ethics;
              currentQuestionIndex := 0; answers := ∅; route := None |})
| reach_step s e :
    reachable db_now user assessmentId a s →
    enabled (snd s) e = true →
    reachable db_now user assessmentId a (handle db_now user assessmentId e s).

(** A sequence of events, and whether each is enabled when its turn comes. *)
Definition run (db_now : Z) (user : option string) (assessmentId : string)
    (es : list event) (s : Db.store * state) : Db.store * state :=
  foldl (fun s e => handle db_now user assessmentId e s) s es.

Fixpoint run_enabled (db_now : Z) (user : option string) (assessmentId : string)
    (es : list event) (s : Db.store * state) : bool :=
  match es with
  | [] => true
  | e :: es' =>
      enabled (snd s) e
      && run_enabled db_now user assessmentId es' (handle db_now user assessmentId e s)
  end.

End AssessmentPage.

(** ** The recruiter's candidate list *)

Module Candidates.

Import JS.

(** [getAverageMatchScore]; [random] is what [Math.random()] returns, a
    number in the interval from 0 (included) to 1 (excluded). *)
Definition getAverageMatchScore {Candidate : Type} (candidate : Candidate) (random : Q)
    : number :=
  add (Math_floor (mul (Fin random) (of_Z 40))) (of_Z 60).

End Candidates.

(** ** Concrete inputs *)

Module Scenario.

Definition job (skills_required : list string) (level : string) : Jobs.row :=
  {| Jobs.id := "job-1"; Jobs.recruiter_id := "recruiter-1";
     Jobs.skills_required := Some skills_required;
     Jobs.experience_level := Some level |}.

Definition profile (skills : list string) (years : Z) : ApplicantProfiles.row :=
  {| ApplicantProfiles.user_id := "applicant-1";
     ApplicantProfiles.skills := Some skills;
     ApplicantProfiles.experience_years := Some years |}.

Definition application : Applications.row :=
  {| Applications.id := "application-1"; Applications.job_id := "job-1";
     Applications.applicant_id := "applicant-1" |}.

(** A store with one job, one applicant and the application between them. *)
Definition db (j : Jobs.row) (p : ApplicantProfiles.row) : Db.store :=
  {| Db.jobs := {[ "job-1" := j ]};
     Db.applicant_profiles := {[ "applicant-1" := p ]};
     Db.applications := {[ "application-1" := application ]};
     Db.ai_match_scores := ∅;
     Db.assessments := ∅ |}.

(** The job and the applicant of the worked example. *)
Definition react_node_mid : Jobs.row := job ["React"; "Node.js"] "mid".
Definition react_aws_3 : ApplicantProfiles.row := profile ["react"; "aws"] 3.

(** A job posted with the skills field left empty. *)
Definition no_skills_mid : Jobs.row := job [] "mid".

(** An executive job and an applicant with the very same skills. *)
Definition react_node_executive : Jobs.row := job ["React"; "Node.js"] "executive".
Definition react_node_20 : ApplicantProfiles.row := profile ["React"; "Node.js"] 20.

(** The payloads of the scenarios are stored as JSON, not as text: the
    parser is never consulted and may refuse everything. *)
Definition no_parse (s : string) : option Assessments.questions_t := None.

(** The moment the assessment is generated. *)
Definition t0 : Z := 1755450461000.

(** The store after the recruiter has generated the default assessment. *)
Definition generated : Db.store :=
  snd (GenerateAssessment.serve (db react_node_mid react_aws_3) t0
         "assessment-1" "application-1" None).

Definition applicant : option string := Some "applicant-1".

(** The row that the generation has stored. *)
Definition generated_row : Assessments.row :=
  {| Assessments.id := "assessment-1";
     Assessments.application_id := "application-1";
     Assessments.job_id := "job-1";
     Assessments.applicant_id := "applicant-1";
     Assessments.questions := GenerateAssessment.defaultQuestions;
     Assessments.status := Assessments.sent;
     Assessments.assessment_url := GenerateAssessment.assessmentUrl "assessment-1";
     Assessments.score := None;
     Assessments.responses := None;
     Assessments.expires_at := t0 + Assessments.seven_days;
     Assessments.created_at := t0;
     Assessments.updated_at := t0 |}.

(** The assessment as the modal and as the page hold it once loaded. *)
Definition in_modal : AssessmentModal.Assessment :=
  {| AssessmentModal.data := generated_row;
     AssessmentModal.questions :=
       AssessmentModal.questionsArray GenerateAssessment.defaultQuestions |}.

Definition in_page : AssessmentPage.Assessment :=
  {| AssessmentPage.data := generated_row;
     AssessmentPage.questions := GenerateAssessment.defaultQuestions |}.

(** The applicant opens the modal one second after the generation, in two
    browser tabs. *)
Definition tab_1 : AssessmentModal.state :=
  fst (AssessmentModal.fetchAssessment no_parse generated (t0 + 1000) applicant
         "assessment-1" AssessmentModal.opened).

Definition tab_2 : AssessmentModal.state := tab_1.

(** In the first tab all four questions are answered. *)
Definition tab_1_answered : AssessmentModal.state :=
  AssessmentModal.handleResponseChange "question_3" "Research first"
    (AssessmentModal.handleResponseChange "question_2" "Intermediate"
       (AssessmentModal.handleResponseChange "question_1" "Growth"
          (AssessmentModal.handleResponseChange "question_0" "Plan ahead" tab_1))).

(** The store after the first tab has submitted, a minute after generation. *)
Definition submitted_once : Db.store :=
  (AssessmentModal.handleSubmit generated (t0 + 60000) (t0 + 60000) applicant
     "assessment-1" tab_1_answered).1.1.

(** The same on the standalone page: two tabs load the page, the first
    answers every question and submits through the Next button. *)
Definition page_tab : AssessmentPage.state :=
  fst (AssessmentPage.fetchAssessment no_parse generated (t0 + 1000) applicant
         "assessment-1" AssessmentPage.mounted).

Definition page_events : list AssessmentPage.event :=
  [ AssessmentPage.Select "Plan ahead"; AssessmentPage.Next;
    AssessmentPage.Select "Growth"; AssessmentPage.Next;
    AssessmentPage.Select "Intermediate"; AssessmentPage.Next;
    AssessmentPage.Select "Research first"; AssessmentPage.Next ].

Definition page_run (db_now : Z) (es : list AssessmentPage.event)
    (s : Db.store * AssessmentPage.state) : Db.store * AssessmentPage.state :=
  AssessmentPage.run db_now applicant "assessment-1" es s.

(** The page of the second tab, with three of the four questions answered. *)
Definition page_three_answered : AssessmentPage.state :=
  snd (page_run (t0 + 60000) (take 6 page_events) (generated, page_tab)).

Definition page_submitted_once : Db.store :=
  fst (page_run (t0 + 60000) page_events (generated, page_tab)).

(** The second tab was loaded before the first one submitted. There the
    applicant answers one question, two minutes after generation. *)
Definition tab_2_answered : AssessmentModal.state :=
  AssessmentModal.handleResponseChange "question_0" "Ask for help" tab_2.

(** On the page the second tab answers all four, the last one differently. *)
Definition page_events_2 : list AssessmentPage.event :=
  [ AssessmentPage.Select "Plan ahead"; AssessmentPage.Next;
    AssessmentPage.Select "Growth"; AssessmentPage.Next;
    AssessmentPage.Select "Intermediate"; AssessmentPage.Next;
    AssessmentPage.Select "Trial and error"; AssessmentPage.Next ].

(** An assessment of forty questions, twenty in each bucket: the applicant
    opens it in the modal and answers the first twenty-three. *)
Definition forty : Assessments.questions_t :=
  Assessments.JObject
    (Some (replicate 20
             (GenerateAssessment.multiple_choice "How do you handle tight deadlines?"
                ["Plan ahead"; "Work overtime"; "Ask for help"; "Prioritize tasks"])))
    (Some (replicate 20
             (GenerateAssessment.multiple_choice "Your problem-solving approach?"
                ["Research first"; "Trial and error"; "Ask colleagues";
                 "Break into steps"]))).

Definition generated_40 : Db.store :=
  snd (GenerateAssessment.serve (db react_node_mid react_aws_3) t0
         "assessment-40" "application-1" (Some forty)).

Definition tab_40 : AssessmentModal.state :=
  fst (AssessmentModal.fetchAssessment no_parse generated_40 (t0 + 1000) applicant
         "assessment-40" AssessmentModal.opened).

Definition tab_40_answered : AssessmentModal.state :=
  foldl (fun st i =>
           AssessmentModal.handleResponseChange (AssessmentModal.questionKey i)
             "Plan ahead" st)
    tab_40 (seq 0 23).

Definition submitted_40 : Db.store :=
  (AssessmentModal.handleSubmit generated_40 (t0 + 60000) (t0 + 60000) applicant
     "assessment-40" tab_40_answered).1.1.

(** The row after the first submission. *)
Definition completed_row : Assessments.row :=
  default generated_row (Db.assessments submitted_once !! "assessment-1").

(** One second after the seven days are over. *)
Definition too_late : Z := t0 + Assessments.seven_days + 1000.

End Scenario.

(** ** Vocabulary of the statements *)

(** The pair [(score, factors)] is well formed when both are finite and
    [0 <= score <= 100 * factors]. *)
Definition weighted (acc : JS.number * JS.number) : Prop :=
  ∃ s f, acc = (JS.Fin s, JS.Fin f) ∧ (0 <= s)%Q ∧ (s <= 100 * f)%Q ∧ (0 <= f)%Q.

(** The columns of an assessment that a submission does not send. *)
Definition kept_columns (r : Assessments.row) :=
  (Assessments.id r, Assessments.application_id r, Assessments.job_id r,
   Assessments.applicant_id r, Assessments.questions r,
   Assessments.assessment_url r, Assessments.expires_at r,
   Assessments.created_at r).

(** The completion rate in the words of the specification:
    round(100 × answered ÷ total). *)
Definition completion_rate (answered total : nat) : Z :=
  Qfloor (inject_Z 100 * inject_Z (Z.of_nat answered) / inject_Z (Z.of_nat total)
          + (1 # 2))%Q.

(** The percentage as both front ends compute it, in binary64:
    [Math.round((answered / total) * 100)]. *)
Definition percentage (answered total : nat) : JS.number :=
  JS.Math_round (JS.mul64 (JS.div64 (JS.of_nat answered) (JS.of_nat total)) (JS.of_Z 100)).

(** 100 × answered ÷ total lies exactly half way between two integers. *)
Definition half_way (answered total : nat) : bool :=
  (200 * Z.of_nat answered + Z.of_nat total) mod (2 * Z.of_nat total) =? 0.

(** The unit roundoff of binary64, [2^-53]. *)
Definition unit_roundoff : Q := 1 # 9007199254740992.

(** Modal: a question is answered when the response kept under its key is
    non-empty after trimming. *)
Definition modal_is_answered (responses : gmap string string) (index : nat) : bool :=
  match responses !! AssessmentModal.questionKey index with
  | Some response => negb (String.eqb (Str.trim response) "")
  | None => false
  end.

Definition modal_answered (responses : gmap string string) (total : nat) : nat :=
  length (List.filter (modal_is_answered responses) (seq 0 total)).

(** Page: the keys of the questions of a payload, bucket by bucket. *)
Definition page_bucket_keys (q : Assessments.questions_t) (s : AssessmentPage.section_t)
    : list string :=
  (fun i : nat => AssessmentPage.questionKey s (Z.of_nat i))
    <$> seq 0 (AssessmentPage.length_or_0 (AssessmentPage.property q s)).

Definition page_question_keys (q : Assessments.questions_t) : list string :=
  page_bucket_keys q AssessmentPage.work_ethics
  ++ page_bucket_keys q AssessmentPage.technical.

(** Page: a question is answered when its key is present in the answers. *)
Definition page_answered (answers : gmap string string) (q : Assessments.questions_t)
    : nat :=
  length (filter (fun k => is_Some (answers !! k)) (page_question_keys q)).

(** Page: the loaded assessment stays, and only questions have answers. *)
Definition page_inv (a : AssessmentPage.Assessment) (st : AssessmentPage.state) : Prop :=
  AssessmentPage.assessment st = Some a
  ∧ ∀ k, is_Some (AssessmentPage.answers st !! k) →
         k ∈ page_question_keys (AssessmentPage.questions a).

(** The stored assessment of an identity, and one of its stored answers. *)
Definition stored (db : Db.store) (id : string) : option Assessments.row :=
  Db.assessments db !! id.

Definition stored_answer (db : Db.store) (id key : string) : option string :=
  match stored db id with
  | Some r =>
      match Assessments.responses r with
      | Some answers => answers !! key
      | None => None
      end
  | None => None
  end.

(** ** Further components *)

(** *** The modal's navigation, progress and countdown display *)

Module ModalNavigation.

Import AssessmentModal.

Definition setCurrentQuestionIndex (index : Z) (st : state) : state :=
  {| assessment := assessment st; responses := responses st;
     currentQuestionIndex := index;
     timeRemaining := timeRemaining st; isOpen := isOpen st |}.

(** [assessment?.questions?.length || 0] *)
Definition questions_length (st : state) : Z :=
  match assessment st with
  | Some a => Z.of_nat (length (questions a))
  | None => 0
  end.

Definition handleNext (st : state) : state :=
  if currentQuestionIndex st <? questions_length st - 1
  then setCurrentQuestionIndex (currentQuestionIndex st + 1) st
  else st.

Definition handlePrevious (st : state) : state :=
  if 0 <? currentQuestionIndex st
  then setCurrentQuestionIndex (currentQuestionIndex st - 1) st
  else st.

Definition getProgressPercentage (st : state) : JS.number :=
  if questions_length st =? 0 then JS.of_Z 0
  else JS.mul (JS.div (JS.of_Z (currentQuestionIndex st + 1))
                      (JS.Fin (inject_Z (questions_length st))))
              (JS.of_Z 100).

(** [assessment.questions[currentQuestionIndex]] *)
Definition currentQuestion (st : state) : option Assessments.Question :=
  assessment st ≫= fun a => AssessmentPage.at_index (questions a) (currentQuestionIndex st).

Definition isLastQuestion (st : state) : bool :=
  currentQuestionIndex st =? questions_length st - 1.

(** The key of the input that is on display:
    [`question_${currentQuestionIndex}`]. *)
Definition currentKey (st : state) : string :=
  "question_" +:+ pretty (currentQuestionIndex st).

(** The question card with its controls is rendered when the modal is open,
    an assessment with at least one question is loaded and the current
    question exists; otherwise one of the three notices is shown. *)
Definition rendered (st : state) : bool :=
  isOpen st && negb (questions_length st =? 0)
  && bool_decide (is_Some (currentQuestion st)).

Inductive event : Type :=
| Answer (value : string)
| Next
| Previous
| Jump (index : nat)
| Submit.

(** A radio item for each option of a multiple-choice question, a text area
    for a text or a coding question; "Next Question" on every question but
    the last, "Submit Assessment" on the last; "Previous" disabled on the
    first; one overview button for each question. *)
Definition enabled (st : state) (e : event) : bool :=
  rendered st &&
  match e with
  | Answer value =>
      match currentQuestion st with
      | Some q =>
          if String.eqb (Assessments.type q) "multiple_choice" then
            match Assessments.options q with
            | Some opts => bool_decide (value ∈ opts)
            | None => false
            end
          else String.eqb (Assessments.type q) "text"
               || String.eqb (Assessments.type q) "coding"
      | None => false
      end
  | Next => negb (isLastQuestion st)
  | Previous => negb (currentQuestionIndex st =? 0)
  | Jump index => Z.of_nat index <? questions_length st
  | Submit => isLastQuestion st
  end.

Definition handle (now db_now : Z) (user : option string) (assessmentId : string)
    (e : event) (s : Db.store * state) : Db.store * state :=
  let '(db, st) := s in
  match e with
  | Answer value => (db, handleResponseChange (currentKey st) value st)
  | Next => (db, handleNext st)
  | Previous => (db, handlePrevious st)
  | Jump index => (db, setCurrentQuestionIndex (Z.of_nat index) st)
  | Submit => fst (handleSubmit db now db_now user assessmentId st)
  end.

Definition run (now db_now : Z) (user : option string) (assessmentId : string)
    (es : list event) (s : Db.store * state) : Db.store * state :=
  foldl (fun s e => handle now db_now user assessmentId e s) s es.

Fixpoint run_enabled (now db_now : Z) (user : option string) (assessmentId : string)
    (es : list event) (s : Db.store * state) : bool :=
  match es with
  | [] => true
  | e :: es' =>
      enabled (snd s) e
      && run_enabled now db_now user assessmentId es'
           (handle now db_now user assessmentId e s)
  end.

End ModalNavigation.

(** *** The applicant's list of applications: the "Take Assessment" button *)

Module ApplicantApplications.

(** [assessment.status === 'sent' && new Date(assessment.expires_at) > new Date()] *)
Definition canTakeAssessment (r : Assessments.row) (now : Z) : bool :=
  match Assessments.status r with
  | Assessments.sent => now <? Assessments.expires_at r
  | _ => false
  end.

End ApplicantApplications.

(** *** The recruiter's view of an assessment ([AssessmentResults]) *)

Module AssessmentResults.

Import Assessments.

(** The two inner tests shared by the string branch and the object branch:
    an array counts its elements, an object with both buckets counts both;
    [None] when neither test returns. *)
Definition count_of (q : questions_t) : option nat :=
  match q with
  | JArray qs => Some (length qs)
  | JObject (Some work_ethics) (Some technical) =>
      Some (length work_ethics + length technical)%nat
  | _ => None
  end.

Section WithParser.

Variable JSON_parse : string → option questions_t.

(** [getQuestionCount]. A payload kept as text is parsed; a parse error, and
    reading a bucket of a parsed [null], end in the catch block. *)
Definition getQuestionCount (questions : questions_t) : nat :=
  if negb (GenerateAssessment.truthy (Some questions)) then 0%nat
  else
    let in_string_branch :=
      match questions with
      | JString s =>
          match JSON_parse s with
          | None | Some JNull => Some 0%nat
          | Some parsed => count_of parsed
          end
      | _ => None
      end in
    match in_string_branch with
    | Some n => n
    | None =>
        match questions with
        | JString _ => 0%nat
        | _ => default 0%nat (count_of questions)
        end
    end.

End WithParser.

(** [getResponseCount] *)
Definition getResponseCount (responses : option (gmap string string)) : nat :=
  match responses with
  | Some r => size r
  | None => 0%nat
  end.

End AssessmentResults.

(** *** The job form: the skills and requirements fields *)

Module JobPostings.

(** [s.split(sep)] for a one-character separator. *)
Fixpoint split (sep : ascii) (s : string) : list string :=
  match s with
  | EmptyString => [EmptyString]
  | String c s' =>
      if Ascii.eqb c sep then EmptyString :: split sep s'
      else
        match split sep s' with
        | h :: t => String c h :: t
        | [] => [String c EmptyString]
        end
  end.

(** [formData.skills_required.split(',').map(s => s.trim()).filter(Boolean)] *)
Definition skills_required (input : string) : list string :=
  List.filter Str.truthy (List.map Str.trim (split "," input)).

(** [formData.requirements.split('\n').filter(Boolean)] *)
Definition requirements (input : string) : list string :=
  List.filter Str.truthy (split (ascii_of_nat 10) input).

End JobPostings.

(** *** The applicant's profile form: the skill list *)

Module ApplicantProfileForm.

Record state : Type := {
  skills : list string;
  newSkill : string;
}.

(** [applicantProfile.skills.includes(x)] *)
Definition includes (l : list string) (x : string) : bool :=
  existsb (String.eqb x) l.

Definition addSkill (st : state) : state :=
  let t := Str.trim (newSkill st) in
  if Str.truthy t && negb (includes (skills st) t)
  then {| skills := skills st ++ [t]; newSkill := "" |}
  else st.

Definition removeSkill (skillToRemove : string) (st : state) : state :=
  {| skills := List.filter (fun skill => negb (String.eqb skill skillToRemove)) (skills st);
     newSkill := newSkill st |}.

End ApplicantProfileForm.

(** *** Applying for a job ([handleApply]) *)

Module Apply.

Definition with_applications (db : Db.store) (t : gmap string Applications.row)
    : Db.store :=
  {| Db.jobs := Db.jobs db; Db.applicant_profiles := Db.applicant_profiles db;
     Db.applications := t; Db.ai_match_scores := Db.ai_match_scores db;
     Db.assessments := Db.assessments db |}.

(** [UNIQUE(job_id, applicant_id)]: some stored application is for this pair. *)
Definition taken (db : Db.store) (job_id applicant_id : string) : bool :=
  bool_decide
    (map_Exists (fun _ r => Applications.job_id r = job_id
                            ∧ Applications.applicant_id r = applicant_id)
       (Db.applications db)).

(** INSERT into [public.applications] as the signed-in user: the row needs an
    applicant, an existing job, a free primary key and a free pair. The policy
    [auth.uid() = applicant_id] holds for the row the component sends. The
    cover letter and the status 'pending' are columns the model does not
    keep. *)
Definition insert (db : Db.store) (uuid : string) (user : option string)
    (job_id : string) : option Db.store :=
  match user with
  | None => None
  | Some applicant_id =>
      if bool_decide (is_Some (Db.jobs db !! job_id))
         && bool_decide (Db.applications db !! uuid = None)
         && negb (taken db job_id applicant_id)
      then
        Some (with_applications db
                (<[uuid := {| Applications.id := uuid;
                              Applications.job_id := job_id;
                              Applications.applicant_id := applicant_id |}]>
                   (Db.applications db)))
      else None
  end.

(** [handleApply]: the new store and the toast, if any. [uuid] is the
    identity the database draws for the row. *)
Definition handleApply (db : Db.store) (uuid : string) (user : option string)
    (selectedJob : option Jobs.row) : Db.store * option string :=
  match selectedJob with
  | None => (db, None)
  | Some job =>
      match insert db uuid user (Jobs.id job) with
      | Some db' => (db', Some "Application submitted successfully!")
      | None => (db, Some "Error submitting application")
      end
  end.

End Apply.

(** *** Searching the job list ([filteredJobs]) *)

Module JobSearch.

(** The fields of the component's [Job] that the filter reads. *)
Record Job : Type := {
  title : string;
  description : string;
  company_name : option string;
  location : string;
  job_type : string;
}.

Definition matchesSearch (searchTerm : string) (job : Job) : bool :=
  let term := Str.toLowerCase searchTerm in
  Str.includes (Str.toLowerCase (title job)) term
  || Str.includes (Str.toLowerCase (description job)) term
  || match company_name job with
     | Some name => Str.includes (Str.toLowerCase name) term
     | None => false
     end.

Definition matchesLocation (locationFilter : string) (job : Job) : bool :=
  negb (Str.truthy locationFilter)
  || Str.includes (Str.toLowerCase (location job)) (Str.toLowerCase locationFilter).

Definition matchesJobType (jobTypeFilter : string) (job : Job) : bool :=
  negb (Str.truthy jobTypeFilter)
  || String.eqb jobTypeFilter "all-types"
  || String.eqb (job_type job) jobTypeFilter.

Definition filteredJobs (searchTerm locationFilter jobTypeFilter : string)
    (jobs : list Job) : list Job :=
  List.filter
    (fun job => matchesSearch searchTerm job && matchesLocation locationFilter job
                && matchesJobType jobTypeFilter job)
    jobs.

End JobSearch.

(** *** Opening a candidate's portfolio ([handleViewPortfolio]) *)

Module Portfolio.

(** [s.startsWith(p)] *)
Definition startsWith (s p : string) : bool := String.prefix p s.

(** The address handed to [window.open]. *)
Definition handleViewPortfolio (portfolioUrl : string) : string :=
  if startsWith portfolioUrl "http://" || startsWith portfolioUrl "https://"
  then portfolioUrl
  else "https://" +:+ portfolioUrl.

End Portfolio.

(** ** Further vocabulary *)

(** A stored assessment is either waiting (sent, no responses, no score) or
    completed with responses; it is kept under its own identity and expires
    seven days after its creation. *)
Definition row_ok (key : string) (r : Assessments.row) : Prop :=
  Assessments.id r = key
  ∧ Assessments.expires_at r = Assessments.created_at r + Assessments.seven_days
  ∧ ((Assessments.status r = Assessments.sent
      ∧ Assessments.responses r = None ∧ Assessments.score r = None)
     ∨ (Assessments.status r = Assessments.completed
        ∧ is_Some (Assessments.responses r))).

Definition store_ok (db : Db.store) : Prop :=
  map_Forall row_ok (Db.assessments db).

(** At most one application for each pair of a job and an applicant. *)
Definition applications_unique (db : Db.store) : Prop :=
  ∀ i1 i2 r1 r2,
    Db.applications db !! i1 = Some r1 →
    Db.applications db !! i2 = Some r2 →
    Applications.job_id r1 = Applications.job_id r2 →
    Applications.applicant_id r1 = Applications.applicant_id r2 →
    i1 = i2.

(** The modal with a loaded assessment: the index points at a question and
    every response belongs to a question. *)
Definition modal_inv (a : AssessmentModal.Assessment) (st : AssessmentModal.state)
    : Prop :=
  AssessmentModal.assessment st = Some a
  ∧ 0 <= AssessmentModal.currentQuestionIndex st
         < Z.of_nat (length (AssessmentModal.questions a))
  ∧ ∀ k, is_Some (AssessmentModal.responses st !! k) →
         ∃ i, (i < length (AssessmentModal.questions a))%nat
              ∧ k = AssessmentModal.questionKey i.

(** The state of the modal right after a successful load. *)
Definition modal_loaded (a : AssessmentModal.Assessment) (timeLeft : Z)
    : AssessmentModal.state :=
  {| AssessmentModal.assessment := Some a;
     AssessmentModal.responses := ∅;
     AssessmentModal.currentQuestionIndex := 0;
     AssessmentModal.timeRemaining := timeLeft;
     AssessmentModal.isOpen := true |}.

(** The state of the page right after a successful load. *)
Definition page_loaded (a : AssessmentPage.Assessment) : AssessmentPage.state :=
  {| AssessmentPage.assessment := Some a;
     AssessmentPage.currentSection := AssessmentPage.work_ethics;
     AssessmentPage.currentQuestionIndex := 0;
     AssessmentPage.answers := ∅;
     AssessmentPage.route := None |}.

(** The position of a question in the order of the page. *)
Definition page_position (s : AssessmentPage.section_t) (i : Z) : Z * Z :=
  (match s with AssessmentPage.work_ethics => 0 | AssessmentPage.technical => 1 end, i).

Definition position_lt (x y : Z * Z) : Prop :=
  fst x < fst y ∨ (fst x = fst y ∧ snd x < snd y).

(** Page: every question before the one on display has an answer. *)
Definition page_answered_before (a : AssessmentPage.Assessment)
    (st : AssessmentPage.state) : Prop :=
  ∀ s (i : nat),
    (i < AssessmentPage.length_or_0
           (AssessmentPage.property (AssessmentPage.questions a) s))%nat →
    position_lt (page_position s (Z.of_nat i))
      (page_position (AssessmentPage.currentSection st)
         (AssessmentPage.currentQuestionIndex st)) →
    is_Some (AssessmentPage.answers st !! AssessmentPage.questionKey s (Z.of_nat i)).

(** Nothing but commas and white space. *)
Fixpoint commas_and_spaces (s : string) : bool :=
  match s with
  | EmptyString => true
  | String a s1 =>
      if Ascii.eqb a "," || Str.space1 a then commas_and_spaces s1
      else
        match s1 with
        | EmptyString => false
        | String b s2 =>
            if Str.space2 a b then commas_and_spaces s2
            else
              match s2 with
              | EmptyString => false
              | String c s3 =>
                  if Str.space3 a b c then commas_and_spaces s3 else false
              end
        end
  end.

(** Every character of [s] passes [P]. *)
Fixpoint all_chars (P : ascii → bool) (s : string) : bool :=
  match s with
  | EmptyString => true
  | String c s' => P c && all_chars P s'
  end.

Definition is_nil {A : Type} (l : list A) : bool :=
  match l with [] => true | _ => false end.

(** * Properties *)

(** ** Arithmetic of the number model *)

Lemma add_of_Z (a b : Z) : JS.add (JS.of_Z a) (JS.of_Z b) = JS.of_Z (a + b).
Proof.
  unfold JS.add, JS.of_Z, Qplus, inject_Z; simpl.
  do 2 f_equal. lia.
Qed.

Lemma Math_round_of_Z (a : Z) : JS.Math_round (JS.of_Z a) = JS.of_Z a.
Proof.
  unfold JS.Math_round, JS.of_Z. do 2 f_equal.
  unfold Qfloor, Qplus, inject_Z; cbn [Qnum Qden].
  symmetry. apply Z.div_unique with (r := 1); lia.
Qed.

Lemma Math_min_of_Z (a b : Z) :
  JS.Math_min (JS.of_Z a) (JS.of_Z b) = JS.of_Z (Z.min a b).
Proof.
  unfold JS.Math_min, JS.of_Z, Qle_bool, inject_Z; simpl.
  rewrite !Z.mul_1_r.
  destruct (Z.leb_spec a b).
  - rewrite Z.min_l by lia. reflexivity.
  - rewrite Z.min_r by lia. reflexivity.
Qed.

Lemma div_of_nat_pos (m n : nat) :
  (0 < n)%nat →
  JS.div (JS.of_nat m) (JS.of_nat n)
  = JS.Fin (inject_Z (Z.of_nat m) / inject_Z (Z.of_nat n)).
Proof.
  intros Hn. unfold JS.div, JS.of_nat, JS.of_Z.
  assert (Hc : (inject_Z (Z.of_nat n) ?= 0)%Q = Gt).
  { unfold Qcompare, inject_Z; simpl. rewrite Z.mul_1_r.
    apply Z.compare_gt_iff. lia. }
  rewrite Hc. reflexivity.
Qed.

Lemma div_zero_zero : JS.div (JS.of_nat 0) (JS.of_nat 0) = JS.NaN.
Proof. reflexivity. Qed.

(** [m / n] for counts with [0 < n] lies between 0 and [m / n <= 1] when
    [m <= n]. *)
Lemma ratio_nonneg (m n : nat) :
  (0 < n)%nat → (0 <= inject_Z (Z.of_nat m) / inject_Z (Z.of_nat n))%Q.
Proof.
  intros Hn. apply Qle_shift_div_l.
  - unfold Qlt, inject_Z; simpl. lia.
  - rewrite Qmult_0_l. unfold Qle, inject_Z; simpl. lia.
Qed.

Lemma ratio_le_1 (m n : nat) :
  (0 < n)%nat → (m <= n)%nat →
  (inject_Z (Z.of_nat m) / inject_Z (Z.of_nat n) <= 1)%Q.
Proof.
  intros Hn Hmn. apply Qle_shift_div_r.
  - unfold Qlt, inject_Z; simpl. lia.
  - rewrite Qmult_1_l. unfold Qle, inject_Z; simpl. lia.
Qed.

Lemma ratio_same (n : nat) :
  (0 < n)%nat → (inject_Z (Z.of_nat n) / inject_Z (Z.of_nat n) == 1)%Q.
Proof.
  intros Hn. apply Qmult_inv_r.
  unfold Qeq, inject_Z; simpl. lia.
Qed.

(** Rounding keeps integer bounds. *)
Lemma round_bounds (q : Q) (lo hi : Z) :
  (inject_Z lo <= q)%Q → (q <= inject_Z hi)%Q →
  lo <= Qfloor (q + (1 # 2)) <= hi.
Proof.
  intros Hlo Hhi. split.
  - rewrite <- (Qfloor_Z lo). apply Qfloor_resp_le.
    apply Qle_trans with q; [exact Hlo|].
    rewrite <- (Qplus_0_r q) at 1. apply Qplus_le_r. discriminate.
  - assert (H : (q + (1 # 2) < inject_Z (hi + 1))%Q).
    { rewrite inject_Z_plus.
      apply Qle_lt_trans with (inject_Z hi + (1 # 2))%Q.
      - apply Qplus_le_l. exact Hhi.
      - apply Qplus_lt_r. reflexivity. }
    assert (H' : (inject_Z (Qfloor (q + (1 # 2))) < inject_Z (hi + 1))%Q).
    { eapply Qle_lt_trans; [apply Qfloor_le|exact H]. }
    rewrite <- Zlt_Qlt in H'. lia.
Qed.

(** ** Match scoring *)

Lemma prefix_refl (s : string) : String.prefix s s = true.
Proof.
  induction s as [|c s IH]; simpl; [reflexivity|].
  destruct (ascii_dec c c); [exact IH|contradiction].
Qed.

Lemma includes_refl (s : string) : Str.includes s s = true.
Proof.
  destruct s as [|c s]; cbn [Str.includes]; rewrite prefix_refl; reflexivity.
Qed.

(** Every applicant skill matches when the two lists are the same. *)
Lemma matchingSkills_same (l : list string) : AiAnalysis.matchingSkills l l = l.
Proof.
  unfold AiAnalysis.matchingSkills.
  assert (H : ∀ l' : list string, (∀ x, In x l' → In x l) →
    List.filter (fun skill =>
      existsb (fun req => Str.includes req skill || Str.includes skill req) l) l' = l').
  { induction l' as [|x l' IH]; intros Hin; simpl; [reflexivity|].
    assert (Hx : existsb (fun req => Str.includes req x || Str.includes x req) l = true).
    { apply existsb_exists. exists x. split; [apply Hin; left; reflexivity|].
      rewrite includes_refl. reflexivity. }
    rewrite Hx, IH; [reflexivity|]. intros y Hy. apply Hin. right. exact Hy. }
  apply H. auto.
Qed.

(** With a required-skill list that is present and empty the quotient is
    [0 / 0]: whatever the applicant's skills, nothing can match. *)
Lemma skills_term_empty_requirements (p : ApplicantProfiles.row) (j : Jobs.row)
    (ss : list string) (s : JS.number) :
  ApplicantProfiles.skills p = Some ss →
  Jobs.skills_required j = Some [] →
  AiAnalysis.skills_term (Some p) (Some j) s = JS.NaN.
Proof.
  intros Hp Hj. unfold AiAnalysis.skills_term; simpl. rewrite Hp, Hj; simpl.
  assert (E : AiAnalysis.matchingSkills (List.map Str.toLowerCase ss) [] = []).
  { unfold AiAnalysis.matchingSkills. induction (List.map Str.toLowerCase ss); simpl; auto. }
  rewrite E; simpl. destruct s; reflexivity.
Qed.

Lemma experience_term_NaN (profile : option ApplicantProfiles.row) (job : option Jobs.row) :
  AiAnalysis.experience_term profile job JS.NaN = JS.NaN.
Proof.
  unfold AiAnalysis.experience_term.
  destruct (profile ≫= ApplicantProfiles.experience_years); [|reflexivity].
  destruct (job ≫= Jobs.experience_level); [|reflexivity].
  repeat (match goal with |- context [if ?b then _ else _] => destruct b end);
    reflexivity.
Qed.

(** The server-side score is [NaN] for every job whose required-skill list
    is empty and every profile with a skill list. *)
Lemma matchScore_empty_requirements (p : ApplicantProfiles.row) (j : Jobs.row)
    (ss : list string) :
  ApplicantProfiles.skills p = Some ss →
  Jobs.skills_required j = Some [] →
  AiAnalysis.matchScore (Some p) (Some j) = JS.NaN.
Proof.
  intros Hp Hj. unfold AiAnalysis.matchScore.
  rewrite (skills_term_empty_requirements p j ss _ Hp Hj), experience_term_NaN.
  reflexivity.
Qed.

(** The skill term never lowers the score below the base. *)
Lemma skills_term_lower_bound (profile : option ApplicantProfiles.row)
    (job : option Jobs.row) :
  (∀ j, job = Some j → Jobs.skills_required j ≠ Some []) →
  ∃ q, AiAnalysis.skills_term profile job (JS.of_Z 60) = JS.Fin q ∧ (inject_Z 60 <= q)%Q.
Proof.
  intros Hne. unfold AiAnalysis.skills_term.
  destruct (profile ≫= ApplicantProfiles.skills) as [ss|] eqn:Hp;
    [|exists (inject_Z 60); split; [reflexivity|apply Qle_refl]].
  destruct (job ≫= Jobs.skills_required) as [rs|] eqn:Hj;
    [|exists (inject_Z 60); split; [reflexivity|apply Qle_refl]].
  assert (Hlen : (0 < length (List.map Str.toLowerCase rs))%nat).
  { destruct job as [j|]; [|discriminate]. simpl in Hj.
    destruct rs; [exfalso; exact (Hne j eq_refl Hj)|simpl; lia]. }
  cbv zeta. rewrite (div_of_nat_pos _ _ Hlen). simpl.
  eexists. split; [reflexivity|].
  rewrite <- (Qplus_0_r (inject_Z 60)) at 1. apply Qplus_le_r.
  apply Qmult_le_0_compat; [apply ratio_nonneg; exact Hlen|discriminate].
Qed.

Lemma experience_term_lower_bound (profile : option ApplicantProfiles.row)
    (job : option Jobs.row) (q : Q) :
  ∃ q', AiAnalysis.experience_term profile job (JS.Fin q) = JS.Fin q' ∧ (q <= q')%Q.
Proof.
  assert (Hadd : ∃ q', JS.add (JS.Fin q) (JS.of_Z 10) = JS.Fin q' ∧ (q <= q')%Q).
  { eexists. split; [reflexivity|].
    rewrite <- (Qplus_0_r q) at 1. apply Qplus_le_r. discriminate. }
  assert (Hid : ∃ q', JS.Fin q = JS.Fin q' ∧ (q <= q')%Q).
  { exists q. split; [reflexivity|apply Qle_refl]. }
  unfold AiAnalysis.experience_term.
  destruct (profile ≫= ApplicantProfiles.experience_years); [|exact Hid].
  destruct (job ≫= Jobs.experience_level); [|exact Hid].
  repeat (match goal with |- context [if ?b then _ else _] => destruct b end);
    assumption.
Qed.

(** Outside the empty-list case the server-side score is an integer between
    60 and 100. *)
Lemma matchScore_range (profile : option ApplicantProfiles.row) (job : option Jobs.row) :
  (∀ j, job = Some j → Jobs.skills_required j ≠ Some []) →
  ∃ z, AiAnalysis.matchScore profile job = JS.of_Z z ∧ 60 <= z <= 100.
Proof.
  intros Hne. unfold AiAnalysis.matchScore.
  destruct (skills_term_lower_bound profile job Hne) as (q & -> & Hq).
  destruct (experience_term_lower_bound profile job q) as (q' & -> & Hq').
  cbn [JS.Math_round]. rewrite Math_min_of_Z.
  eexists. split; [reflexivity|].
  assert (60 <= Qfloor (q' + (1 # 2))).
  { rewrite <- (Qfloor_Z 60). apply Qfloor_resp_le.
    apply Qle_trans with q; [exact Hq|]. apply Qle_trans with q'; [exact Hq'|].
    rewrite <- (Qplus_0_r q') at 1. apply Qplus_le_r. discriminate. }
  lia.
Qed.

Lemma experience_term_bonus (p : ApplicantProfiles.row) (j : Jobs.row)
    (years : Z) (level : string) (s : JS.number) :
  ApplicantProfiles.experience_years p = Some years →
  Jobs.experience_level j = Some level →
  (level = "senior" ∧ 5 <= years) ∨ (level = "mid" ∧ 2 <= years) →
  AiAnalysis.experience_term (Some p) (Some j) s = JS.add s (JS.of_Z 10).
Proof.
  intros Hy Hl Hlevel. unfold AiAnalysis.experience_term. simpl. rewrite Hy, Hl.
  assert (Ht : JS.Z_truthy years = true).
  { unfold JS.Z_truthy. apply negb_true_iff, Z.eqb_neq.
    destruct Hlevel as [[_ H]|[_ H]]; lia. }
  rewrite Ht.
  destruct Hlevel as [[-> H]|[-> H]]; apply Z.leb_le in H; simpl; rewrite H;
    reflexivity.
Qed.

Lemma skills_term_same (p : ApplicantProfiles.row) (j : Jobs.row)
    (ss : list string) (s : JS.number) :
  ss ≠ [] →
  ApplicantProfiles.skills p = Some ss →
  Jobs.skills_required j = Some ss →
  ∃ q, (q == 1)%Q ∧
    AiAnalysis.skills_term (Some p) (Some j) s
    = JS.add s (JS.mul (JS.Fin q) (JS.of_Z 30)).
Proof.
  intros Hne Hp Hj.
  assert (Hlen : (0 < length (List.map Str.toLowerCase ss))%nat).
  { destruct ss; [contradiction|simpl; lia]. }
  unfold AiAnalysis.skills_term.
  change (Some p ≫= ApplicantProfiles.skills) with (ApplicantProfiles.skills p).
  change (Some j ≫= Jobs.skills_required) with (Jobs.skills_required j).
  rewrite Hp, Hj. cbv zeta.
  rewrite matchingSkills_same, (div_of_nat_pos _ _ Hlen).
  eexists. split; [|reflexivity]. apply ratio_same. exact Hlen.
Qed.

(** A full skill match on a non-empty list, with the bonus of a senior or a
    mid-level job, reaches the top score. *)
Lemma matchScore_full_match (p : ApplicantProfiles.row) (j : Jobs.row)
    (ss : list string) (years : Z) (level : string) :
  ss ≠ [] →
  ApplicantProfiles.skills p = Some ss →
  Jobs.skills_required j = Some ss →
  ApplicantProfiles.experience_years p = Some years →
  Jobs.experience_level j = Some level →
  (level = "senior" ∧ 5 <= years) ∨ (level = "mid" ∧ 2 <= years) →
  AiAnalysis.matchScore (Some p) (Some j) = JS.of_Z 100.
Proof.
  intros Hne Hp Hj Hy Hl Hlevel.
  unfold AiAnalysis.matchScore.
  destruct (skills_term_same p j ss (JS.of_Z 60) Hne Hp Hj) as (q & Hq & ->).
  rewrite (experience_term_bonus p j years level _ Hy Hl Hlevel).
  cbn [JS.add JS.mul JS.of_Z JS.Math_round].
  assert (E : (inject_Z 60 + q * inject_Z 30 + inject_Z 10 + (1 # 2) == 100 + (1 # 2))%Q).
  { rewrite Hq. reflexivity. }
  rewrite E. reflexivity.
Qed.

(** *** The applicant-side estimate *)

Lemma mul_of_Z (a b : Z) : JS.mul (JS.of_Z a) (JS.of_Z b) = JS.of_Z (a * b).
Proof. reflexivity. Qed.

Lemma ge_of_Z (a b : Z) : JS.ge (JS.of_Z a) (JS.of_Z b) = (b <=? a).
Proof.
  unfold JS.ge, JS.of_Z, Qle_bool, inject_Z; simpl. rewrite !Z.mul_1_r. reflexivity.
Qed.

Lemma Math_max_of_Z (a b : Z) :
  JS.Math_max (JS.of_Z a) (JS.of_Z b) = JS.of_Z (Z.max a b).
Proof.
  unfold JS.Math_max, JS.of_Z, Qle_bool, inject_Z; simpl.
  rewrite !Z.mul_1_r.
  destruct (Z.leb_spec a b).
  - rewrite Z.max_r by lia. reflexivity.
  - rewrite Z.max_l by lia. reflexivity.
Qed.

Lemma div_Fin_pos (x y : Q) :
  (0 < y)%Q → JS.div (JS.Fin x) (JS.Fin y) = JS.Fin (x / y).
Proof.
  intros Hy. unfold JS.div.
  assert (Hc : (y ?= 0)%Q = Gt) by (apply Qgt_alt; exact Hy).
  rewrite Hc. reflexivity.
Qed.

(** The experience sub-score is an integer between 0 and 100. *)
Lemma experienceScore_range (level : option string) (y : Z) :
  ∃ e, ApplicantJobs.experienceScore level y = JS.of_Z e ∧ 0 <= e <= 100.
Proof.
  unfold ApplicantJobs.experienceScore. cbv zeta.
  rewrite !ge_of_Z, !mul_of_Z, !Math_max_of_Z.
  repeat (match goal with
          | |- context [if ?b then _ else _] => destruct b eqn:?
          end);
    eexists; (split; [reflexivity|]);
    repeat (match goal with
            | H : (_ <=? _) = false |- _ => apply Z.leb_gt in H
            | H : (_ <=? _) = true |- _ => apply Z.leb_le in H
            end); lia.
Qed.

(** The required skills that match are among the required skills. *)
Lemma client_matching_le (skills_required skills : list string) :
  (length (ApplicantJobs.matchingSkills skills_required skills)
   <= length skills_required)%nat.
Proof. unfold ApplicantJobs.matchingSkills. apply List.filter_length_le. Qed.

Lemma skills_block_weighted (p : ApplicantProfiles.row) (job : Jobs.row)
    (acc : JS.number * JS.number) :
  Jobs.skills_required job ≠ Some [] →
  weighted acc → weighted (ApplicantJobs.skills_block p job acc).
Proof.
  intros Hne (s & f & -> & Hs & Hsf & Hf). unfold ApplicantJobs.skills_block.
  destruct (Jobs.skills_required job) as [rs|]; [|exists s, f; auto].
  destruct (ApplicantProfiles.skills p) as [ss|]; [|exists s, f; auto].
  assert (Hlen : (0 < length rs)%nat) by (destruct rs; [congruence|simpl; lia]).
  cbv zeta. rewrite (div_of_nat_pos _ _ Hlen).
  pose proof (ratio_nonneg (length (ApplicantJobs.matchingSkills rs ss)) _ Hlen) as H0.
  pose proof (ratio_le_1 _ _ Hlen (client_matching_le rs ss)) as H1.
  set (r := (inject_Z _ / inject_Z _)%Q) in *.
  cbn [JS.mul JS.add JS.of_Z]. change (inject_Z 100) with 100%Q.
  eexists _, _. split; [reflexivity|]. repeat split; lra.
Qed.

Lemma experience_block_weighted (p : ApplicantProfiles.row) (job : Jobs.row)
    (acc : JS.number * JS.number) :
  weighted acc → weighted (ApplicantJobs.experience_block p job acc).
Proof.
  intros (s & f & -> & Hs & Hsf & Hf). unfold ApplicantJobs.experience_block.
  destruct (ApplicantProfiles.experience_years p) as [y|]; [|exists s, f; auto].
  destruct (JS.Z_truthy y); [|exists s, f; auto].
  destruct (experienceScore_range (Jobs.experience_level job) y) as (e & -> & He).
  cbn [JS.mul JS.add JS.of_Z].
  assert (He0 : (0 <= inject_Z e)%Q).
  { change 0%Q with (inject_Z 0). rewrite <- Zle_Qle. lia. }
  assert (He1 : (inject_Z e <= 100)%Q).
  { change 100%Q with (inject_Z 100). rewrite <- Zle_Qle. lia. }
  set (x := inject_Z e) in *.
  eexists _, _. split; [reflexivity|]. repeat split; lra.
Qed.

(** On a job with at least one required skill (or none recorded) the
    applicant-side estimate is an integer between 0 and 100. *)
Lemma calculateMatchScore_range (profile : option ApplicantProfiles.row) (job : Jobs.row) :
  Jobs.skills_required job ≠ Some [] →
  ∃ z, ApplicantJobs.calculateMatchScore profile job = JS.of_Z z ∧ 0 <= z <= 100.
Proof.
  intros Hne. unfold ApplicantJobs.calculateMatchScore.
  destruct profile as [p|]; [|exists 0; split; [reflexivity|lia]].
  assert (H0 : weighted (JS.of_Z 0, JS.of_Z 0)).
  { exists 0%Q, 0%Q. split; [reflexivity|]. repeat split; lra. }
  destruct (experience_block_weighted p job _ (skills_block_weighted p job _ Hne H0))
    as (s & f & -> & Hs & Hsf & Hf).
  cbn [ApplicantJobs.base_block JS.mul JS.add JS.of_Z]. change (inject_Z 75) with 75%Q.
  rewrite div_Fin_pos by lra. cbn [JS.Math_round].
  eexists. split; [reflexivity|].
  apply round_bounds.
  - apply Qle_shift_div_l; [lra|]. change (inject_Z 0) with 0%Q. lra.
  - apply Qle_shift_div_r; [lra|]. change (inject_Z 100) with 100%Q. lra.
Qed.

(** With a required-skill list that is present and empty the estimate is
    [NaN], whatever else the profile holds. *)
Lemma calculateMatchScore_empty_requirements (p : ApplicantProfiles.row) (job : Jobs.row)
    (ss : list string) :
  ApplicantProfiles.skills p = Some ss →
  Jobs.skills_required job = Some [] →
  ApplicantJobs.calculateMatchScore (Some p) job = JS.NaN.
Proof.
  intros Hp Hj. unfold ApplicantJobs.calculateMatchScore.
  assert (E : ∃ f, ApplicantJobs.skills_block p job (JS.of_Z 0, JS.of_Z 0) = (JS.NaN, f)).
  { unfold ApplicantJobs.skills_block. rewrite Hp, Hj. eexists. reflexivity. }
  destruct E as (f & ->).
  assert (E : ∃ f', ApplicantJobs.experience_block p job (JS.NaN, f) = (JS.NaN, f')).
  { unfold ApplicantJobs.experience_block.
    destruct (ApplicantProfiles.experience_years p) as [y|]; [|eexists; reflexivity].
    destruct (JS.Z_truthy y); eexists; reflexivity. }
  destruct E as (f' & ->). reflexivity.
Qed.

(** *** The claims about match scoring *)

(** C1. The claim: for every job and profile, also with an empty
    required-skill list, both scoring paths return an integer in [0,100] and
    never [NaN]. On the job [Scenario.no_skills_mid], whose [skills_required]
    is the empty array, both paths divide zero by zero: the server-side
    [matchScore] is [NaN], which is no integer, the row is refused by the
    [match_score] column and the handler answers with a failure, leaving the
    store as it was; the applicant-side [calculateMatchScore] is [NaN] too.
    ([matchScore_range] and [calculateMatchScore_range] give the claimed bounds
    for every other job.) *)
Theorem C1_empty_skills_required_NaN :
  let p := Scenario.react_aws_3 in
  let j := Scenario.no_skills_mid in
  AiAnalysis.matchScore (Some p) (Some j) = JS.NaN
  ∧ JS.as_int (AiAnalysis.matchScore (Some p) (Some j)) = None
  ∧ AiAnalysis.serve (Scenario.db j p) "job-1" "applicant-1"
    = (AiAnalysis.Failure "Failed to save match score", Scenario.db j p)
  ∧ ApplicantJobs.calculateMatchScore (Some p) j = JS.NaN.
Proof.
  cbv zeta.
  assert (Hs : AiAnalysis.matchScore (Some Scenario.react_aws_3)
                 (Some Scenario.no_skills_mid) = JS.NaN).
  { apply (matchScore_empty_requirements _ _ ["react"; "aws"]); reflexivity. }
  split_and!.
  - exact Hs.
  - rewrite Hs. reflexivity.
  - unfold AiAnalysis.serve, Scenario.db; cbn [Db.jobs Db.applicant_profiles].
    rewrite !lookup_singleton_eq, Hs. reflexivity.
  - apply (calculateMatchScore_empty_requirements _ _ ["react"; "aws"]); reflexivity.
Qed.

(** C4. Job skills ["React","Node.js"] at level "mid", applicant skills
    ["react","aws"] with 3 years: the server-side path adds 15 for the one
    matching skill out of two and 10 for the experience to the base of 60,
    scores 85, and the analysis text, both in the answer and in the stored
    row, carries the label "Strong". *)
Theorem C4_worked_example_85_strong :
  let p := Scenario.react_aws_3 in
  let j := Scenario.react_node_mid in
  let db := Scenario.db j p in
  JS.as_int (AiAnalysis.skills_term (Some p) (Some j) (JS.of_Z 60)) = Some 75
  ∧ AiAnalysis.experience_term (Some p) (Some j) (JS.of_Z 75) = JS.of_Z 85
  ∧ AiAnalysis.matchScore (Some p) (Some j) = JS.of_Z 85
  ∧ AiAnalysis.label (JS.of_Z 85) = "Strong"
  ∧ fst (AiAnalysis.serve db "job-1" "applicant-1")
    = AiAnalysis.Success (JS.of_Z 85)
        "Candidate shows 85% compatibility with the role. Strong match based on skills and experience."
  ∧ (∃ r, Db.ai_match_scores (snd (AiAnalysis.serve db "job-1" "applicant-1"))
          !! ("job-1", "applicant-1") = Some r
        ∧ AiMatchScores.match_score r = 85
        ∧ Str.includes (AiMatchScores.analysis r) "Strong" = true).
Proof.
  cbv zeta.
  assert (Hs : AiAnalysis.matchScore (Some Scenario.react_aws_3)
                 (Some Scenario.react_node_mid) = JS.of_Z 85) by (vm_compute; reflexivity).
  assert (Ha : AiAnalysis.analysis (JS.of_Z 85)
    = "Candidate shows 85% compatibility with the role. Strong match based on skills and experience.")
    by (vm_compute; reflexivity).
  split_and!.
  - vm_compute; reflexivity.
  - vm_compute; reflexivity.
  - exact Hs.
  - reflexivity.
  - unfold AiAnalysis.serve, Scenario.db; cbn [Db.jobs Db.applicant_profiles].
    rewrite !lookup_singleton_eq, Hs, Ha. reflexivity.
  - unfold AiAnalysis.serve, Scenario.db; cbn [Db.jobs Db.applicant_profiles].
    rewrite !lookup_singleton_eq, Hs, Ha.
    cbn [AiMatchScores.match_score_column JS.to_json JS.of_Z].
    change (JS.as_int (JS.Fin (inject_Z 85))) with (Some 85). cbn -[insert].
    eexists. split; [apply lookup_insert_eq|]. split; [reflexivity|].
    vm_compute; reflexivity.
Qed.

(** C5. The claim: identical skills and experience in the highest bracket
    give exactly 100. The schema's highest level is 'executive', for which the
    server-side path has no branch (it tests 'senior', 'mid' and 'junior', and
    'junior' is a value the schema's CHECK refuses): with the very same skills
    and twenty years the score is 90. The same holds for an 'entry' job.
    ([matchScore_full_match] gives 100 for 'senior' and 'mid'.) *)
Theorem C5_executive_full_match_scores_90 :
  AiAnalysis.matchScore (Some Scenario.react_node_20) (Some Scenario.react_node_executive)
  = JS.of_Z 90
  ∧ Jobs.experience_level_check (Jobs.experience_level Scenario.react_node_executive) = true
  ∧ AiAnalysis.matchScore (Some Scenario.react_node_20)
      (Some (Scenario.job ["React"; "Node.js"] "entry")) = JS.of_Z 90
  ∧ Jobs.experience_level_check (Some "junior") = false.
Proof. split_and!; vm_compute; reflexivity. Qed.

(** ** The candidate list placeholder *)

(** C10. [getAverageMatchScore] returns an integer between 60 and 99 for
    every value [Math.random()] can return; the candidate does not enter the
    result; and two calls for the same candidate can differ. *)
Theorem C10_getAverageMatchScore_placeholder {Candidate : Type}
    (candidate other : Candidate) (random : Q) :
  (0 <= random)%Q → (random < 1)%Q →
  (∃ z, Candidates.getAverageMatchScore candidate random = JS.of_Z z ∧ 60 <= z <= 99)
  ∧ Candidates.getAverageMatchScore candidate random
    = Candidates.getAverageMatchScore other random
  ∧ (∃ r1 r2, (0 <= r1)%Q ∧ (r1 < 1)%Q ∧ (0 <= r2)%Q ∧ (r2 < 1)%Q
       ∧ Candidates.getAverageMatchScore candidate r1
         ≠ Candidates.getAverageMatchScore candidate r2).
Proof.
  intros H0 H1. split_and!.
  - unfold Candidates.getAverageMatchScore.
    cbn [JS.mul JS.of_Z JS.Math_floor]. fold (JS.of_Z (Qfloor (random * inject_Z 40))).
    fold (JS.of_Z 60). rewrite add_of_Z.
    eexists. split; [reflexivity|].
    assert (Hlo : 0 <= Qfloor (random * inject_Z 40)).
    { rewrite <- (Qfloor_Z 0). apply Qfloor_resp_le.
      change (inject_Z 0) with 0%Q. change (inject_Z 40) with 40%Q. lra. }
    assert (Hhi : (inject_Z (Qfloor (random * inject_Z 40)) < inject_Z 40)%Q).
    { eapply Qle_lt_trans; [apply Qfloor_le|].
      change (inject_Z 40) with 40%Q. lra. }
    rewrite <- Zlt_Qlt in Hhi. lia.
  - reflexivity.
  - exists 0%Q, (1 # 2)%Q. split_and!; try (unfold Qle, Qlt; simpl; lia).
    vm_compute. discriminate.
Qed.

(** C10 at [Math.random() = 1/2]. *)
Lemma C10_getAverageMatchScore_placeholder_witness :
  (0 <= 1 # 2)%Q ∧ (1 # 2 < 1)%Q
  ∧ (∃ z, Candidates.getAverageMatchScore "candidate-1" (1 # 2) = JS.of_Z z
          ∧ 60 <= z <= 99).
Proof.
  split; [unfold Qle; simpl; lia|]. split; [unfold Qlt; simpl; lia|].
  apply (C10_getAverageMatchScore_placeholder "candidate-1" "candidate-2" (1 # 2)).
  - unfold Qle; simpl; lia.
  - unfold Qlt; simpl; lia.
Defined.

(** ** The assessment engine *)

(** *** Presentation order *)

(** C6. When the modal loads an assessment, the questions it presents are
    the stored payload normalised: all of [work_ethics] in order followed by
    all of [technical] in order for the two-bucket shape (a missing bucket
    counting as empty), and the array itself for the flat shape; the stored
    row keeps its own shape. For [{work_ethics: [q1,q2], technical: [q3,q4]}]
    that is [q1,q2,q3,q4]. *)
Theorem C6_presentation_order (JSON_parse : string → option Assessments.questions_t)
    (db : Db.store) (now : Z) (user : option string) (assessmentId : string)
    (st st' : AssessmentModal.state) :
  AssessmentModal.fetchAssessment JSON_parse db now user assessmentId st = (st', None) →
  ∃ r parsed a,
    Db.assessments db !! assessmentId = Some r
    ∧ AssessmentModal.parsedQuestions JSON_parse (Assessments.questions r) = Some parsed
    ∧ AssessmentModal.assessment st' = Some a
    ∧ AssessmentModal.data a = r
    ∧ match parsed with
      | Assessments.JObject work_ethics technical =>
          AssessmentModal.questions a = default [] work_ethics ++ default [] technical
      | Assessments.JArray qs => AssessmentModal.questions a = qs
      | _ => AssessmentModal.questions a = []
      end
    ∧ (∀ q1 q2 q3 q4,
         parsed = Assessments.JObject (Some [q1; q2]) (Some [q3; q4]) →
         AssessmentModal.questions a = [q1; q2; q3; q4]).
Proof.
  unfold AssessmentModal.fetchAssessment, Rls.select_by_id. intros H.
  destruct (Db.assessments db !! assessmentId) as [r|] eqn:Hr; [|discriminate].
  destruct (Rls.can_select db user r); [|discriminate].
  destruct (Rls.is_applicant user r); [|discriminate].
  destruct (Assessments.expires_at r <? now);
    [destruct (Assessments.status r); discriminate|].
  destruct (AssessmentModal.parsedQuestions JSON_parse (Assessments.questions r))
    as [parsed|] eqn:Hp; [|destruct (Assessments.status r); discriminate].
  assert (Hst : st' =
    {| AssessmentModal.assessment :=
         Some {| AssessmentModal.data := r;
                 AssessmentModal.questions := AssessmentModal.questionsArray parsed |};
       AssessmentModal.responses := AssessmentModal.responses st;
       AssessmentModal.currentQuestionIndex := AssessmentModal.currentQuestionIndex st;
       AssessmentModal.timeRemaining := (Assessments.expires_at r - now) / 1000;
       AssessmentModal.isOpen := AssessmentModal.isOpen st |}).
  { destruct (Assessments.status r); congruence. }
  subst st'. eexists r, parsed, _. split_and!; try reflexivity.
  - exact Hp.
  - cbn [AssessmentModal.questions]. destruct parsed; reflexivity.
  - intros q1 q2 q3 q4 ->. reflexivity.
Qed.

(** C6 on the default assessment, loaded by its applicant. *)
Lemma C6_presentation_order_witness :
  ∃ r parsed a,
    Db.assessments Scenario.generated !! "assessment-1" = Some r
    ∧ AssessmentModal.parsedQuestions Scenario.no_parse (Assessments.questions r)
      = Some parsed
    ∧ AssessmentModal.assessment Scenario.tab_1 = Some a
    ∧ AssessmentModal.data a = r
    ∧ match parsed with
      | Assessments.JObject work_ethics technical =>
          AssessmentModal.questions a = default [] work_ethics ++ default [] technical
      | Assessments.JArray qs => AssessmentModal.questions a = qs
      | _ => AssessmentModal.questions a = []
      end
    ∧ (∀ q1 q2 q3 q4,
         parsed = Assessments.JObject (Some [q1; q2]) (Some [q3; q4]) →
         AssessmentModal.questions a = [q1; q2; q3; q4]).
Proof.
  apply (C6_presentation_order Scenario.no_parse Scenario.generated
           (Scenario.t0 + 1000) Scenario.applicant "assessment-1"
           AssessmentModal.opened Scenario.tab_1).
  vm_compute. reflexivity.
Defined.

(** *** Generation *)

(** A successful generation used an identity that no stored assessment had. *)
Lemma generate_success_fresh (db db' : Db.store) (db_now : Z) (uuid applicationId : string)
    (questions : option Assessments.questions_t) (i u : string) :
  GenerateAssessment.serve db db_now uuid applicationId questions
  = (GenerateAssessment.Success i u, db') →
  i = uuid ∧ Db.assessments db !! uuid = None
  ∧ is_Some (Db.applications db !! applicationId).
Proof.
  unfold GenerateAssessment.serve, GenerateAssessment.insert. intros H.
  destruct (Db.applications db !! applicationId); [|discriminate].
  destruct (Db.assessments db !! uuid); [discriminate|].
  inversion H; subst. eauto.
Qed.

(** Without an application of that id nothing is stored. *)
Lemma generate_not_found (db : Db.store) (db_now : Z) (uuid applicationId : string)
    (questions : option Assessments.questions_t) :
  Db.applications db !! applicationId = None →
  GenerateAssessment.serve db db_now uuid applicationId questions
  = (GenerateAssessment.Failure "Failed to fetch application", db).
Proof. unfold GenerateAssessment.serve. intros ->. reflexivity. Qed.

(** C8. For a request that names an existing application, with the
    identity drawn by [crypto.randomUUID()] being fresh, [generate-assessment]
    stores one new row under that identity, with status 'sent', created at the
    database's [now()] and expiring seven days later, for the application's
    job and applicant, and leaves every other row alone; when the request
    carries no question bank the stored payload is the default template, which
    has exactly two questions in each of [work_ethics] and [technical]. *)
Theorem C8_generate_assessment (db : Db.store) (db_now : Z) (uuid applicationId : string)
    (questions : option Assessments.questions_t) (application : Applications.row) :
  Db.applications db !! applicationId = Some application →
  Db.assessments db !! uuid = None →
  ∃ db' r,
    GenerateAssessment.serve db db_now uuid applicationId questions
    = (GenerateAssessment.Success uuid (GenerateAssessment.assessmentUrl uuid), db')
    ∧ Db.assessments db' !! uuid = Some r
    ∧ Assessments.id r = uuid
    ∧ Assessments.status r = Assessments.sent
    ∧ Assessments.created_at r = db_now
    ∧ Assessments.expires_at r = db_now + 7 * 24 * 60 * 60 * 1000
    ∧ Assessments.application_id r = applicationId
    ∧ Assessments.job_id r = Applications.job_id application
    ∧ Assessments.applicant_id r = Applications.applicant_id application
    ∧ Assessments.score r = None
    ∧ Assessments.responses r = None
    ∧ (∀ id', id' ≠ uuid → Db.assessments db' !! id' = Db.assessments db !! id')
    ∧ (questions = None → Assessments.questions r = GenerateAssessment.defaultQuestions)
    ∧ (∃ work_ethics technical,
         GenerateAssessment.defaultQuestions
         = Assessments.JObject (Some work_ethics) (Some technical)
         ∧ length work_ethics = 2%nat ∧ length technical = 2%nat).
Proof.
  intros Happ Hfresh.
  unfold GenerateAssessment.serve, GenerateAssessment.insert.
  rewrite Happ, Hfresh.
  eexists _, _. split; [reflexivity|].
  cbn [Db.assessments Db.with_assessments].
  split; [apply lookup_insert_eq|].
  split_and!; try reflexivity.
  - intros id' Hne. apply lookup_insert_ne. congruence.
  - intros ->. reflexivity.
  - eexists _, _. split_and!; reflexivity.
Qed.

(** C8 on the store of the worked example. *)
Lemma C8_generate_assessment_witness :
  ∃ db' r,
    GenerateAssessment.serve (Scenario.db Scenario.react_node_mid Scenario.react_aws_3)
      Scenario.t0 "assessment-1" "application-1" None
    = (GenerateAssessment.Success "assessment-1"
         (GenerateAssessment.assessmentUrl "assessment-1"), db')
    ∧ Db.assessments db' !! "assessment-1" = Some r
    ∧ Assessments.status r = Assessments.sent
    ∧ Assessments.expires_at r = Scenario.t0 + 7 * 24 * 60 * 60 * 1000
    ∧ Assessments.questions r = GenerateAssessment.defaultQuestions.
Proof.
  destruct (C8_generate_assessment
              (Scenario.db Scenario.react_node_mid Scenario.react_aws_3)
              Scenario.t0 "assessment-1" "application-1" None Scenario.application)
    as (db' & r & H1 & H2 & _ & H4 & _ & H6 & _ & _ & _ & _ & _ & _ & H13 & _).
  - vm_compute. reflexivity.
  - vm_compute. reflexivity.
  - exists db', r. split_and!; auto.
Defined.

(** *** The frame of a submission *)

Lemma update_by_id_kept_columns (db : Db.store) (db_now : Z) (uid : option string)
    (id : string) (c : Rls.changes) (id' : string) :
  kept_columns <$> (Db.assessments (Rls.update_by_id db db_now uid id c) !! id')
  = kept_columns <$> (Db.assessments db !! id').
Proof.
  unfold Rls.update_by_id.
  destruct (Db.assessments db !! id) as [r|] eqn:Hr; [|reflexivity].
  destruct (Rls.can_update uid r); [|reflexivity].
  cbn [Db.assessments Db.with_assessments].
  destruct (decide (id = id')) as [<-|Hne].
  - rewrite lookup_insert_eq, Hr. reflexivity.
  - rewrite lookup_insert_ne by exact Hne. reflexivity.
Qed.

Lemma page_handleSubmit_kept_columns (db : Db.store) (db_now : Z) (user : option string)
    (assessmentId : string) (st : AssessmentPage.state) (id' : string) :
  kept_columns
    <$> (Db.assessments (AssessmentPage.handleSubmit db db_now user assessmentId st).1.1
         !! id')
  = kept_columns <$> (Db.assessments db !! id').
Proof.
  unfold AssessmentPage.handleSubmit.
  destruct (AssessmentPage.getTotalQuestions st); [|reflexivity].
  apply update_by_id_kept_columns.
Qed.

(** C9. No operation on a stored assessment changes its [expires_at]: the
    UPDATE statement, whatever columns it is given among responses, score,
    status and updated_at, and with it the submission of the modal, the
    submission of the page and every other event of the page, keep the
    identity, the three foreign keys, the questions, the URL, [expires_at] and
    [created_at] of every row, and create or delete none. The two edge
    functions leave every stored assessment as it is. *)
Theorem C9_expires_at_fixed :
  (∀ db db_now uid id c id',
     kept_columns <$> (Db.assessments (Rls.update_by_id db db_now uid id c) !! id')
     = kept_columns <$> (Db.assessments db !! id'))
  ∧ (∀ db now db_now user assessmentId st id',
       Assessments.expires_at
         <$> (Db.assessments
                (AssessmentModal.handleSubmit db now db_now user assessmentId st).1.1 !! id')
       = Assessments.expires_at <$> (Db.assessments db !! id'))
  ∧ (∀ db db_now user assessmentId st id',
       Assessments.expires_at
         <$> (Db.assessments
                (AssessmentPage.handleSubmit db db_now user assessmentId st).1.1 !! id')
       = Assessments.expires_at <$> (Db.assessments db !! id'))
  ∧ (∀ db_now user assessmentId e db st id',
       Assessments.expires_at
         <$> (Db.assessments
                (fst (AssessmentPage.handle db_now user assessmentId e (db, st))) !! id')
       = Assessments.expires_at <$> (Db.assessments db !! id'))
  ∧ (∀ db db_now uuid applicationId questions id',
       match Db.assessments db !! id' with
       | Some r =>
           Db.assessments
             (snd (GenerateAssessment.serve db db_now uuid applicationId questions)) !! id'
           = Some r
       | None => True
       end)
  ∧ (∀ db jobId applicantId,
       Db.assessments (snd (AiAnalysis.serve db jobId applicantId)) = Db.assessments db).
Proof.
  assert (Hproj : ∀ o o' : option Assessments.row,
            kept_columns <$> o = kept_columns <$> o' →
            Assessments.expires_at <$> o = Assessments.expires_at <$> o').
  { intros [r|] [r'|] H; simpl in *; try congruence.
    unfold kept_columns in H. congruence. }
  split_and!.
  - apply update_by_id_kept_columns.
  - intros. apply Hproj. unfold AssessmentModal.handleSubmit.
    destruct (AssessmentModal.assessment st); [|reflexivity].
    apply update_by_id_kept_columns.
  - intros. apply Hproj. apply page_handleSubmit_kept_columns.
  - intros db_now user assessmentId e db st id'. apply Hproj.
    destruct e as [value| |]; cbn [AssessmentPage.handle fst]; try reflexivity.
    unfold AssessmentPage.handleNext.
    destruct (AssessmentPage.getCurrentQuestions st); [|reflexivity].
    destruct (_ <? _); [reflexivity|].
    destruct (AssessmentPage.currentSection st); [reflexivity|].
    apply page_handleSubmit_kept_columns.
  - intros db db_now uuid applicationId questions id'.
    destruct (Db.assessments db !! id') as [r|] eqn:Hr; [|exact I].
    unfold GenerateAssessment.serve, GenerateAssessment.insert.
    destruct (Db.applications db !! applicationId); [|exact Hr].
    destruct (Db.assessments db !! uuid) eqn:Hu; [exact Hr|].
    cbn [snd Db.assessments Db.with_assessments].
    rewrite lookup_insert_ne by congruence. exact Hr.
  - intros db jobId applicantId. unfold AiAnalysis.serve.
    destruct (AiMatchScores.match_score_column _); [|reflexivity].
    destruct (Db.jobs db !! jobId); reflexivity.
Qed.

(** *** Scoring a submission *)

Lemma trim_start_empty (r : string) : Str.truthy r = false → Str.trim r = "".
Proof. destruct r; [reflexivity|discriminate]. Qed.

(** The test of [calculateScore] is the test for a non-empty trimmed text. *)
Lemma answered_spec (responses : gmap string string) (index : nat) :
  AssessmentModal.answered responses index = modal_is_answered responses index.
Proof.
  unfold AssessmentModal.answered, modal_is_answered.
  destruct (responses !! AssessmentModal.questionKey index) as [r|]; [|reflexivity].
  destruct (Str.truthy r) eqn:Hr.
  - destruct (Str.trim r); reflexivity.
  - rewrite (trim_start_empty r Hr). reflexivity.
Qed.

Lemma count_answered_filter (responses : gmap string string)
    (qs : list Assessments.Question) (index : nat) :
  AssessmentModal.count_answered responses index qs
  = length (List.filter (modal_is_answered responses) (seq index (length qs))).
Proof.
  revert index. induction qs as [|q qs IH]; intros index; simpl; [reflexivity|].
  rewrite IH, answered_spec.
  destruct (modal_is_answered responses index); reflexivity.
Qed.

Lemma modal_answered_le (responses : gmap string string) (total : nat) :
  (modal_answered responses total <= total)%nat.
Proof.
  unfold modal_answered.
  etransitivity; [apply List.filter_length_le|]. rewrite length_seq. reflexivity.
Qed.

Lemma completion_rate_range (answered total : nat) :
  (0 < total)%nat → (answered <= total)%nat →
  0 <= completion_rate answered total <= 100.
Proof.
  intros Ht Ha. unfold completion_rate.
  pose proof (ratio_nonneg answered total Ht) as H0.
  pose proof (ratio_le_1 answered total Ht Ha) as H1.
  apply round_bounds.
  - change (inject_Z 0) with 0%Q. change (inject_Z 100) with 100%Q.
    unfold Qdiv in *. rewrite <- Qmult_assoc.
    set (r := (inject_Z (Z.of_nat answered) * / inject_Z (Z.of_nat total))%Q) in *. lra.
  - change (inject_Z 100) with 100%Q.
    unfold Qdiv in *. rewrite <- Qmult_assoc.
    set (r := (inject_Z (Z.of_nat answered) * / inject_Z (Z.of_nat total))%Q) in *. lra.
Qed.

(** *** binary64 rounding *)

(** The nearest integer is at most a half away. *)
Lemma nearest_even_spec (x : Q) :
  (x - (1 # 2) <= inject_Z (JS.nearest_even x) <= x + (1 # 2))%Q.
Proof.
  unfold JS.nearest_even.
  pose proof (Qfloor_le x) as Hlo. pose proof (Qlt_floor x) as Hhi.
  rewrite inject_Z_plus in Hhi. change (inject_Z 1) with 1%Q in Hhi.
  destruct (Qcompare_spec (x - inject_Z (Qfloor x)) (1 # 2)) as [E|E|E].
  - destruct (Z.even (Qfloor x)).
    + split; lra.
    + rewrite inject_Z_plus. change (inject_Z 1) with 1%Q. split; lra.
  - split; lra.
  - rewrite inject_Z_plus. change (inject_Z 1) with 1%Q. split; lra.
Qed.

Lemma pow2_pos (e : Z) : (0 < 2 ^ e)%Q.
Proof. apply Qpower_0_lt. reflexivity. Qed.

Lemma pow2_frac (a b : Z) :
  0 <= a → 0 <= b →
  (2 ^ (a - b) == (2 ^ a)%Z # Z.to_pos (2 ^ b)%Z)%Q.
Proof.
  intros Ha Hb. rewrite Qpower_minus by discriminate.
  rewrite (Qmake_Qdiv (2 ^ a)%Z), Z2Pos.id by (apply Z.pow_pos_nonneg; lia).
  rewrite !Zpower_Qpower by assumption. reflexivity.
Qed.

(** [ilog2 q] is the exponent of the power of two at or below [q]. *)
Lemma ilog2_spec (q : Q) :
  (0 < q)%Q → (2 ^ JS.ilog2 q <= q)%Q ∧ (q < 2 ^ (JS.ilog2 q + 1))%Q.
Proof.
  intros Hq. destruct q as [n d].
  assert (Hn : 0 < n).
  { unfold Qlt in Hq. cbn in Hq. lia. }
  unfold JS.ilog2. cbn [Qnum Qden].
  set (a := Z.log2 n). set (b := Z.log2 (Z.pos d)).
  assert (Ha0 : 0 <= a) by apply Z.log2_nonneg.
  assert (Hb0 : 0 <= b) by apply Z.log2_nonneg.
  destruct (Z.log2_spec n Hn) as [Ha1 Ha2]. fold a in Ha1, Ha2.
  destruct (Z.log2_spec (Z.pos d) (Pos2Z.is_pos d)) as [Hb1 Hb2]. fold b in Hb1, Hb2.
  assert (Hpa : 0 < 2 ^ a) by (apply Z.pow_pos_nonneg; lia).
  assert (Hpb : 0 < 2 ^ b) by (apply Z.pow_pos_nonneg; lia).
  rewrite Z.pow_succ_r in Ha2, Hb2 by assumption.
  assert (Hup : (n # d < 2 ^ (a - b + 1))%Q).
  { replace (a - b + 1) with ((a + 1) - b) by lia.
    rewrite pow2_frac by lia. unfold Qlt. cbn [Qnum Qden].
    rewrite Z2Pos.id by assumption. rewrite Z.pow_add_r by lia.
    change (2 ^ 1) with 2. nia. }
  assert (Hlow : (2 ^ (a - b - 1) <= n # d)%Q).
  { replace (a - b - 1) with (a - (b + 1)) by lia.
    rewrite pow2_frac by lia. unfold Qle. cbn [Qnum Qden].
    rewrite Z2Pos.id by (apply Z.pow_pos_nonneg; lia).
    rewrite Z.pow_add_r by lia. change (2 ^ 1) with 2. nia. }
  destruct (Qle_bool (2 ^ (a - b)) (n # d)) eqn:E.
  - apply Qle_bool_iff in E. split; assumption.
  - split; [exact Hlow|]. replace (a - b - 1 + 1) with (a - b) by lia.
    apply Qnot_le_lt. intros H. apply Qle_bool_iff in H. congruence.
Qed.

(** Above the subnormal numbers rounding moves a value by at most the unit
    roundoff, relatively. *)
Lemma round_pos_error (q : Q) :
  (2 ^ (-1022) <= q)%Q →
  (q - q * unit_roundoff <= JS.round_pos q <= q + q * unit_roundoff)%Q.
Proof.
  intros Hmin.
  assert (Hq : (0 < q)%Q).
  { eapply Qlt_le_trans; [apply (pow2_pos (-1022))|exact Hmin]. }
  destruct (ilog2_spec q Hq) as [Hlo Hhi].
  assert (Hl : -1022 <= JS.ilog2 q).
  { assert (H : -1022 < JS.ilog2 q + 1); [|lia].
    apply (Qpower_lt_compat_l_inv 2); [|reflexivity].
    eapply Qle_lt_trans; [exact Hmin|exact Hhi]. }
  unfold JS.round_pos. rewrite Z.max_l by lia.
  set (e := JS.ilog2 q - 52). rewrite Qred_correct.
  pose proof (pow2_pos e) as Hp.
  assert (Hpe : (2 ^ JS.ilog2 q == 2 ^ e * 2 ^ 52)%Q).
  { rewrite <- Qpower_plus by discriminate. unfold e.
    replace (JS.ilog2 q - 52 + 52) with (JS.ilog2 q) by lia. reflexivity. }
  rewrite Hpe in Hlo. clear Hpe Hhi.
  pose proof (nearest_even_spec (q / 2 ^ e)) as [Hm1 Hm2].
  set (m := inject_Z (JS.nearest_even (q / 2 ^ e))) in *.
  set (p := (2 ^ e)%Q) in *.
  assert (Hx : (q / p * p == q)%Q) by (field; lra).
  set (x := (q / p)%Q) in *.
  assert (H1 : ((x - (1 # 2)) * p <= m * p)%Q)
    by (apply Qmult_le_compat_r; lra).
  assert (H2 : (m * p <= (x + (1 # 2)) * p)%Q)
    by (apply Qmult_le_compat_r; lra).
  change (2 ^ 52)%Q with 4503599627370496%Q in Hlo.
  unfold unit_roundoff. split; lra.
Qed.

(** Rounding depends on the value only, not on the fraction that names it. *)
Lemma double_comp (q q' : Q) : (q == q')%Q → JS.double q = JS.double q'.
Proof.
  intros E. unfold JS.double. rewrite E.
  rewrite (Qred_complete q q' E).
  assert (E' : (- q == - q')%Q) by (rewrite E; reflexivity).
  rewrite (Qred_complete _ _ E'). reflexivity.
Qed.

(** In the normal range rounding is off by at most the unit roundoff,
    relatively. *)
Lemma double_error (q : Q) :
  (2 ^ (-1022) <= q)%Q → (q <= 2 ^ 1023)%Q →
  ∃ r, JS.double q = JS.Fin r
       ∧ (q - q * unit_roundoff <= r <= q + q * unit_roundoff)%Q.
Proof.
  intros Hmin Hmax.
  assert (Hq : (0 < q)%Q).
  { eapply Qlt_le_trans; [apply (pow2_pos (-1022))|exact Hmin]. }
  unfold JS.double.
  rewrite (proj1 (Qgt_alt q 0) Hq).
  pose proof (Qred_correct q) as Hred.
  assert (Hr : (q - q * unit_roundoff <= JS.round_pos (Qred q)
                <= q + q * unit_roundoff)%Q).
  { assert (Hmin' : (2 ^ (-1022) <= Qred q)%Q) by (rewrite Hred; exact Hmin).
    pose proof (round_pos_error (Qred q) Hmin') as Hr.
    unfold unit_roundoff in *. split; lra. }
  exists (JS.round_pos (Qred q)). split; [|exact Hr].
  assert (Hno : Qle_bool (2 ^ 1024) (JS.round_pos (Qred q)) = false).
  { destruct (Qle_bool _ _) eqn:E; [|reflexivity]. exfalso.
    apply Qle_bool_iff in E.
    assert (H2 : (2 ^ 1024 == 2 * 2 ^ 1023)%Q).
    { change 1024 with (1 + 1023). rewrite Qpower_plus by discriminate. reflexivity. }
    rewrite H2 in E. pose proof (pow2_pos 1023) as Hp.
    set (P := (2 ^ 1023)%Q) in *. unfold unit_roundoff in Hr. lra. }
  rewrite Hno. reflexivity.
Qed.

Lemma inject_Z_sub (x y : Z) : (inject_Z (x - y) == inject_Z x - inject_Z y)%Q.
Proof.
  unfold Z.sub. rewrite inject_Z_plus, inject_Z_opp. reflexivity.
Qed.

(** The floor is the integer at or below, less than one away. *)
Lemma Qfloor_unique (x : Q) (k : Z) :
  (inject_Z k <= x)%Q → (x < inject_Z k + 1)%Q → Qfloor x = k.
Proof.
  intros H1 H2.
  pose proof (Qfloor_le x) as Hlo. pose proof (Qlt_floor x) as Hhi.
  rewrite inject_Z_plus in Hhi. change (inject_Z 1) with 1%Q in Hhi.
  assert (A : (inject_Z k < inject_Z (Qfloor x) + 1)%Q) by lra.
  assert (B : (inject_Z (Qfloor x) < inject_Z k + 1)%Q) by lra.
  change 1%Q with (inject_Z 1) in A, B.
  rewrite <- inject_Z_plus, <- Zlt_Qlt in A, B. lia.
Qed.

(** With at least one answer and fewer than [2^32] questions the percentage
    of the code is the completion rate, or the integer below it when the exact
    percentage lies half way between two integers. *)
Lemma percentage_near (a t : nat) :
  (0 < a)%nat → (a <= t)%nat → Z.of_nat t < 2 ^ 32 →
  ∃ z, percentage a t = JS.of_Z z
       ∧ 0 <= z
       ∧ completion_rate a t - 1 <= z <= completion_rate a t
       ∧ ((200 * Z.of_nat a + Z.of_nat t) mod (2 * Z.of_nat t) ≠ 0 →
          z = completion_rate a t).
Proof.
  intros Ha Hat Ht.
  set (A := inject_Z (Z.of_nat a)). set (T := inject_Z (Z.of_nat t)).
  assert (HA : (1 <= A)%Q).
  { unfold A. change 1%Q with (inject_Z 1). rewrite <- Zle_Qle. lia. }
  assert (HAT : (A <= T)%Q) by (unfold A, T; rewrite <- Zle_Qle; lia).
  assert (HT : (T <= 4294967295)%Q).
  { unfold T. change 4294967295%Q with (inject_Z 4294967295).
    rewrite <- Zle_Qle. change (2 ^ 32) with 4294967296 in Ht. lia. }
  set (i := (/ T)%Q).
  assert (Hi : (T * i == 1)%Q) by (unfold i; field; lra).
  assert (Hi0 : (0 < i)%Q) by (apply Qinv_lt_0_compat; lra).
  assert (Hi1 : ((1 # 4294967295) <= i)%Q).
  { assert (H : (0 <= (4294967295 - T) * i)%Q)
      by (apply Qmult_le_0_compat; lra). lra. }
  assert (Hu0 : (A * i <= 1)%Q).
  { assert (H : (0 <= (T - A) * i)%Q) by (apply Qmult_le_0_compat; lra). lra. }
  assert (Hu1 : (i <= A * i)%Q).
  { assert (H : (0 <= (A - 1) * i)%Q) by (apply Qmult_le_0_compat; lra). lra. }
  set (v := (A * i)%Q) in *.
  assert (Hsmall : (2 ^ (-1022) <= 1 # 4294967296)%Q).
  { change (1 # 4294967296)%Q with (2 ^ (-32))%Q.
    apply Qpower_le_compat_l; [lia|]. discriminate. }
  assert (Hbig : (128 <= 2 ^ 1023)%Q).
  { change 128%Q with (2 ^ 7)%Q. apply Qpower_le_compat_l; [lia|]. discriminate. }
  (* the quotient *)
  assert (Hdiv : JS.div (JS.of_nat a) (JS.of_nat t) = JS.Fin (A / T)).
  { unfold JS.div, JS.of_nat, JS.of_Z. fold A T.
    rewrite (proj1 (Qgt_alt T 0)) by lra. reflexivity. }
  assert (Hv : (A / T == v)%Q) by reflexivity.
  destruct (double_error (A / T)) as (y & Hy & Hy1 & Hy2).
  { rewrite Hv. lra. }
  { rewrite Hv. lra. }
  rewrite Hv in Hy1, Hy2.
  (* the product *)
  destruct (double_error (y * inject_Z 100)) as (x & Hx & Hx1 & Hx2).
  { change (inject_Z 100) with 100%Q. unfold unit_roundoff in *. lra. }
  { change (inject_Z 100) with 100%Q. unfold unit_roundoff in *. lra. }
  change (inject_Z 100) with 100%Q in Hx1, Hx2.
  assert (Hp : percentage a t = JS.of_Z (Qfloor (x + (1 # 2)))).
  { unfold percentage, JS.div64, JS.mul64. rewrite Hdiv.
    cbn [JS.to_double]. rewrite Hy. cbn [JS.mul JS.of_Z JS.to_double].
    rewrite Hx. reflexivity. }
  (* the exact value, as a quotient and a remainder *)
  set (W := 200 * Z.of_nat a + Z.of_nat t).
  set (K := W / (2 * Z.of_nat t)). set (R := W mod (2 * Z.of_nat t)).
  assert (HW : W = 2 * Z.of_nat t * K + R) by (apply Z.div_mod; lia).
  assert (HR : 0 <= R < 2 * Z.of_nat t) by (apply Z.mod_pos_bound; lia).
  set (w := (inject_Z 100 * A / T + (1 # 2))%Q).
  assert (Hw : (w == 100 * v + (1 # 2))%Q).
  { unfold w, v, i. change (inject_Z 100) with 100%Q. field. lra. }
  assert (HwK : (w == inject_Z K + inject_Z R * i * (1 # 2))%Q).
  { assert (E : (inject_Z R == 200 * A + T - 2 * T * inject_Z K)%Q).
    { unfold A, T. replace R with (W - 2 * Z.of_nat t * K) by lia. unfold W.
      repeat (rewrite ?inject_Z_plus, ?inject_Z_sub, ?inject_Z_mult).
      change (inject_Z 200) with 200%Q. change (inject_Z 2) with 2%Q. ring. }
    rewrite E. unfold w, i. change (inject_Z 100) with 100%Q. field. lra. }
  assert (HR0 : (0 <= inject_Z R * i)%Q).
  { apply Qmult_le_0_compat; [|lra].
    change 0%Q with (inject_Z 0). rewrite <- Zle_Qle. lia. }
  assert (HR1 : (inject_Z R * i <= 2 - i)%Q).
  { assert (H : (0 <= (2 * T - 1 - inject_Z R) * i)%Q).
    { apply Qmult_le_0_compat; [|lra].
      unfold T. change 2%Q with (inject_Z 2). change 1%Q with (inject_Z 1).
      rewrite <- inject_Z_mult, <- !inject_Z_sub.
      change 0%Q with (inject_Z 0). rewrite <- Zle_Qle. lia. }
    lra. }
  assert (Hcr : completion_rate a t = Qfloor w) by reflexivity.
  clearbody w. clear Hsmall Hbig.
  assert (HK : Qfloor w = K) by (apply Qfloor_unique; lra).
  rewrite HK in Hcr. clear HK.
  exists (Qfloor (x + (1 # 2))). split; [exact Hp|]. rewrite Hcr.
  unfold unit_roundoff in *.
  split; [|split].
  - rewrite <- (Qfloor_Z 0). apply Qfloor_resp_le.
    change (inject_Z 0) with 0%Q. lra.
  - destruct (Qlt_le_dec (x + (1 # 2)) (inject_Z K)) as [Hlt|Hge].
    + rewrite (Qfloor_unique _ (K - 1)); [lia| |].
      * rewrite inject_Z_sub. change (inject_Z 1) with 1%Q. lra.
      * rewrite inject_Z_sub. change (inject_Z 1) with 1%Q. lra.
    + rewrite (Qfloor_unique _ K); [lia|exact Hge|lra].
  - intros Hne. fold W R in Hne.
    assert (HRi : (i <= inject_Z R * i)%Q).
    { assert (H : (0 <= (inject_Z R - 1) * i)%Q).
      { apply Qmult_le_0_compat; [|lra].
        change 1%Q with (inject_Z 1). rewrite <- inject_Z_sub.
        change 0%Q with (inject_Z 0). rewrite <- Zle_Qle. lia. }
      lra. }
    apply Qfloor_unique; lra.
Qed.

(** All answered is 100, whatever the number of questions. *)
Lemma percentage_all (t : nat) : (0 < t)%nat → percentage t t = JS.of_Z 100.
Proof.
  intros Ht. unfold percentage, JS.div64, JS.mul64.
  rewrite (div_of_nat_pos t t Ht). cbn [JS.to_double].
  assert (H : (0 < inject_Z (Z.of_nat t))%Q).
  { change 0%Q with (inject_Z 0). rewrite <- Zlt_Qlt. lia. }
  rewrite (double_comp _ 1) by (field; lra).
  vm_compute. reflexivity.
Qed.

(** None answered is 0. *)
Lemma percentage_none (t : nat) : (0 < t)%nat → percentage 0 t = JS.of_Z 0.
Proof.
  intros Ht. unfold percentage, JS.div64, JS.mul64.
  rewrite (div_of_nat_pos 0 t Ht). cbn [JS.to_double].
  assert (H : (0 < inject_Z (Z.of_nat t))%Q).
  { change 0%Q with (inject_Z 0). rewrite <- Zlt_Qlt. lia. }
  rewrite (double_comp _ 0) by (change (inject_Z (Z.of_nat 0)) with 0%Q; field; lra).
  vm_compute. reflexivity.
Qed.

(** The completion rate by integer division. *)
Lemma completion_rate_div (a t : nat) :
  (0 < t)%nat →
  completion_rate a t = (200 * Z.of_nat a + Z.of_nat t) / (2 * Z.of_nat t).
Proof.
  intros Ht. unfold completion_rate.
  assert (H : (0 < inject_Z (Z.of_nat t))%Q).
  { change 0%Q with (inject_Z 0). rewrite <- Zlt_Qlt. lia. }
  rewrite Zdiv_Qdiv. apply Qfloor_comp.
  rewrite inject_Z_plus, !inject_Z_mult.
  change (inject_Z 100) with 100%Q. change (inject_Z 200) with 200%Q.
  change (inject_Z 2) with 2%Q. field. lra.
Qed.

(** One more answer does not lower the completion rate, and raises it when
    the new percentage lies half way between two integers. *)
Lemma completion_rate_step (a t : nat) :
  (0 < t)%nat →
  completion_rate a t <= completion_rate (S a) t
  ∧ ((200 * Z.of_nat (S a) + Z.of_nat t) mod (2 * Z.of_nat t) = 0 →
     completion_rate a t < completion_rate (S a) t).
Proof.
  intros Ht. rewrite !completion_rate_div by exact Ht.
  set (d := 2 * Z.of_nat t). assert (Hd : 0 < d) by (unfold d; lia).
  split.
  - apply Z.div_le_mono; lia.
  - intros Hm. apply Z.div_lt_upper_bound; [exact Hd|].
    rewrite <- (Z.div_exact _ d) in Hm by lia. rewrite <- Hm. lia.
Qed.

(** The percentage of the code against the completion rate: for fewer than
    [2^32] questions, the length of an array, it is the completion rate, except
    that half way between two integers it may be the integer below. *)
Lemma percentage_spec (a t : nat) :
  (0 < t)%nat → (a <= t)%nat → Z.of_nat t < 2 ^ 32 →
  ∃ z, percentage a t = JS.of_Z z
       ∧ 0 <= z <= 100
       ∧ completion_rate a t - 1 <= z <= completion_rate a t
       ∧ (half_way a t = false → z = completion_rate a t).
Proof.
  intros Ht Hat Hb.
  pose proof (completion_rate_range a t Ht Hat) as Hcr.
  destruct a as [|a].
  - exists 0. rewrite (percentage_none t Ht).
    assert (E : completion_rate 0 t = 0).
    { rewrite completion_rate_div by exact Ht. apply Z.div_small. lia. }
    rewrite E. split; [reflexivity|]. split; [lia|]. split; [lia|]. reflexivity.
  - destruct (percentage_near (S a) t) as (z & Hz & H0 & Hnear & Htie);
      [lia|exact Hat|exact Hb|].
    exists z. split; [exact Hz|]. split; [lia|]. split; [exact Hnear|].
    intros Hh. apply Htie. unfold half_way in Hh. apply Z.eqb_neq in Hh. exact Hh.
Qed.

Lemma score_column_of_Z (z : Z) : Rls.score_column (JS.of_Z z) = Some z.
Proof.
  unfold Rls.score_column. cbn [JS.to_json JS.of_Z]. rewrite Qfloor_Z. reflexivity.
Qed.

(** What an accepted UPDATE leaves in the row. *)
Lemma update_by_id_stored (db : Db.store) (db_now : Z) (uid : option string)
    (id : string) (c : Rls.changes) (r : Assessments.row) :
  Db.assessments db !! id = Some r →
  Rls.can_update uid r = true →
  ∃ r', Db.assessments (Rls.update_by_id db db_now uid id c) !! id = Some r'
        ∧ Assessments.responses r' = Some (Rls.responses c)
        ∧ Assessments.score r' = Rls.score c
        ∧ Assessments.status r' = Rls.status c
        ∧ Assessments.updated_at r' = db_now.
Proof.
  intros Hr Hu. unfold Rls.update_by_id. rewrite Hr, Hu.
  cbn [Db.assessments Db.with_assessments]. rewrite lookup_insert_eq.
  eexists. split; [reflexivity|]. split_and!; reflexivity.
Qed.

Lemma calculateScore_percentage (st : AssessmentModal.state)
    (a : AssessmentModal.Assessment) :
  AssessmentModal.assessment st = Some a →
  (0 < length (AssessmentModal.questions a))%nat →
  AssessmentModal.calculateScore st
  = percentage
      (modal_answered (AssessmentModal.responses st)
         (length (AssessmentModal.questions a)))
      (length (AssessmentModal.questions a)).
Proof.
  intros Ha Hn. unfold AssessmentModal.calculateScore. rewrite Ha.
  apply Nat.ltb_lt in Hn as Hn'. rewrite Hn', count_answered_filter. reflexivity.
Qed.

(** The modal's submission stores the percentage of the questions that are
    answered, as [calculateScore] computes it. *)
Lemma modal_submission_stored (db : Db.store) (now db_now : Z) (user : option string)
    (assessmentId : string) (st : AssessmentModal.state)
    (a : AssessmentModal.Assessment) (r : Assessments.row) :
  AssessmentModal.assessment st = Some a →
  Db.assessments db !! assessmentId = Some r →
  Rls.can_update user r = true →
  (0 < length (AssessmentModal.questions a))%nat →
  let total := length (AssessmentModal.questions a) in
  ∃ r',
    Db.assessments
      (AssessmentModal.handleSubmit db now db_now user assessmentId st).1.1 !! assessmentId
    = Some r'
    ∧ Assessments.score r'
      = Rls.score_column
          (percentage (modal_answered (AssessmentModal.responses st) total) total)
    ∧ Assessments.responses r' = Some (AssessmentModal.responses st)
    ∧ Assessments.status r' = Assessments.completed.
Proof.
  intros Ha Hr Hu Hn total.
  unfold AssessmentModal.handleSubmit. rewrite Ha. cbn [fst].
  rewrite (calculateScore_percentage st a Ha Hn). fold total.
  destruct (update_by_id_stored db db_now user assessmentId
              {| Rls.responses := AssessmentModal.responses st;
                 Rls.score :=
                   Rls.score_column
                     (percentage (modal_answered (AssessmentModal.responses st) total)
                        total);
                 Rls.status := Assessments.completed;
                 Rls.updated_at := Some now |} r Hr Hu)
    as (r' & H1 & H2 & H3 & H4 & _).
  exists r'. split_and!; auto.
Qed.

(** For the modal the stored score is the completion rate or, half way
    between two integers, possibly the integer below. *)
Lemma modal_submission_score (db : Db.store) (now db_now : Z) (user : option string)
    (assessmentId : string) (st : AssessmentModal.state)
    (a : AssessmentModal.Assessment) (r : Assessments.row) :
  AssessmentModal.assessment st = Some a →
  Db.assessments db !! assessmentId = Some r →
  Rls.can_update user r = true →
  (0 < length (AssessmentModal.questions a))%nat →
  Z.of_nat (length (AssessmentModal.questions a)) < 2 ^ 32 →
  let total := length (AssessmentModal.questions a) in
  let answered := modal_answered (AssessmentModal.responses st) total in
  ∃ r' z,
    Db.assessments
      (AssessmentModal.handleSubmit db now db_now user assessmentId st).1.1 !! assessmentId
    = Some r'
    ∧ Assessments.score r' = Some z
    ∧ Assessments.responses r' = Some (AssessmentModal.responses st)
    ∧ Assessments.status r' = Assessments.completed
    ∧ 0 <= z <= 100
    ∧ completion_rate answered total - 1 <= z <= completion_rate answered total
    ∧ (half_way answered total = false → z = completion_rate answered total).
Proof.
  intros Ha Hr Hu Hn Hb total answered.
  destruct (modal_submission_stored db now db_now user assessmentId st a r Ha Hr Hu Hn)
    as (r' & H1 & H2 & H3 & H4).
  destruct (percentage_spec answered total Hn (modal_answered_le _ _) Hb)
    as (z & Hz & Hrange & Hnear & Htie).
  fold total answered in H2. rewrite Hz, score_column_of_Z in H2.
  exists r', z. split_and!; auto; lia.
Qed.

(** With no question at all the modal stores the score 0: the quotient is
    not formed. *)
Lemma modal_submission_no_questions (db : Db.store) (now db_now : Z)
    (user : option string) (assessmentId : string) (st : AssessmentModal.state)
    (a : AssessmentModal.Assessment) (r : Assessments.row) :
  AssessmentModal.assessment st = Some a →
  AssessmentModal.questions a = [] →
  Db.assessments db !! assessmentId = Some r →
  Rls.can_update user r = true →
  ∃ r',
    Db.assessments
      (AssessmentModal.handleSubmit db now db_now user assessmentId st).1.1 !! assessmentId
    = Some r'
    ∧ Assessments.score r' = Some 0.
Proof.
  intros Ha Hq Hr Hu.
  unfold AssessmentModal.handleSubmit, AssessmentModal.calculateScore.
  rewrite Ha, Hq. cbn [fst length Nat.ltb Nat.leb].
  rewrite score_column_of_Z.
  destruct (update_by_id_stored db db_now user assessmentId
              {| Rls.responses := AssessmentModal.responses st;
                 Rls.score := Some 0;
                 Rls.status := Assessments.completed;
                 Rls.updated_at := Some now |} r Hr Hu)
    as (r' & H1 & _ & H3 & _).
  exists r'. split; assumption.
Qed.

(** Distinct questions of the page have distinct keys. *)
Lemma questionKey_inj (s s' : AssessmentPage.section_t) (i i' : Z) :
  AssessmentPage.questionKey s i = AssessmentPage.questionKey s' i' → s = s' ∧ i = i'.
Proof.
  unfold AssessmentPage.questionKey. destruct s, s'; simpl; intros H;
    try discriminate; injection H as H; split; try reflexivity;
    exact (pretty_Z_inj _ _ H).
Qed.

Lemma page_bucket_keys_NoDup (q : Assessments.questions_t) (s : AssessmentPage.section_t) :
  NoDup (page_bucket_keys q s).
Proof.
  unfold page_bucket_keys. apply NoDup_fmap_2; [|apply NoDup_seq].
  intros i i' H. apply questionKey_inj in H as [_ H]. lia.
Qed.

Lemma page_question_keys_NoDup (q : Assessments.questions_t) :
  NoDup (page_question_keys q).
Proof.
  unfold page_question_keys. apply NoDup_app. split_and!.
  - apply page_bucket_keys_NoDup.
  - intros k Hw Ht. unfold page_bucket_keys in Hw, Ht.
    apply list_elem_of_fmap in Hw as (i & -> & _).
    apply list_elem_of_fmap in Ht as (i' & H & _).
    apply questionKey_inj in H as [H _]. discriminate.
  - apply page_bucket_keys_NoDup.
Qed.

Lemma page_question_keys_length (q : Assessments.questions_t) :
  length (page_question_keys q)
  = (AssessmentPage.length_or_0 (AssessmentPage.property q AssessmentPage.work_ethics)
     + AssessmentPage.length_or_0 (AssessmentPage.property q AssessmentPage.technical))%nat.
Proof.
  unfold page_question_keys, page_bucket_keys.
  rewrite length_app, !length_fmap, !length_seq. reflexivity.
Qed.

(** The key of a question that is on display is a question key. *)
Lemma current_key_is_question_key (a : AssessmentPage.Assessment)
    (st : AssessmentPage.state) (q : Assessments.Question) :
  AssessmentPage.assessment st = Some a →
  AssessmentPage.currentQuestion st = Some q →
  AssessmentPage.questionKey (AssessmentPage.currentSection st)
    (AssessmentPage.currentQuestionIndex st)
  ∈ page_question_keys (AssessmentPage.questions a).
Proof.
  intros Ha Hq.
  unfold AssessmentPage.currentQuestion, AssessmentPage.getCurrentQuestions in Hq.
  rewrite Ha in Hq.
  destruct (AssessmentPage.is_null (AssessmentPage.questions a)); [discriminate|].
  cbn [mbind option_bind] in Hq. unfold AssessmentPage.at_index in Hq.
  destruct (Z.ltb_spec (AssessmentPage.currentQuestionIndex st) 0) as [|Hi];
    [discriminate|].
  apply lookup_lt_Some in Hq.
  assert (Hlen : (Z.to_nat (AssessmentPage.currentQuestionIndex st)
                  < AssessmentPage.length_or_0
                      (AssessmentPage.property (AssessmentPage.questions a)
                         (AssessmentPage.currentSection st)))%nat).
  { destruct (AssessmentPage.property _ _); simpl in *; lia. }
  assert (Hk : AssessmentPage.questionKey (AssessmentPage.currentSection st)
                 (AssessmentPage.currentQuestionIndex st)
               ∈ page_bucket_keys (AssessmentPage.questions a)
                   (AssessmentPage.currentSection st)).
  { unfold page_bucket_keys. apply list_elem_of_fmap.
    exists (Z.to_nat (AssessmentPage.currentQuestionIndex st)). split.
    - rewrite Z2Nat.id by lia. reflexivity.
    - apply elem_of_seq. lia. }
  unfold page_question_keys. apply elem_of_app.
  destruct (AssessmentPage.currentSection st); [left|right]; exact Hk.
Qed.

(** Navigation and submission leave the loaded assessment and the answers. *)
Lemma handleNext_answers (db : Db.store) (db_now : Z) (user : option string)
    (assessmentId : string) (st : AssessmentPage.state) :
  let st' := (AssessmentPage.handleNext db db_now user assessmentId st).1.2 in
  AssessmentPage.assessment st' = AssessmentPage.assessment st
  ∧ AssessmentPage.answers st' = AssessmentPage.answers st.
Proof.
  unfold AssessmentPage.handleNext, AssessmentPage.handleSubmit.
  destruct (AssessmentPage.getCurrentQuestions st); [|split; reflexivity].
  destruct (_ <? _); [split; reflexivity|].
  destruct (AssessmentPage.currentSection st); [split; reflexivity|].
  destruct (AssessmentPage.getTotalQuestions st); split; reflexivity.
Qed.

Lemma handlePrevious_answers (st : AssessmentPage.state) :
  AssessmentPage.assessment (AssessmentPage.handlePrevious st)
  = AssessmentPage.assessment st
  ∧ AssessmentPage.answers (AssessmentPage.handlePrevious st)
    = AssessmentPage.answers st.
Proof.
  unfold AssessmentPage.handlePrevious.
  destruct (_ <? _); [split; reflexivity|].
  destruct (AssessmentPage.currentSection st); split; reflexivity.
Qed.

(** The invariant of the page: by induction on the events. *)
Lemma page_reachable_inv (db_now : Z) (user : option string) (assessmentId : string)
    (a : AssessmentPage.Assessment) (s : Db.store * AssessmentPage.state) :
  AssessmentPage.reachable db_now user assessmentId a s → page_inv a (snd s).
Proof.
  induction 1 as [db|[db st] e Hreach [IHa IHk] Hen].
  - split; [reflexivity|]. intros k [v Hv]. cbn in Hv.
    rewrite lookup_empty in Hv. discriminate.
  - cbn [snd] in *. destruct e as [value| |]; cbn [AssessmentPage.handle snd].
    + split; [exact IHa|]. intros k Hk. cbn [AssessmentPage.handleAnswerChange
        AssessmentPage.answers] in Hk.
      destruct (decide (AssessmentPage.questionKey (AssessmentPage.currentSection st)
                          (AssessmentPage.currentQuestionIndex st) = k)) as [<-|Hne].
      * unfold AssessmentPage.enabled in Hen. apply andb_true_iff in Hen as [_ Hen].
        destruct (AssessmentPage.currentQuestion st) as [q|] eqn:Hq; [|discriminate].
        exact (current_key_is_question_key a st q IHa Hq).
      * rewrite lookup_insert_ne in Hk by exact Hne. apply IHk. exact Hk.
    + destruct (handleNext_answers db db_now user assessmentId st) as [Ea Ek].
      cbv zeta in Ea, Ek. split; [rewrite Ea; exact IHa|]. rewrite Ek. exact IHk.
    + destruct (handlePrevious_answers st) as [Ea Ek].
      split; [rewrite Ea; exact IHa|]. rewrite Ek. exact IHk.
Qed.

(** Under the invariant, [Object.keys(answers).length] counts the answered
    questions. *)
Lemma page_completed_is_answered (a : AssessmentPage.Assessment)
    (st : AssessmentPage.state) :
  page_inv a st →
  AssessmentPage.getCompletedQuestions st
  = page_answered (AssessmentPage.answers st) (AssessmentPage.questions a).
Proof.
  intros [_ Hk]. unfold AssessmentPage.getCompletedQuestions, page_answered.
  rewrite <- size_dom.
  assert (E : dom (AssessmentPage.answers st)
              = list_to_set (filter (fun k => is_Some (AssessmentPage.answers st !! k))
                               (page_question_keys (AssessmentPage.questions a)))).
  { apply set_eq. intros k.
    rewrite elem_of_dom, elem_of_list_to_set, list_elem_of_filter.
    split; [intros Hs; split; [exact Hs|apply Hk, Hs]|intros [Hs _]; exact Hs]. }
  rewrite E. apply size_list_to_set, NoDup_filter, page_question_keys_NoDup.
Qed.

Lemma page_answered_le (answers : gmap string string) (q : Assessments.questions_t) :
  (page_answered answers q <= length (page_question_keys q))%nat.
Proof. unfold page_answered. apply length_filter. Qed.

(** The page's submission stores the percentage of the questions whose key
    is present in the answers. *)
Lemma page_submission_score (db0 db : Db.store) (t0 db_now : Z) (user : option string)
    (assessmentId : string) (a : AssessmentPage.Assessment)
    (st : AssessmentPage.state) (r : Assessments.row) :
  AssessmentPage.reachable t0 user assessmentId a (db0, st) →
  Db.assessments db !! assessmentId = Some r →
  Rls.can_update user r = true →
  (0 < length (page_question_keys (AssessmentPage.questions a)))%nat →
  let total := length (page_question_keys (AssessmentPage.questions a)) in
  let answered :=
    page_answered (AssessmentPage.answers st) (AssessmentPage.questions a) in
  ∃ r',
    Db.assessments
      (AssessmentPage.handleSubmit db db_now user assessmentId st).1.1 !! assessmentId
    = Some r'
    ∧ Assessments.score r' = Rls.score_column (percentage answered total)
    ∧ Assessments.responses r' = Some (AssessmentPage.answers st)
    ∧ Assessments.status r' = Assessments.completed.
Proof.
  intros Hreach Hr Hu Hn total answered.
  pose proof (page_reachable_inv _ _ _ _ _ Hreach) as Hinv. cbn [snd] in Hinv.
  pose proof (page_completed_is_answered a st Hinv) as Hc.
  destruct Hinv as [Ha _].
  assert (Ht : AssessmentPage.getTotalQuestions st = Some total).
  { unfold AssessmentPage.getTotalQuestions. rewrite Ha.
    destruct (AssessmentPage.is_null (AssessmentPage.questions a)) eqn:Hnull.
    - destruct (AssessmentPage.questions a); try discriminate.
      cbn in Hn. lia.
    - unfold total. rewrite page_question_keys_length. reflexivity. }
  unfold AssessmentPage.handleSubmit. rewrite Ht, Hc. cbn [fst].
  fold answered. fold (percentage answered total).
  destruct (update_by_id_stored db db_now user assessmentId
              {| Rls.responses := AssessmentPage.answers st;
                 Rls.score := Rls.score_column (percentage answered total);
                 Rls.status := Assessments.completed;
                 Rls.updated_at := None |} r Hr Hu)
    as (r' & H1 & H2 & H3 & H4 & _).
  exists r'. split_and!; auto.
Qed.

(** On the page, in every state the applicant can reach, the score that a
    submission stores is the completion rate or, half way between two
    integers, possibly the integer below. *)
Lemma page_submission_near (db0 db : Db.store) (t0 db_now : Z) (user : option string)
    (assessmentId : string) (a : AssessmentPage.Assessment)
    (st : AssessmentPage.state) (r : Assessments.row) :
  AssessmentPage.reachable t0 user assessmentId a (db0, st) →
  Db.assessments db !! assessmentId = Some r →
  Rls.can_update user r = true →
  (0 < length (page_question_keys (AssessmentPage.questions a)))%nat →
  Z.of_nat (length (page_question_keys (AssessmentPage.questions a))) < 2 ^ 32 →
  let total := length (page_question_keys (AssessmentPage.questions a)) in
  let answered :=
    page_answered (AssessmentPage.answers st) (AssessmentPage.questions a) in
  ∃ r' z,
    Db.assessments
      (AssessmentPage.handleSubmit db db_now user assessmentId st).1.1 !! assessmentId
    = Some r'
    ∧ Assessments.score r' = Some z
    ∧ Assessments.responses r' = Some (AssessmentPage.answers st)
    ∧ Assessments.status r' = Assessments.completed
    ∧ 0 <= z <= 100
    ∧ completion_rate answered total - 1 <= z <= completion_rate answered total
    ∧ (half_way answered total = false → z = completion_rate answered total).
Proof.
  intros Hreach Hr Hu Hn Hb total answered.
  destruct (page_submission_score db0 db t0 db_now user assessmentId a st r
              Hreach Hr Hu Hn) as (r' & H1 & H2 & H3 & H4).
  destruct (percentage_spec answered total Hn (page_answered_le _ _) Hb)
    as (z & Hz & Hrange & Hnear & Htie).
  fold total answered in H2. rewrite Hz, score_column_of_Z in H2.
  exists r', z. split_and!; auto; lia.
Qed.

(** C7. The stored score is not always the completion rate. An assessment
    of forty questions is generated, the applicant loads it in the modal,
    answers twenty-three questions and submits: the submission is accepted,
    the record is 'completed' with the twenty-three responses, the completion
    rate round(100 × 23 ÷ 40) is 58, and the stored score is 57. The quotient
    [23 / 40] and its product with [100] are formed in binary64, and the
    product falls just below 57.5. *)
Theorem C7_modal_23_of_40_stores_57 :
  length (AssessmentModal.questionsArray Scenario.forty) = 40%nat
  ∧ AssessmentModal.questions <$> AssessmentModal.assessment Scenario.tab_40_answered
    = Some (AssessmentModal.questionsArray Scenario.forty)
  ∧ modal_answered (AssessmentModal.responses Scenario.tab_40_answered) 40 = 23%nat
  ∧ completion_rate 23 40 = 58
  ∧ AssessmentModal.calculateScore Scenario.tab_40_answered = JS.of_Z 57
  ∧ Assessments.score <$> stored Scenario.submitted_40 "assessment-40" = Some (Some 57)
  ∧ Assessments.status <$> stored Scenario.submitted_40 "assessment-40"
    = Some Assessments.completed
  ∧ size <$> (stored Scenario.submitted_40 "assessment-40" ≫= Assessments.responses)
    = Some 23%nat.
Proof.
  split_and!; vm_compute; reflexivity.
Qed.

(** A run of enabled events from a reachable state ends in a reachable
    state. *)
Lemma run_reachable (db_now : Z) (user : option string) (assessmentId : string)
    (a : AssessmentPage.Assessment) (es : list AssessmentPage.event)
    (s : Db.store * AssessmentPage.state) :
  AssessmentPage.reachable db_now user assessmentId a s →
  AssessmentPage.run_enabled db_now user assessmentId es s = true →
  AssessmentPage.reachable db_now user assessmentId a
    (AssessmentPage.run db_now user assessmentId es s).
Proof.
  revert s. induction es as [|e es IH]; intros s Hs Hen; [exact Hs|].
  cbn in Hen. apply andb_true_iff in Hen as [He Hes].
  apply IH; [|exact Hes]. apply AssessmentPage.reach_step; assumption.
Qed.

(** The applicant reaches the page state with three answers. *)
Lemma scenario_page_reachable :
  AssessmentPage.reachable (Scenario.t0 + 60000) Scenario.applicant "assessment-1"
    Scenario.in_page
    (fst (Scenario.page_run (Scenario.t0 + 60000) (take 6 Scenario.page_events)
            (Scenario.generated, Scenario.page_tab)),
     Scenario.page_three_answered).
Proof.
  unfold Scenario.page_three_answered. rewrite <- surjective_pairing.
  apply run_reachable.
  - assert (E : Scenario.page_tab
                = {| AssessmentPage.assessment := Some Scenario.in_page;
                     AssessmentPage.currentSection := AssessmentPage.work_ethics;
                     AssessmentPage.currentQuestionIndex := 0;
                     AssessmentPage.answers := ∅;
                     AssessmentPage.route := None |}) by (vm_compute; reflexivity).
    rewrite E. apply AssessmentPage.reach_loaded.
  - vm_compute. reflexivity.
Qed.


(** *** Completed and expired assessments *)

(** Without a loaded assessment the modal's submission does nothing. *)
Lemma modal_handleSubmit_unloaded (db : Db.store) (now db_now : Z) (user : option string)
    (assessmentId : string) (st : AssessmentModal.state) :
  AssessmentModal.assessment st = None →
  AssessmentModal.handleSubmit db now db_now user assessmentId st = (db, st, None).
Proof. unfold AssessmentModal.handleSubmit. intros ->. reflexivity. Qed.

(** Without a loaded assessment the page offers no event. *)
Lemma page_unloaded_disabled (st : AssessmentPage.state) (e : AssessmentPage.event) :
  AssessmentPage.assessment st = None → AssessmentPage.enabled st e = false.
Proof.
  intros H. unfold AssessmentPage.enabled, AssessmentPage.rendered. rewrite H.
  reflexivity.
Qed.

(** C2, as the code has it. The status is examined when an assessment is
    loaded, not when it is submitted. Loading an assessment whose stored
    status is 'completed' is refused by both front ends: a notice is shown
    (for the applicant "Assessment already completed" in the modal; on the
    page "This assessment has already been completed", unless the assessment
    is also past its expiry), no assessment is put in the component, the
    modal closes and the page leaves for "/". From there the modal's
    submission writes nothing and the page offers no event. The loading does
    not write to the store. *)
Theorem C2_completed_refused_on_load
    (JSON_parse : string → option Assessments.questions_t)
    (db : Db.store) (now : Z) (user : option string) (assessmentId : string)
    (r : Assessments.row) (modal : AssessmentModal.state) (page : AssessmentPage.state) :
  Db.assessments db !! assessmentId = Some r →
  Assessments.status r = Assessments.completed →
  AssessmentModal.assessment modal = None →
  AssessmentPage.assessment page = None →
  let m := AssessmentModal.fetchAssessment JSON_parse db now user assessmentId modal in
  let p := AssessmentPage.fetchAssessment JSON_parse db now user assessmentId page in
  (is_Some (snd m)
   ∧ (Rls.is_applicant user r = true → snd m = Some "Assessment already completed")
   ∧ AssessmentModal.assessment (fst m) = None
   ∧ AssessmentModal.isOpen (fst m) = false
   ∧ (∀ now' db_now,
        AssessmentModal.handleSubmit db now' db_now user assessmentId (fst m)
        = (db, fst m, None)))
  ∧ (is_Some (snd p)
     ∧ (Rls.can_select db user r = true → now <= Assessments.expires_at r →
        snd p = Some "This assessment has already been completed")
     ∧ AssessmentPage.assessment (fst p) = None
     ∧ AssessmentPage.route (fst p) = Some "/"
     ∧ (∀ e, AssessmentPage.enabled (fst p) e = false)).
Proof.
  intros Hr Hs Hm Hp. cbv zeta.
  unfold AssessmentModal.fetchAssessment, AssessmentPage.fetchAssessment,
    Rls.select_by_id.
  rewrite Hr. split.
  - assert (Ha : AssessmentModal.assessment (AssessmentModal.onClose modal) = None)
      by exact Hm.
    unfold Rls.can_select.
    destruct (Rls.is_recruiter db user r), (Rls.is_applicant user r) eqn:Happ;
      cbn [orb]; cbv iota beta; rewrite ?Happ, ?Hs; cbn [fst snd];
      (split_and!; [eauto|try discriminate; reflexivity|exact Ha
        |reflexivity|intros; apply modal_handleSubmit_unloaded; exact Ha]).
  - assert (Ha : AssessmentPage.assessment (AssessmentPage.navigate "/" page) = None)
      by exact Hp.
    destruct (Rls.can_select db user r); cbn [fst snd].
    + destruct (Z.ltb_spec (Assessments.expires_at r) now); rewrite ?Hs; cbn [fst snd];
        (split_and!; [eauto|intros; try lia; reflexivity|exact Ha|reflexivity
          |intros; apply page_unloaded_disabled; exact Ha]).
    + split_and!; [eauto|discriminate|exact Ha|reflexivity
        |intros; apply page_unloaded_disabled; exact Ha].
Qed.

(** C2 on the default assessment after the first submission. *)
Lemma C2_completed_refused_on_load_witness :
  snd (AssessmentModal.fetchAssessment Scenario.no_parse Scenario.submitted_once
         (Scenario.t0 + 120000) Scenario.applicant "assessment-1" AssessmentModal.opened)
  = Some "Assessment already completed"
  ∧ snd (AssessmentPage.fetchAssessment Scenario.no_parse Scenario.submitted_once
           (Scenario.t0 + 120000) Scenario.applicant "assessment-1"
           AssessmentPage.mounted)
    = Some "This assessment has already been completed".
Proof.
  destruct (C2_completed_refused_on_load Scenario.no_parse Scenario.submitted_once
              (Scenario.t0 + 120000) Scenario.applicant "assessment-1"
              Scenario.completed_row AssessmentModal.opened AssessmentPage.mounted)
    as [(_ & Hm & _) (_ & Hp & _)].
  - vm_compute. reflexivity.
  - vm_compute. reflexivity.
  - reflexivity.
  - reflexivity.
  - split.
    + apply Hm. vm_compute. reflexivity.
    + apply Hp; [vm_compute; reflexivity|vm_compute; discriminate].
Defined.

(** C2, as stated, fails. The applicant has the assessment open in two
    tabs, both loaded while the status was 'sent'. The first tab submits: the
    stored status is 'completed' and the score 100. The second tab then
    submits one answer: the submission is accepted with the success notice and
    the stored record now has that tab's responses and the score 25. On the
    page, the second tab's submission replaces the stored responses too. *)
Lemma C2_second_submission_accepted :
  let db1 := Scenario.submitted_once in
  let second :=
    AssessmentModal.handleSubmit db1 (Scenario.t0 + 120000) (Scenario.t0 + 120000)
      Scenario.applicant "assessment-1" Scenario.tab_2_answered in
  let page1 := Scenario.page_submitted_once in
  let page2 :=
    fst (Scenario.page_run (Scenario.t0 + 120000) Scenario.page_events_2
           (page1, Scenario.page_tab)) in
  (fmap Assessments.status (stored db1 "assessment-1") = Some Assessments.completed
   ∧ fmap Assessments.score (stored db1 "assessment-1") = Some (Some 100)
   ∧ snd second
     = Some "Assessment submitted successfully! The recruiter will review your responses."
   ∧ fmap Assessments.score (stored (fst (fst second)) "assessment-1") = Some (Some 25)
   ∧ stored (fst (fst second)) "assessment-1" ≠ stored db1 "assessment-1")
  ∧ (fmap Assessments.status (stored page1 "assessment-1") = Some Assessments.completed
     ∧ AssessmentPage.run_enabled (Scenario.t0 + 120000) Scenario.applicant
         "assessment-1" Scenario.page_events_2 (page1, Scenario.page_tab) = true
     ∧ stored_answer page1 "assessment-1" "technical_1" = Some "Research first"
     ∧ stored_answer page2 "assessment-1" "technical_1" = Some "Trial and error"
     ∧ stored page2 "assessment-1" ≠ stored page1 "assessment-1").
Proof.
  cbv zeta. split; split_and!; try (vm_compute; reflexivity).
  - intros H. apply (f_equal (fmap Assessments.score)) in H.
    vm_compute in H. discriminate.
  - intros H.
    assert (E : stored_answer
                  (fst (Scenario.page_run (Scenario.t0 + 120000) Scenario.page_events_2
                          (Scenario.page_submitted_once, Scenario.page_tab)))
                  "assessment-1" "technical_1"
                = stored_answer Scenario.page_submitted_once "assessment-1" "technical_1").
    { unfold stored_answer. rewrite H. reflexivity. }
    vm_compute in E. discriminate.
Qed.

(** C3, as the code has it. The clock is compared with [expires_at] when
    an assessment is loaded, not when it is submitted. Loading at a time later
    than [expires_at] is refused by both front ends: a notice is shown (for
    the applicant "Assessment has expired" in the modal, unless the assessment
    is already completed; "This assessment has expired" on the page), no
    assessment is put in the component, the modal closes and the page leaves
    for "/". From there the modal's submission writes nothing, whatever the
    responses, and the page offers no event. *)
Theorem C3_expired_refused_on_load
    (JSON_parse : string → option Assessments.questions_t)
    (db : Db.store) (now : Z) (user : option string) (assessmentId : string)
    (r : Assessments.row) (modal : AssessmentModal.state) (page : AssessmentPage.state) :
  Db.assessments db !! assessmentId = Some r →
  Assessments.expires_at r < now →
  AssessmentModal.assessment modal = None →
  AssessmentPage.assessment page = None →
  let m := AssessmentModal.fetchAssessment JSON_parse db now user assessmentId modal in
  let p := AssessmentPage.fetchAssessment JSON_parse db now user assessmentId page in
  (is_Some (snd m)
   ∧ (Rls.is_applicant user r = true →
      Assessments.status r ≠ Assessments.completed →
      snd m = Some "Assessment has expired")
   ∧ AssessmentModal.assessment (fst m) = None
   ∧ AssessmentModal.isOpen (fst m) = false
   ∧ (∀ now' db_now,
        AssessmentModal.handleSubmit db now' db_now user assessmentId (fst m)
        = (db, fst m, None)))
  ∧ (is_Some (snd p)
     ∧ (Rls.can_select db user r = true → snd p = Some "This assessment has expired")
     ∧ AssessmentPage.assessment (fst p) = None
     ∧ AssessmentPage.route (fst p) = Some "/"
     ∧ (∀ e, AssessmentPage.enabled (fst p) e = false)).
Proof.
  intros Hr He Hm Hp. cbv zeta.
  apply Z.ltb_lt in He.
  unfold AssessmentModal.fetchAssessment, AssessmentPage.fetchAssessment,
    Rls.select_by_id.
  rewrite Hr. split.
  - assert (Ha : AssessmentModal.assessment (AssessmentModal.onClose modal) = None)
      by exact Hm.
    unfold Rls.can_select.
    destruct (Rls.is_recruiter db user r), (Rls.is_applicant user r) eqn:Happ;
      cbn [orb]; cbv iota beta; rewrite ?Happ, ?He;
      destruct (Assessments.status r); cbn [fst snd];
      (split_and!; [eauto|try discriminate; try reflexivity; intros; congruence
        |exact Ha|reflexivity|intros; apply modal_handleSubmit_unloaded; exact Ha]).
  - assert (Ha : AssessmentPage.assessment (AssessmentPage.navigate "/" page) = None)
      by exact Hp.
    destruct (Rls.can_select db user r); rewrite ?He; cbn [fst snd];
      (split_and!; [eauto|try discriminate; reflexivity|exact Ha|reflexivity
        |intros; apply page_unloaded_disabled; exact Ha]).
Qed.

(** C3 on the default assessment, one second after its expiry. *)
Lemma C3_expired_refused_on_load_witness :
  snd (AssessmentModal.fetchAssessment Scenario.no_parse Scenario.generated
         Scenario.too_late Scenario.applicant "assessment-1" AssessmentModal.opened)
  = Some "Assessment has expired"
  ∧ snd (AssessmentPage.fetchAssessment Scenario.no_parse Scenario.generated
           Scenario.too_late Scenario.applicant "assessment-1" AssessmentPage.mounted)
    = Some "This assessment has expired".
Proof.
  destruct (C3_expired_refused_on_load Scenario.no_parse Scenario.generated
              Scenario.too_late Scenario.applicant "assessment-1"
              Scenario.generated_row AssessmentModal.opened AssessmentPage.mounted)
    as [(_ & Hm & _) (_ & Hp & _)].
  - vm_compute. reflexivity.
  - vm_compute. reflexivity.
  - reflexivity.
  - reflexivity.
  - split.
    + apply Hm; [vm_compute; reflexivity|discriminate].
    + apply Hp. vm_compute. reflexivity.
Defined.

(** C3, as stated, fails. The applicant loads the assessment one second
    after it was generated and submits one second after the seven days are
    over: the stored [expires_at] lies before the time of the submission, the
    submission is accepted with the success notice, and the stored record
    turns from 'sent' to 'completed' with the responses and the score 100.
    The same happens on the page. *)
Lemma C3_late_submission_accepted :
  let late :=
    AssessmentModal.handleSubmit Scenario.generated Scenario.too_late Scenario.too_late
      Scenario.applicant "assessment-1" Scenario.tab_1_answered in
  let page_late :=
    fst (Scenario.page_run Scenario.too_late Scenario.page_events
           (Scenario.generated, Scenario.page_tab)) in
  (fmap Assessments.expires_at (stored Scenario.generated "assessment-1")
   = Some (Scenario.too_late - 1000)
   ∧ fmap Assessments.status (stored Scenario.generated "assessment-1")
     = Some Assessments.sent)
  ∧ (snd late
     = Some "Assessment submitted successfully! The recruiter will review your responses."
     ∧ fmap Assessments.status (stored (fst (fst late)) "assessment-1")
       = Some Assessments.completed
     ∧ fmap Assessments.score (stored (fst (fst late)) "assessment-1")
       = Some (Some 100)
     ∧ fmap Assessments.updated_at (stored (fst (fst late)) "assessment-1")
       = Some Scenario.too_late
     ∧ stored (fst (fst late)) "assessment-1" ≠ stored Scenario.generated "assessment-1")
  ∧ (AssessmentPage.run_enabled Scenario.too_late Scenario.applicant "assessment-1"
       Scenario.page_events (Scenario.generated, Scenario.page_tab) = true
     ∧ fmap Assessments.status (stored page_late "assessment-1")
       = Some Assessments.completed
     ∧ fmap Assessments.updated_at (stored page_late "assessment-1")
       = Some Scenario.too_late
     ∧ stored page_late "assessment-1" ≠ stored Scenario.generated "assessment-1").
Proof.
  cbv zeta. split_and!; try (vm_compute; reflexivity).
  - intros H. apply (f_equal (fmap Assessments.status)) in H.
    vm_compute in H. discriminate.
  - intros H. apply (f_equal (fmap Assessments.status)) in H.
    vm_compute in H. discriminate.
Qed.

(** * Further properties of the code *)

(** ** The [ai-analysis] edge function *)

Lemma as_int_of_Z (z : Z) : JS.as_int (JS.of_Z z) = Some z.
Proof.
  unfold JS.as_int, JS.of_Z. rewrite Qfloor_Z.
  assert (E : Qeq_bool (inject_Z z) (inject_Z z) = true) by (apply Qeq_bool_iff; reflexivity).
  rewrite E. reflexivity.
Qed.

Lemma match_score_column_of_Z (z : Z) :
  AiMatchScores.match_score_column (JS.of_Z z)
  = if (0 <=? z) && (z <=? 100) then Some z else None.
Proof.
  unfold AiMatchScores.match_score_column.
  change (JS.to_json (JS.of_Z z)) with (Some (inject_Z z)).
  cbv iota beta. rewrite as_int_of_Z. reflexivity.
Qed.

(** The skill term either breaks the score or leaves it at 60 or more. *)
Lemma skills_term_dichotomy (profile : option ApplicantProfiles.row)
    (job : option Jobs.row) :
  AiAnalysis.skills_term profile job (JS.of_Z 60) = JS.NaN
  ∨ ∃ q, AiAnalysis.skills_term profile job (JS.of_Z 60) = JS.Fin q
         ∧ (inject_Z 60 <= q)%Q.
Proof.
  destruct job as [j|].
  - destruct (Jobs.skills_required j) as [[|r rs]|] eqn:Hj.
    + destruct profile as [p|].
      * destruct (ApplicantProfiles.skills p) as [ss|] eqn:Hp.
        -- left. exact (skills_term_empty_requirements p j ss _ Hp Hj).
        -- right. unfold AiAnalysis.skills_term. simpl. rewrite Hp.
           exists (inject_Z 60). split; [reflexivity|apply Qle_refl].
      * right. exists (inject_Z 60). split; [reflexivity|apply Qle_refl].
    + right. apply skills_term_lower_bound. intros j' [= <-]. congruence.
    + right. apply skills_term_lower_bound. intros j' [= <-]. congruence.
  - right. apply skills_term_lower_bound. intros j' [=].
Qed.

(** The score is [NaN] or an integer between 60 and 100. *)
Lemma matchScore_dichotomy (profile : option ApplicantProfiles.row)
    (job : option Jobs.row) :
  AiAnalysis.matchScore profile job = JS.NaN
  ∨ ∃ z, AiAnalysis.matchScore profile job = JS.of_Z z ∧ 60 <= z <= 100.
Proof.
  unfold AiAnalysis.matchScore.
  destruct (skills_term_dichotomy profile job) as [->|(q & -> & Hq)].
  - left. rewrite experience_term_NaN. reflexivity.
  - right. destruct (experience_term_lower_bound profile job q) as (q' & -> & Hq').
    cbn [JS.Math_round]. rewrite Math_min_of_Z.
    eexists. split; [reflexivity|].
    assert (60 <= Qfloor (q' + (1 # 2))).
    { rewrite <- (Qfloor_Z 60). apply Qfloor_resp_le.
      apply Qle_trans with q; [exact Hq|]. apply Qle_trans with q'; [exact Hq'|].
      rewrite <- (Qplus_0_r q') at 1. apply Qplus_le_r. discriminate. }
    lia.
Qed.

(** X1. For every job whose required-skill list is not the empty array, and
    for every profile, present or missing, the server-side score is an integer
    between 60 and 100: the base is never undercut and the sum never exceeds
    the cap. *)
Theorem X1_server_score_between_60_and_100 (profile : option ApplicantProfiles.row)
    (job : option Jobs.row) :
  (∀ j, job = Some j → Jobs.skills_required j ≠ Some []) →
  ∃ z, AiAnalysis.matchScore profile job = JS.of_Z z ∧ 60 <= z <= 100.
Proof. exact (matchScore_range profile job). Qed.

(** X1 on the worked example. *)
Lemma X1_server_score_between_60_and_100_witness :
  ∃ z, AiAnalysis.matchScore (Some Scenario.react_aws_3) (Some Scenario.react_node_mid)
       = JS.of_Z z ∧ 60 <= z <= 100.
Proof.
  apply (X1_server_score_between_60_and_100 (Some Scenario.react_aws_3)
           (Some Scenario.react_node_mid)).
  intros j [= <-]. discriminate.
Defined.

(** X2. When the applicant's skill list is the job's required list, that
    list is not empty, and the job is 'senior' with at least five years of
    experience or 'mid' with at least two, the server-side score is exactly
    100. *)
Theorem X2_server_full_match_is_100 (p : ApplicantProfiles.row) (j : Jobs.row)
    (ss : list string) (years : Z) (level : string) :
  ss ≠ [] →
  ApplicantProfiles.skills p = Some ss →
  Jobs.skills_required j = Some ss →
  ApplicantProfiles.experience_years p = Some years →
  Jobs.experience_level j = Some level →
  (level = "senior" ∧ 5 <= years) ∨ (level = "mid" ∧ 2 <= years) →
  AiAnalysis.matchScore (Some p) (Some j) = JS.of_Z 100.
Proof. exact (matchScore_full_match p j ss years level). Qed.

(** X2 on a senior job with two skills and an applicant with seven years. *)
Lemma X2_server_full_match_is_100_witness :
  AiAnalysis.matchScore (Some (Scenario.profile ["React"; "Node.js"] 7))
    (Some (Scenario.job ["React"; "Node.js"] "senior")) = JS.of_Z 100.
Proof.
  apply (X2_server_full_match_is_100 (Scenario.profile ["React"; "Node.js"] 7)
           (Scenario.job ["React"; "Node.js"] "senior") ["React"; "Node.js"] 7 "senior");
    try reflexivity.
  - discriminate.
  - left. split; [reflexivity|lia].
Defined.

(** X3. Whenever the handler answers with success, the score it returns
    and stores is an integer between 60 and 100, the stored criteria all equal
    it, and the label in the analysis is "Strong" from 80 on and "Good" below:
    "Moderate" is never stored. *)
Theorem X3_served_score_and_label (db db' : Db.store) (jobId applicantId : string)
    (s : JS.number) (a : string) :
  AiAnalysis.serve db jobId applicantId = (AiAnalysis.Success s a, db') →
  ∃ z r,
    s = JS.of_Z z ∧ 60 <= z <= 100
    ∧ a = AiAnalysis.analysis s
    ∧ AiAnalysis.label s = (if 80 <=? z then "Strong" else "Good")
    ∧ Db.ai_match_scores db' !! (jobId, applicantId) = Some r
    ∧ AiMatchScores.match_score r = z
    ∧ AiMatchScores.analysis r = a
    ∧ AiMatchScores.criteria r
      = {| AiMatchScores.skills_match := z; AiMatchScores.experience_match := z;
           AiMatchScores.requirements_match := z; AiMatchScores.overall_fit := z |}.
Proof.
  unfold AiAnalysis.serve. intros H.
  destruct (matchScore_dichotomy (Db.applicant_profiles db !! applicantId)
              (Db.jobs db !! jobId)) as [E|(z & E & Hz)]; rewrite E in H.
  - discriminate.
  - rewrite match_score_column_of_Z in H.
    destruct ((0 <=? z) && (z <=? 100)); [|discriminate].
    destruct (Db.jobs db !! jobId); [|discriminate].
    injection H as <- <- <-.
    eexists z, _. split; [reflexivity|]. split; [lia|]. split; [reflexivity|].
    split.
    { unfold AiAnalysis.label. rewrite !ge_of_Z.
      destruct (Z.leb_spec 80 z); [reflexivity|].
      destruct (Z.leb_spec 60 z); [reflexivity|lia]. }
    split.
    { cbn [Db.ai_match_scores Db.with_ai_match_scores snd]. apply lookup_insert_eq. }
    split_and!; reflexivity.
Qed.

(** X3 on the worked example. *)
Lemma X3_served_score_and_label_witness :
  ∃ z, fst (AiAnalysis.serve (Scenario.db Scenario.react_node_mid Scenario.react_aws_3)
              "job-1" "applicant-1")
       = AiAnalysis.Success (JS.of_Z z) (AiAnalysis.analysis (JS.of_Z z))
       ∧ 60 <= z <= 100.
Proof.
  destruct (X3_served_score_and_label
              (Scenario.db Scenario.react_node_mid Scenario.react_aws_3)
              (snd (AiAnalysis.serve
                      (Scenario.db Scenario.react_node_mid Scenario.react_aws_3)
                      "job-1" "applicant-1"))
              "job-1" "applicant-1" (JS.of_Z 85) (AiAnalysis.analysis (JS.of_Z 85)))
    as (z & r & Hs & Hz & _).
  - vm_compute. reflexivity.
  - exists z. split; [|exact Hz]. rewrite <- Hs. vm_compute. reflexivity.
Defined.

(** X4. The analysis is an idempotent upsert: running the handler again
    for the same job and applicant gives the same answer and the same store as
    running it once; it writes at most the one row of that pair and touches no
    other table. *)
Theorem X4_analysis_is_idempotent_upsert (db : Db.store) (jobId applicantId : string) :
  let once := AiAnalysis.serve db jobId applicantId in
  AiAnalysis.serve (snd once) jobId applicantId = once
  ∧ delete (jobId, applicantId) (Db.ai_match_scores (snd once))
    = delete (jobId, applicantId) (Db.ai_match_scores db)
  ∧ Db.jobs (snd once) = Db.jobs db
  ∧ Db.applicant_profiles (snd once) = Db.applicant_profiles db
  ∧ Db.applications (snd once) = Db.applications db
  ∧ Db.assessments (snd once) = Db.assessments db.
Proof.
  cbv zeta. unfold AiAnalysis.serve.
  destruct (Db.jobs db !! jobId) as [j|] eqn:Hj;
    destruct (AiMatchScores.match_score_column
                (AiAnalysis.matchScore (Db.applicant_profiles db !! applicantId) _))
      as [z|] eqn:Hz;
    cbn [snd Db.jobs Db.applicant_profiles Db.applications Db.assessments
         Db.ai_match_scores Db.with_ai_match_scores];
    rewrite ?Hj, ?Hz; split_and!; try reflexivity.
  - unfold Db.with_ai_match_scores.
    cbn [Db.jobs Db.applicant_profiles Db.applications Db.assessments
         Db.ai_match_scores].
    rewrite insert_insert_eq. reflexivity.
  - apply delete_insert_eq.
Qed.

(** X5. Without data the server-side score is the base of 60: for a
    missing profile, and for a profile whose skills are NULL, or are the empty
    array against a job that requires something, when its experience is NULL
    or 0. *)
Theorem X5_server_base_score (profile : option ApplicantProfiles.row)
    (job : option Jobs.row) :
  (profile = None
   ∨ ∃ p, profile = Some p
          ∧ (ApplicantProfiles.skills p = None
             ∨ (ApplicantProfiles.skills p = Some []
                ∧ ∀ j, job = Some j → Jobs.skills_required j ≠ Some []))
          ∧ (ApplicantProfiles.experience_years p = None
             ∨ ApplicantProfiles.experience_years p = Some 0)) →
  AiAnalysis.matchScore profile job = JS.of_Z 60.
Proof.
  assert (Hround : JS.Math_min (JS.Math_round (JS.of_Z 60)) (JS.of_Z 100) = JS.of_Z 60).
  { rewrite Math_round_of_Z, Math_min_of_Z. reflexivity. }
  intros [->|(p & -> & Hs & Hy)]; [exact Hround|].
  unfold AiAnalysis.matchScore.
  assert (He : ∀ s, AiAnalysis.experience_term (Some p) job s = s).
  { intros s. unfold AiAnalysis.experience_term. simpl.
    destruct Hy as [->| ->]; [reflexivity|].
    destruct (job ≫= Jobs.experience_level); reflexivity. }
  rewrite He. destruct Hs as [Hs|[Hs Hne]].
  - unfold AiAnalysis.skills_term.
    change (Some p ≫= ApplicantProfiles.skills) with (ApplicantProfiles.skills p).
    rewrite Hs. exact Hround.
  - unfold AiAnalysis.skills_term.
    change (Some p ≫= ApplicantProfiles.skills) with (ApplicantProfiles.skills p).
    rewrite Hs. destruct job as [j|]; [|exact Hround].
    change (Some j ≫= Jobs.skills_required) with (Jobs.skills_required j).
    destruct (Jobs.skills_required j) as [rs|] eqn:Hj; [|exact Hround].
    assert (Hlen : (0 < length (List.map Str.toLowerCase rs))%nat).
    { destruct rs; [exfalso; exact (Hne j eq_refl Hj)|simpl; lia]. }
    cbv zeta.
    change (AiAnalysis.matchingSkills (List.map Str.toLowerCase [])
              (List.map Str.toLowerCase rs)) with (@nil string).
    rewrite (div_of_nat_pos _ _ Hlen).
    cbn [JS.add JS.mul JS.of_Z JS.Math_round length Z.of_nat].
    assert (E : (inject_Z 60
                 + inject_Z 0 / inject_Z (Z.of_nat (length (List.map Str.toLowerCase rs)))
                   * inject_Z 30 + (1 # 2) == 60 + (1 # 2))%Q).
    { unfold Qdiv. change (inject_Z 0) with 0%Q. ring. }
    rewrite E. reflexivity.
Qed.

(** X5 for an applicant who has entered nothing yet. *)
Lemma X5_server_base_score_witness :
  AiAnalysis.matchScore (Some (Scenario.profile [] 0)) (Some Scenario.react_node_mid)
  = JS.of_Z 60.
Proof.
  apply (X5_server_base_score (Some (Scenario.profile [] 0))
           (Some Scenario.react_node_mid)).
  right. exists (Scenario.profile [] 0). split; [reflexivity|]. split.
  - right. split; [reflexivity|]. intros j [= <-]. discriminate.
  - right. reflexivity.
Defined.

(** X6. On every job whose level passes the schema's CHECK, the experience
    bonus of 10 is added exactly for a 'senior' job with at least five years
    and for a 'mid' job with at least two: never for 'entry' or 'executive'
    jobs, and never without experience data. *)
Theorem X6_experience_bonus_under_check (p : ApplicantProfiles.row) (j : Jobs.row)
    (s : JS.number) :
  Jobs.experience_level_check (Jobs.experience_level j) = true →
  AiAnalysis.experience_term (Some p) (Some j) s
  = match ApplicantProfiles.experience_years p, Jobs.experience_level j with
    | Some years, Some level =>
        if String.eqb level "senior" && (5 <=? years)
           || String.eqb level "mid" && (2 <=? years)
        then JS.add s (JS.of_Z 10)
        else s
    | _, _ => s
    end.
Proof.
  intros Hc. unfold AiAnalysis.experience_term. simpl.
  destruct (ApplicantProfiles.experience_years p) as [y|]; [|reflexivity].
  destruct (Jobs.experience_level j) as [l|]; [|reflexivity].
  unfold Jobs.experience_level_check in Hc.
  assert (Hl : l = "entry" ∨ l = "mid" ∨ l = "senior" ∨ l = "executive").
  { repeat (apply orb_true_iff in Hc as [Hc|Hc]);
      apply String.eqb_eq in Hc; auto. }
  unfold JS.Z_truthy.
  destruct Hl as [-> | [-> | [-> | ->]]]; simpl;
    destruct (Z.eqb_spec y 0) as [->|Hy]; simpl; try reflexivity;
    repeat (match goal with |- context [?a <=? ?b] => destruct (Z.leb_spec a b) end);
    simpl; try reflexivity; lia.
Qed.

(** X6 on an executive job and twenty years of experience: no bonus. *)
Lemma X6_experience_bonus_under_check_witness :
  AiAnalysis.experience_term (Some Scenario.react_node_20)
    (Some Scenario.react_node_executive) (JS.of_Z 90) = JS.of_Z 90.
Proof.
  rewrite (X6_experience_bonus_under_check Scenario.react_node_20
             Scenario.react_node_executive (JS.of_Z 90)); reflexivity.
Defined.

(** ** The applicant's job list *)

(** Each block adds a bounded weight and keeps [0 <= score <= 100 * factors]. *)
Lemma skills_block_bounds (p : ApplicantProfiles.row) (job : Jobs.row) (s f : Q) :
  Jobs.skills_required job ≠ Some [] →
  (0 <= s)%Q → (s <= 100 * f)%Q →
  ∃ s' f', ApplicantJobs.skills_block p job (JS.Fin s, JS.Fin f) = (JS.Fin s', JS.Fin f')
           ∧ (0 <= s')%Q ∧ (s' <= 100 * f')%Q ∧ (f <= f')%Q ∧ (f' <= f + (4 # 10))%Q.
Proof.
  intros Hne Hs Hsf. unfold ApplicantJobs.skills_block.
  destruct (Jobs.skills_required job) as [rs|];
    [|exists s, f; split_and!; [reflexivity|lra..]].
  destruct (ApplicantProfiles.skills p) as [ss|];
    [|exists s, f; split_and!; [reflexivity|lra..]].
  assert (Hlen : (0 < length rs)%nat) by (destruct rs; [congruence|simpl; lia]).
  cbv zeta. rewrite (div_of_nat_pos _ _ Hlen).
  pose proof (ratio_nonneg (length (ApplicantJobs.matchingSkills rs ss)) _ Hlen) as H0.
  pose proof (ratio_le_1 _ _ Hlen (client_matching_le rs ss)) as H1.
  set (r := (inject_Z _ / inject_Z _)%Q) in *.
  cbn [JS.mul JS.add JS.of_Z]. change (inject_Z 100) with 100%Q.
  eexists _, _. split; [reflexivity|]. split_and!; lra.
Qed.

Lemma experience_block_bounds (p : ApplicantProfiles.row) (job : Jobs.row) (s f : Q) :
  (0 <= s)%Q → (s <= 100 * f)%Q →
  ∃ s' f', ApplicantJobs.experience_block p job (JS.Fin s, JS.Fin f)
           = (JS.Fin s', JS.Fin f')
           ∧ (0 <= s')%Q ∧ (s' <= 100 * f')%Q ∧ (f <= f')%Q ∧ (f' <= f + (3 # 10))%Q.
Proof.
  intros Hs Hsf. unfold ApplicantJobs.experience_block.
  destruct (ApplicantProfiles.experience_years p) as [y|];
    [|exists s, f; split_and!; [reflexivity|lra..]].
  destruct (JS.Z_truthy y); [|exists s, f; split_and!; [reflexivity|lra..]].
  destruct (experienceScore_range (Jobs.experience_level job) y) as (e & -> & He).
  cbn [JS.mul JS.add JS.of_Z].
  assert (He0 : (0 <= inject_Z e)%Q).
  { change 0%Q with (inject_Z 0). rewrite <- Zle_Qle. lia. }
  assert (He1 : (inject_Z e <= 100)%Q).
  { change 100%Q with (inject_Z 100). rewrite <- Zle_Qle. lia. }
  set (x := inject_Z e) in *.
  eexists _, _. split; [reflexivity|]. split_and!; lra.
Qed.

(** X7. The applicant-side estimate is 0 without a profile, and with a
    profile, on every job whose required-skill list is not the empty array, an
    integer between 23 and 93: the fixed "base compatibility" share keeps it
    away from both ends, and it never shows 100. *)
Theorem X7_client_estimate_between_23_and_93 (profile : option ApplicantProfiles.row)
    (job : Jobs.row) :
  Jobs.skills_required job ≠ Some [] →
  ∃ z, ApplicantJobs.calculateMatchScore profile job = JS.of_Z z
       ∧ match profile with
         | None => z = 0
         | Some _ => 23 <= z <= 93
         end.
Proof.
  intros Hne. unfold ApplicantJobs.calculateMatchScore.
  destruct profile as [p|]; [|exists 0; split; reflexivity].
  change (JS.of_Z 0) with (JS.Fin 0).
  destruct (skills_block_bounds p job 0 0 Hne) as (s1 & f1 & -> & H1 & H2 & H3 & H4);
    [lra..|].
  destruct (experience_block_bounds p job s1 f1 H1 H2)
    as (s2 & f2 & -> & H5 & H6 & H7 & H8).
  cbn [ApplicantJobs.base_block JS.mul JS.add JS.of_Z]. change (inject_Z 75) with 75%Q.
  rewrite div_Fin_pos by lra. cbn [JS.Math_round].
  eexists. split; [reflexivity|].
  set (x := ((s2 + 75 * (3 # 10)) / (f2 + (3 # 10)))%Q).
  assert (Hlo : ((45 # 2) <= x)%Q) by (apply Qle_shift_div_l; lra).
  assert (Hhi : (x <= (185 # 2))%Q) by (apply Qle_shift_div_r; lra).
  split.
  - rewrite <- (Qfloor_Z 23). apply Qfloor_resp_le. change (inject_Z 23) with 23%Q. lra.
  - rewrite <- (Qfloor_Z 93). apply Qfloor_resp_le. change (inject_Z 93) with 93%Q. lra.
Qed.

(** X7 on the worked example. *)
Lemma X7_client_estimate_between_23_and_93_witness :
  ∃ z, ApplicantJobs.calculateMatchScore (Some Scenario.react_aws_3)
         Scenario.react_node_mid = JS.of_Z z
       ∧ 23 <= z <= 93.
Proof.
  apply (X7_client_estimate_between_23_and_93 (Some Scenario.react_aws_3)
           Scenario.react_node_mid).
  discriminate.
Defined.

(** *** Matching ignores the case of ASCII letters *)

Lemma lower_ascii_idem (c : ascii) :
  Str.lower_ascii (Str.lower_ascii c) = Str.lower_ascii c.
Proof. destruct c as [[] [] [] [] [] [] [] []]; reflexivity. Qed.

Lemma toLowerCase_idem (s : string) :
  Str.toLowerCase (Str.toLowerCase s) = Str.toLowerCase s.
Proof.
  induction s as [|c s IH]; simpl; [reflexivity|].
  rewrite lower_ascii_idem, IH. reflexivity.
Qed.

Lemma existsb_map_lower (f : string → bool) (l : list string) :
  existsb f (List.map Str.toLowerCase l) = existsb (fun x => f (Str.toLowerCase x)) l.
Proof. induction l as [|x l IH]; simpl; [reflexivity|]. rewrite IH. reflexivity. Qed.

Lemma filter_map_lower_length (f : string → bool) (l : list string) :
  length (List.filter f (List.map Str.toLowerCase l))
  = length (List.filter (fun x => f (Str.toLowerCase x)) l).
Proof.
  induction l as [|x l IH]; simpl; [reflexivity|].
  destruct (f (Str.toLowerCase x)); simpl; rewrite IH; reflexivity.
Qed.

(** The applicant-side count is the server-side matching on lower-cased
    lists, with the two lists in each other's place. *)
Lemma client_matching_length (skills_required skills : list string) :
  length (ApplicantJobs.matchingSkills skills_required skills)
  = length (AiAnalysis.matchingSkills (List.map Str.toLowerCase skills_required)
              (List.map Str.toLowerCase skills)).
Proof.
  unfold ApplicantJobs.matchingSkills, AiAnalysis.matchingSkills.
  rewrite filter_map_lower_length. f_equal.
  apply List.filter_ext. intros x. rewrite existsb_map_lower. reflexivity.
Qed.

(** X8. Both scores depend on the skills only up to the case of ASCII
    letters: two profiles and two jobs whose skill lists agree after
    lower-casing, with the same experience data, get the same server-side
    score and the same applicant-side estimate. *)
Theorem X8_scores_ignore_case (p p' : ApplicantProfiles.row) (j j' : Jobs.row) :
  List.map Str.toLowerCase <$> ApplicantProfiles.skills p
  = List.map Str.toLowerCase <$> ApplicantProfiles.skills p' →
  List.map Str.toLowerCase <$> Jobs.skills_required j
  = List.map Str.toLowerCase <$> Jobs.skills_required j' →
  ApplicantProfiles.experience_years p = ApplicantProfiles.experience_years p' →
  Jobs.experience_level j = Jobs.experience_level j' →
  AiAnalysis.matchScore (Some p) (Some j) = AiAnalysis.matchScore (Some p') (Some j')
  ∧ ApplicantJobs.calculateMatchScore (Some p) j
    = ApplicantJobs.calculateMatchScore (Some p') j'.
Proof.
  intros Hs Hr Hy Hl. split.
  - unfold AiAnalysis.matchScore, AiAnalysis.skills_term, AiAnalysis.experience_term.
    change (Some p ≫= ApplicantProfiles.skills) with (ApplicantProfiles.skills p).
    change (Some p' ≫= ApplicantProfiles.skills) with (ApplicantProfiles.skills p').
    change (Some j ≫= Jobs.skills_required) with (Jobs.skills_required j).
    change (Some j' ≫= Jobs.skills_required) with (Jobs.skills_required j').
    change (Some p ≫= ApplicantProfiles.experience_years)
      with (ApplicantProfiles.experience_years p).
    change (Some p' ≫= ApplicantProfiles.experience_years)
      with (ApplicantProfiles.experience_years p').
    change (Some j ≫= Jobs.experience_level) with (Jobs.experience_level j).
    change (Some j' ≫= Jobs.experience_level) with (Jobs.experience_level j').
    rewrite Hy, Hl.
    destruct (ApplicantProfiles.skills p) as [ss|],
      (ApplicantProfiles.skills p') as [ss'|]; try discriminate;
      destruct (Jobs.skills_required j) as [rs|],
        (Jobs.skills_required j') as [rs'|]; try discriminate;
      try reflexivity.
    injection Hs as Hs. injection Hr as Hr. cbv zeta. rewrite Hs, Hr. reflexivity.
  - unfold ApplicantJobs.calculateMatchScore, ApplicantJobs.skills_block,
      ApplicantJobs.experience_block.
    rewrite Hy, Hl.
    destruct (ApplicantProfiles.skills p) as [ss|],
      (ApplicantProfiles.skills p') as [ss'|]; try discriminate;
      destruct (Jobs.skills_required j) as [rs|],
        (Jobs.skills_required j') as [rs'|]; try discriminate;
      try reflexivity.
    injection Hs as Hs. injection Hr as Hr. cbv zeta.
    rewrite !client_matching_length, Hs, Hr.
    assert (E : length rs = length rs').
    { rewrite <- (length_map Str.toLowerCase rs), Hr. apply length_map. }
    rewrite E. reflexivity.
Qed.

(** X8 on the worked example written in capitals. *)
Lemma X8_scores_ignore_case_witness :
  AiAnalysis.matchScore (Some Scenario.react_aws_3) (Some Scenario.react_node_mid)
  = AiAnalysis.matchScore (Some (Scenario.profile ["REACT"; "AWS"] 3))
      (Some (Scenario.job ["react"; "NODE.JS"] "mid")).
Proof.
  apply (X8_scores_ignore_case Scenario.react_aws_3 (Scenario.profile ["REACT"; "AWS"] 3)
           Scenario.react_node_mid (Scenario.job ["react"; "NODE.JS"] "mid"));
    reflexivity.
Defined.

(** ** The [generate-assessment] edge function and the stored assessments *)

(** X9. The generation either writes exactly one new row, under the drawn
    identity, which was free, and answers with that identity and the address
    that embeds it, or it writes nothing at all and answers with the failure:
    "Failed to fetch application" when no application has the given id,
    "Failed to create assessment" when the drawn identity is taken. No other
    table is touched either way. *)
Theorem X9_generate_writes_one_row_or_nothing (db : Db.store) (db_now : Z)
    (uuid applicationId : string) (questions : option Assessments.questions_t) :
  match GenerateAssessment.serve db db_now uuid applicationId questions with
  | (GenerateAssessment.Success i u, db') =>
      i = uuid ∧ u = GenerateAssessment.assessmentUrl uuid
      ∧ is_Some (Db.applications db !! applicationId)
      ∧ Db.assessments db !! uuid = None
      ∧ is_Some (Db.assessments db' !! uuid)
      ∧ delete uuid (Db.assessments db') = Db.assessments db
      ∧ size (Db.assessments db') = S (size (Db.assessments db))
      ∧ Db.applications db' = Db.applications db
      ∧ Db.jobs db' = Db.jobs db
      ∧ Db.applicant_profiles db' = Db.applicant_profiles db
      ∧ Db.ai_match_scores db' = Db.ai_match_scores db
  | (GenerateAssessment.Failure e, db') =>
      db' = db
      ∧ ((e = "Failed to fetch application" ∧ Db.applications db !! applicationId = None)
         ∨ (e = "Failed to create assessment" ∧ is_Some (Db.assessments db !! uuid)))
  end.
Proof.
  unfold GenerateAssessment.serve, GenerateAssessment.insert.
  destruct (Db.applications db !! applicationId) as [app|] eqn:Happ.
  - destruct (Db.assessments db !! uuid) as [r|] eqn:Hr.
    + split; [reflexivity|]. right. split; [reflexivity|eauto].
    + cbn [Db.assessments Db.with_assessments Db.applications Db.jobs
           Db.applicant_profiles Db.ai_match_scores].
      split_and!; try reflexivity; eauto.
      * rewrite lookup_insert_eq. eauto.
      * rewrite delete_insert_eq. apply delete_id. exact Hr.
      * apply map_size_insert_None. exact Hr.
  - split; [reflexivity|]. left. split; reflexivity.
Qed.

(** X10. An accepted generation can be taken at once: until the expiry,
    the applicant of the application sees the "Take Assessment" button, the
    modal loads the new assessment with the countdown set to the whole seconds
    left and presents the stored payload in normalised order, and the page
    loads it with the payload as stored. (The payload is the request's bank
    when that is truthy and the default template otherwise; a bank sent as
    text would have to be parsed first.) *)
Theorem X10_generated_assessment_can_be_taken
    (JSON_parse : string → option Assessments.questions_t)
    (db : Db.store) (db_now now : Z) (uuid applicationId : string)
    (questions : option Assessments.questions_t) (application : Applications.row) :
  Db.applications db !! applicationId = Some application →
  Db.assessments db !! uuid = None →
  now < db_now + Assessments.seven_days →
  (∀ s, GenerateAssessment.questions_or_default questions ≠ Assessments.JString s) →
  let db' := snd (GenerateAssessment.serve db db_now uuid applicationId questions) in
  let user := Some (Applications.applicant_id application) in
  let payload := GenerateAssessment.questions_or_default questions in
  ∃ r,
    Db.assessments db' !! uuid = Some r
    ∧ Assessments.questions r = payload
    ∧ ApplicantApplications.canTakeAssessment r now = true
    ∧ AssessmentModal.fetchAssessment JSON_parse db' now user uuid AssessmentModal.opened
      = (modal_loaded
           {| AssessmentModal.data := r;
              AssessmentModal.questions := AssessmentModal.questionsArray payload |}
           ((db_now + Assessments.seven_days - now) / 1000),
         None)
    ∧ AssessmentPage.fetchAssessment JSON_parse db' now user uuid AssessmentPage.mounted
      = (page_loaded {| AssessmentPage.data := r; AssessmentPage.questions := payload |},
         None).
Proof.
  intros Happ Hfresh Hnow Hjson. cbv zeta.
  unfold GenerateAssessment.serve, GenerateAssessment.insert.
  rewrite Happ, Hfresh. cbn [snd].
  set (r := {| Assessments.id := uuid |}).
  set (db' := Db.with_assessments db _).
  assert (Hr : Db.assessments db' !! uuid = Some r) by apply lookup_insert_eq.
  assert (Happl : Rls.is_applicant (Some (Applications.applicant_id application)) r
                  = true) by apply String.eqb_refl.
  assert (Hlt : (Assessments.expires_at r <? now) = false).
  { apply Z.ltb_ge. cbn. lia. }
  assert (Hparse : AssessmentModal.parsedQuestions JSON_parse (Assessments.questions r)
                   = Some (GenerateAssessment.questions_or_default questions)).
  { cbn [r Assessments.questions]. unfold AssessmentModal.parsedQuestions.
    destruct (GenerateAssessment.questions_or_default questions) eqn:E;
      try reflexivity. exfalso. exact (Hjson _ eq_refl). }
  exists r. split; [exact Hr|]. split; [reflexivity|]. split_and!.
  - unfold ApplicantApplications.canTakeAssessment. cbn [r Assessments.status
      Assessments.expires_at]. apply Z.ltb_lt. exact Hnow.
  - unfold AssessmentModal.fetchAssessment, Rls.select_by_id, Rls.can_select.
    rewrite Hr, Happl, orb_true_r. cbv iota beta. rewrite Happl, Hlt, Hparse.
    reflexivity.
  - unfold AssessmentPage.fetchAssessment, Rls.select_by_id, Rls.can_select.
    rewrite Hr, Happl, orb_true_r. cbv iota beta. rewrite Hlt, Hparse.
    reflexivity.
Qed.

(** X10 on the worked example, one second after the generation. *)
Lemma X10_generated_assessment_can_be_taken_witness :
  ∃ r,
    Db.assessments Scenario.generated !! "assessment-1" = Some r
    ∧ ApplicantApplications.canTakeAssessment r (Scenario.t0 + 1000) = true
    ∧ length (AssessmentModal.questionsArray (Assessments.questions r)) = 4%nat.
Proof.
  destruct (X10_generated_assessment_can_be_taken Scenario.no_parse
              (Scenario.db Scenario.react_node_mid Scenario.react_aws_3)
              Scenario.t0 (Scenario.t0 + 1000) "assessment-1" "application-1" None
              Scenario.application)
    as (r & H1 & H2 & H3 & _).
  - vm_compute. reflexivity.
  - vm_compute. reflexivity.
  - vm_compute. reflexivity.
  - intros s. discriminate.
  - exists r. split; [exact H1|]. split; [exact H3|]. rewrite H2. reflexivity.
Defined.

(** An accepted UPDATE that sets 'completed' keeps a well-formed store. *)
Lemma update_by_id_store_ok (db : Db.store) (db_now : Z) (uid : option string)
    (id : string) (c : Rls.changes) :
  Rls.status c = Assessments.completed →
  store_ok db → store_ok (Rls.update_by_id db db_now uid id c).
Proof.
  intros Hc Hok. unfold Rls.update_by_id.
  destruct (Db.assessments db !! id) as [r|] eqn:Hr; [|exact Hok].
  destruct (Rls.can_update uid r); [|exact Hok].
  unfold store_ok. cbn [Db.assessments Db.with_assessments].
  apply map_Forall_insert_2; [|exact Hok].
  destruct (Hok id r Hr) as (Hid & Hexp & _).
  split_and!; [exact Hid|exact Hexp|]. right. split; [exact Hc|]. cbn. eauto.
Qed.

Lemma page_handle_store (db_now : Z) (user : option string) (assessmentId : string)
    (e : AssessmentPage.event) (db : Db.store) (st : AssessmentPage.state) :
  fst (AssessmentPage.handle db_now user assessmentId e (db, st)) = db
  ∨ ∃ c, Rls.status c = Assessments.completed
         ∧ fst (AssessmentPage.handle db_now user assessmentId e (db, st))
           = Rls.update_by_id db db_now user assessmentId c.
Proof.
  destruct e as [value| |]; cbn [AssessmentPage.handle fst]; auto.
  unfold AssessmentPage.handleNext.
  destruct (AssessmentPage.getCurrentQuestions st); auto.
  destruct (_ <? _); auto.
  destruct (AssessmentPage.currentSection st); auto.
  unfold AssessmentPage.handleSubmit.
  destruct (AssessmentPage.getTotalQuestions st); auto.
  right. eexists. split; [|reflexivity]. reflexivity.
Qed.

Lemma modal_handle_store (now db_now : Z) (user : option string) (assessmentId : string)
    (e : ModalNavigation.event) (db : Db.store) (st : AssessmentModal.state) :
  fst (ModalNavigation.handle now db_now user assessmentId e (db, st)) = db
  ∨ ∃ c, Rls.status c = Assessments.completed
         ∧ fst (ModalNavigation.handle now db_now user assessmentId e (db, st))
           = Rls.update_by_id db db_now user assessmentId c.
Proof.
  destruct e as [value| | |index|]; cbn [ModalNavigation.handle fst]; auto.
  unfold AssessmentModal.handleSubmit.
  destruct (AssessmentModal.assessment st); auto.
  right. eexists. split; [|reflexivity]. reflexivity.
Qed.

(** X11. Every operation keeps the stored assessments well formed: each
    row sits under its own identity, expires exactly seven days after its
    creation, and is either waiting (status 'sent', no responses, no score) or
    'completed' with responses. So responses are only ever stored together
    with the status 'completed', and the statuses 'in_progress' and 'expired'
    are never written. *)
Theorem X11_stored_assessments_stay_well_formed (db : Db.store) :
  store_ok db →
  (∀ db_now uuid applicationId questions,
     store_ok (snd (GenerateAssessment.serve db db_now uuid applicationId questions)))
  ∧ (∀ now db_now user assessmentId e st,
       store_ok (fst (ModalNavigation.handle now db_now user assessmentId e (db, st))))
  ∧ (∀ db_now user assessmentId e st,
       store_ok (fst (AssessmentPage.handle db_now user assessmentId e (db, st))))
  ∧ (∀ jobId applicantId, store_ok (snd (AiAnalysis.serve db jobId applicantId)))
  ∧ (∀ uuid user job, store_ok (fst (Apply.handleApply db uuid user job))).
Proof.
  intros Hok. split_and!.
  - intros db_now uuid applicationId questions.
    unfold GenerateAssessment.serve, GenerateAssessment.insert.
    destruct (Db.applications db !! applicationId); [|exact Hok].
    destruct (Db.assessments db !! uuid); [exact Hok|].
    unfold store_ok. cbn [snd Db.assessments Db.with_assessments].
    apply map_Forall_insert_2; [|exact Hok].
    split_and!; [reflexivity|reflexivity|]. left. split_and!; reflexivity.
  - intros now db_now user assessmentId e st.
    destruct (modal_handle_store now db_now user assessmentId e db st)
      as [->|(c & Hc & ->)]; [exact Hok|].
    apply update_by_id_store_ok; assumption.
  - intros db_now user assessmentId e st.
    destruct (page_handle_store db_now user assessmentId e db st)
      as [->|(c & Hc & ->)]; [exact Hok|].
    apply update_by_id_store_ok; assumption.
  - intros jobId applicantId. unfold AiAnalysis.serve.
    destruct (AiMatchScores.match_score_column _); [|exact Hok].
    destruct (Db.jobs db !! jobId); exact Hok.
  - intros uuid user job. unfold Apply.handleApply, Apply.insert.
    destruct job as [j|]; [|exact Hok].
    destruct user as [u|]; [|exact Hok].
    destruct (_ && _); exact Hok.
Qed.

(** X11 from the store of the worked example, which has no assessment yet. *)
Lemma X11_stored_assessments_stay_well_formed_witness :
  store_ok Scenario.generated.
Proof.
  destruct (X11_stored_assessments_stay_well_formed
              (Scenario.db Scenario.react_node_mid Scenario.react_aws_3))
    as (H & _).
  - apply map_Forall_empty.
  - apply (H Scenario.t0 "assessment-1" "application-1" None).
Defined.

Lemma update_by_id_completed_stays (db : Db.store) (db_now : Z) (uid : option string)
    (id : string) (c : Rls.changes) (id' : string) (r : Assessments.row) :
  Rls.status c = Assessments.completed →
  Db.assessments db !! id' = Some r →
  Assessments.status r = Assessments.completed →
  ∃ r', Db.assessments (Rls.update_by_id db db_now uid id c) !! id' = Some r'
        ∧ Assessments.status r' = Assessments.completed.
Proof.
  intros Hc Hr Hs. unfold Rls.update_by_id.
  destruct (Db.assessments db !! id) as [r0|] eqn:Hr0; [|eauto].
  destruct (Rls.can_update uid r0); [|eauto].
  cbn [Db.assessments Db.with_assessments].
  destruct (decide (id = id')) as [<-|Hne].
  - rewrite lookup_insert_eq. eexists. split; [reflexivity|exact Hc].
  - rewrite lookup_insert_ne by exact Hne. eauto.
Qed.

(** X12. 'completed' is final as a status: once a stored assessment is
    completed, no operation deletes it or gives it another status, neither a
    further submission from the modal or the page, nor a generation, nor an
    analysis. *)
Theorem X12_completed_stays_completed (db : Db.store) (id : string)
    (r : Assessments.row) :
  Db.assessments db !! id = Some r →
  Assessments.status r = Assessments.completed →
  (∀ now db_now user assessmentId e st,
     ∃ r', Db.assessments
             (fst (ModalNavigation.handle now db_now user assessmentId e (db, st))) !! id
           = Some r'
           ∧ Assessments.status r' = Assessments.completed)
  ∧ (∀ db_now user assessmentId e st,
       ∃ r', Db.assessments
               (fst (AssessmentPage.handle db_now user assessmentId e (db, st))) !! id
             = Some r'
             ∧ Assessments.status r' = Assessments.completed)
  ∧ (∀ db_now uuid applicationId questions,
       Db.assessments
         (snd (GenerateAssessment.serve db db_now uuid applicationId questions)) !! id
       = Some r)
  ∧ (∀ jobId applicantId,
       Db.assessments (snd (AiAnalysis.serve db jobId applicantId)) !! id = Some r).
Proof.
  intros Hr Hs. split_and!.
  - intros now db_now user assessmentId e st.
    destruct (modal_handle_store now db_now user assessmentId e db st)
      as [->|(c & Hc & ->)]; [eauto|].
    exact (update_by_id_completed_stays db db_now user assessmentId c id r Hc Hr Hs).
  - intros db_now user assessmentId e st.
    destruct (page_handle_store db_now user assessmentId e db st)
      as [->|(c & Hc & ->)]; [eauto|].
    exact (update_by_id_completed_stays db db_now user assessmentId c id r Hc Hr Hs).
  - intros db_now uuid applicationId questions.
    unfold GenerateAssessment.serve, GenerateAssessment.insert.
    destruct (Db.applications db !! applicationId); [|exact Hr].
    destruct (Db.assessments db !! uuid) eqn:Hu; [exact Hr|].
    cbn [snd Db.assessments Db.with_assessments].
    rewrite lookup_insert_ne by congruence. exact Hr.
  - intros jobId applicantId. unfold AiAnalysis.serve.
    destruct (AiMatchScores.match_score_column _); [|exact Hr].
    destruct (Db.jobs db !! jobId); exact Hr.
Qed.

(** X12 on the completed assessment of the worked example, when the second
    tab submits. *)
Lemma X12_completed_stays_completed_witness :
  ∃ r', Db.assessments
          (fst (ModalNavigation.handle (Scenario.t0 + 120000) (Scenario.t0 + 120000)
                  Scenario.applicant "assessment-1" ModalNavigation.Submit
                  (Scenario.submitted_once, Scenario.tab_2_answered))) !! "assessment-1"
        = Some r'
        ∧ Assessments.status r' = Assessments.completed.
Proof.
  destruct (X12_completed_stays_completed Scenario.submitted_once "assessment-1"
              Scenario.completed_row) as (H & _).
  - vm_compute. reflexivity.
  - vm_compute. reflexivity.
  - apply H.
Defined.

(** X13. Only the applicant of an assessment can change it, and a refusal
    is silent: when the caller is not the applicant, or the assessment does
    not exist, a submission from a loaded modal or page leaves the store
    exactly as it was, and still shows the success notice, closes the modal
    and sends the page to "/assessment-complete". *)
Theorem X13_foreign_submission_is_a_silent_no_op (db : Db.store) (now db_now : Z)
    (user : option string) (assessmentId : string)
    (modal : AssessmentModal.state) (a : AssessmentModal.Assessment)
    (page : AssessmentPage.state) (total : nat) :
  match Db.assessments db !! assessmentId with
  | Some r => Rls.is_applicant user r = false
  | None => True
  end →
  AssessmentModal.assessment modal = Some a →
  AssessmentPage.getTotalQuestions page = Some total →
  AssessmentModal.handleSubmit db now db_now user assessmentId modal
  = (db, AssessmentModal.onClose modal,
     Some "Assessment submitted successfully! The recruiter will review your responses.")
  ∧ AssessmentPage.handleSubmit db db_now user assessmentId page
    = (db, AssessmentPage.navigate "/assessment-complete" page,
       Some "Assessment submitted successfully!").
Proof.
  intros Hrow Hm Hp.
  assert (Hup : ∀ c, Rls.update_by_id db db_now user assessmentId c = db).
  { intros c. unfold Rls.update_by_id, Rls.can_update.
    destruct (Db.assessments db !! assessmentId) as [r|]; [|reflexivity].
    rewrite Hrow. reflexivity. }
  unfold AssessmentModal.handleSubmit, AssessmentPage.handleSubmit.
  rewrite Hm, Hp, !Hup. split; reflexivity.
Qed.

(** X13 for the recruiter of the job, who can load the page of the
    assessment but not change the assessment. *)
Lemma X13_foreign_submission_is_a_silent_no_op_witness :
  Rls.select_by_id Scenario.generated (Some "recruiter-1") "assessment-1"
  = Some Scenario.generated_row
  ∧ AssessmentPage.handleSubmit Scenario.generated (Scenario.t0 + 60000)
      (Some "recruiter-1") "assessment-1" Scenario.page_three_answered
    = (Scenario.generated,
       AssessmentPage.navigate "/assessment-complete" Scenario.page_three_answered,
       Some "Assessment submitted successfully!").
Proof.
  split; [vm_compute; reflexivity|].
  apply (X13_foreign_submission_is_a_silent_no_op Scenario.generated
           (Scenario.t0 + 60000) (Scenario.t0 + 60000) (Some "recruiter-1")
           "assessment-1" Scenario.tab_1_answered Scenario.in_modal
           Scenario.page_three_answered 4).
  - vm_compute. reflexivity.
  - vm_compute. reflexivity.
  - vm_compute. reflexivity.
Defined.

(** ** The assessment page *)

Lemma completion_rate_full (total : nat) :
  (0 < total)%nat → completion_rate total total = 100.
Proof.
  intros Ht. unfold completion_rate.
  assert (E : (inject_Z 100 * inject_Z (Z.of_nat total) / inject_Z (Z.of_nat total)
               + (1 # 2) == 100 + (1 # 2))%Q).
  { unfold Qdiv. rewrite <- Qmult_assoc.
    pose proof (ratio_same total Ht) as H. unfold Qdiv in H. rewrite H.
    change (inject_Z 100) with 100%Q. ring. }
  rewrite E. reflexivity.
Qed.

Lemma position_lt_same_section (s s' : AssessmentPage.section_t) (i j : Z) :
  position_lt (page_position s i) (page_position s' j) →
  (s = AssessmentPage.work_ethics ∧ s' = AssessmentPage.technical)
  ∨ (s = s' ∧ i < j).
Proof.
  unfold position_lt, page_position. destruct s, s'; simpl; intros [H|[H1 H2]];
    try lia; auto.
Qed.

(** What an enabled Next button knows: the page is rendered and the question
    on display has an answer. *)
Lemma page_next_enabled (st : AssessmentPage.state) :
  AssessmentPage.enabled st AssessmentPage.Next = true →
  AssessmentPage.rendered st = true
  ∧ is_Some (AssessmentPage.answers st
             !! AssessmentPage.questionKey (AssessmentPage.currentSection st)
                  (AssessmentPage.currentQuestionIndex st)).
Proof.
  unfold AssessmentPage.enabled, AssessmentPage.currentAnswer. intros H.
  apply andb_true_iff in H as [Hr H]. split; [exact Hr|].
  destruct (_ !! _); [eauto|discriminate].
Qed.

Lemma page_current_questions (a : AssessmentPage.Assessment) (st : AssessmentPage.state) :
  AssessmentPage.assessment st = Some a →
  AssessmentPage.rendered st = true →
  ∃ qs, AssessmentPage.getCurrentQuestions st = Some qs
        ∧ length qs
          = AssessmentPage.length_or_0
              (AssessmentPage.property (AssessmentPage.questions a)
                 (AssessmentPage.currentSection st))
        ∧ AssessmentPage.route st = None
        ∧ AssessmentPage.getTotalQuestions st
          = Some (length (page_question_keys (AssessmentPage.questions a))).
Proof.
  intros Ha Hr. unfold AssessmentPage.rendered in Hr. rewrite Ha in Hr.
  destruct (AssessmentPage.route st); [discriminate|].
  apply negb_true_iff in Hr.
  unfold AssessmentPage.getCurrentQuestions, AssessmentPage.getTotalQuestions.
  rewrite Ha, Hr. eexists. split; [reflexivity|].
  split; [|split; [reflexivity|rewrite page_question_keys_length; reflexivity]].
  destruct (AssessmentPage.property _ _); reflexivity.
Qed.

(** Going forward needs an answer, and answers are never removed: every
    question before the one on display has an answer. *)
Lemma page_reachable_before (db_now : Z) (user : option string) (assessmentId : string)
    (a : AssessmentPage.Assessment) (s : Db.store * AssessmentPage.state) :
  AssessmentPage.reachable db_now user assessmentId a s →
  page_answered_before a (snd s).
Proof.
  intros Hreach.
  induction Hreach as [db|[db st] e Hreach IH Hen].
  - intros s i _ Hlt. cbn in Hlt.
    apply position_lt_same_section in Hlt as [[_ H]|[_ H]]; [discriminate|lia].
  - pose proof (page_reachable_inv _ _ _ _ _ Hreach) as [Ha _].
    cbn [snd] in *. destruct e as [value| |]; cbn [AssessmentPage.handle snd].
    + intros s i Hi Hlt. cbn [AssessmentPage.handleAnswerChange
        AssessmentPage.answers AssessmentPage.currentSection
        AssessmentPage.currentQuestionIndex] in *.
      destruct (decide (AssessmentPage.questionKey (AssessmentPage.currentSection st)
                          (AssessmentPage.currentQuestionIndex st)
                        = AssessmentPage.questionKey s (Z.of_nat i))) as [->|Hne].
      * rewrite lookup_insert_eq. eauto.
      * rewrite lookup_insert_ne by exact Hne. exact (IH s i Hi Hlt).
    + destruct (page_next_enabled st Hen) as [Hr Hcur].
      destruct (page_current_questions a st Ha Hr) as (qs & Hqs & Hlen & _ & Htot).
      unfold AssessmentPage.handleNext. rewrite Hqs.
      destruct (Z.ltb_spec (AssessmentPage.currentQuestionIndex st)
                  (Z.of_nat (length qs) - 1)) as [Hidx|Hidx]; cbn [fst snd].
      * intros s i Hi Hlt. cbn in Hlt |- *.
        apply position_lt_same_section in Hlt as [[-> Ht]|[-> Hlt]].
        -- apply (IH _ i Hi). rewrite Ht. left. cbn. lia.
        -- destruct (decide (Z.of_nat i = AssessmentPage.currentQuestionIndex st))
             as [->|Hne]; [exact Hcur|].
           apply (IH _ i Hi). right. split; [reflexivity|cbn; lia].
      * destruct (AssessmentPage.currentSection st) eqn:Hsec; cbn [fst snd].
        -- intros s i Hi Hlt. cbn in Hlt |- *.
           apply position_lt_same_section in Hlt as [[-> _]|[-> Hlt]]; [|lia].
           destruct (decide (Z.of_nat i = AssessmentPage.currentQuestionIndex st))
             as [E|Hne]; [rewrite E; exact Hcur|].
           apply (IH _ i Hi). rewrite Hsec. right. split; [reflexivity|cbn; lia].
        -- unfold AssessmentPage.handleSubmit. rewrite Htot. cbn [fst snd].
           intros s i Hi Hlt. exact (IH s i Hi Hlt).
    + unfold AssessmentPage.handlePrevious.
      destruct (Z.ltb_spec 0 (AssessmentPage.currentQuestionIndex st)) as [Hidx|Hidx].
      * intros s i Hi Hlt. cbn in Hlt |- *.
        apply (IH s i Hi).
        apply position_lt_same_section in Hlt as [[-> Ht]|[-> Hlt]].
        -- rewrite Ht. left. cbn. lia.
        -- right. split; [reflexivity|cbn; lia].
      * destruct (AssessmentPage.currentSection st) eqn:Hsec.
        -- exact IH.
        -- intros s i Hi Hlt. cbn in Hlt |- *.
           apply position_lt_same_section in Hlt as [[_ H]|[-> Hlt]]; [discriminate|].
           apply (IH _ i Hi). rewrite Hsec. left. cbn. lia.
Qed.

Lemma filter_all_length {A} (P : A → Prop) `{∀ x, Decision (P x)} (l : list A) :
  (∀ x, x ∈ l → P x) → length (filter P l) = length l.
Proof.
  induction l as [|x l IH]; intros Hall; [reflexivity|].
  rewrite filter_cons_True by (apply Hall; left). simpl. f_equal.
  apply IH. intros y Hy. apply Hall. right. exact Hy.
Qed.

(** The submission of the page comes with every answer. *)
Lemma page_submission_complete (db0 db : Db.store) (t0 db_now : Z)
    (user : option string) (assessmentId : string) (a : AssessmentPage.Assessment)
    (st : AssessmentPage.state) (r : Assessments.row) :
  AssessmentPage.reachable t0 user assessmentId a (db0, st) →
  AssessmentPage.enabled st AssessmentPage.Next = true →
  AssessmentPage.route
    (snd (AssessmentPage.handle db_now user assessmentId AssessmentPage.Next (db, st)))
  = Some "/assessment-complete" →
  Db.assessments db !! assessmentId = Some r →
  Rls.can_update user r = true →
  (∀ k, k ∈ page_question_keys (AssessmentPage.questions a)
        ↔ is_Some (AssessmentPage.answers st !! k))
  ∧ ∃ r',
      Db.assessments
        (fst (AssessmentPage.handle db_now user assessmentId AssessmentPage.Next (db, st)))
        !! assessmentId = Some r'
      ∧ Assessments.score r' = Some 100
      ∧ Assessments.responses r' = Some (AssessmentPage.answers st)
      ∧ Assessments.status r' = Assessments.completed.
Proof.
  intros Hreach Hen Hroute Hrow Hup.
  pose proof (page_reachable_inv _ _ _ _ _ Hreach) as [Ha Hk].
  pose proof (page_reachable_before _ _ _ _ _ Hreach) as Hbefore. cbn [snd] in *.
  destruct (page_next_enabled st Hen) as [Hr Hcur].
  destruct (page_current_questions a st Ha Hr) as (qs & Hqs & Hlen & Hnone & Htot).
  cbn [AssessmentPage.handle] in *. unfold AssessmentPage.handleNext in *.
  rewrite Hqs in *.
  destruct (Z.ltb_spec (AssessmentPage.currentQuestionIndex st)
              (Z.of_nat (length qs) - 1)) as [Hidx|Hidx];
    [cbn in Hroute; congruence|].
  destruct (AssessmentPage.currentSection st) eqn:Hsec;
    [cbn in Hroute; congruence|].
  assert (Hall : ∀ k, k ∈ page_question_keys (AssessmentPage.questions a) →
                      is_Some (AssessmentPage.answers st !! k)).
  { intros k Hin. unfold page_question_keys in Hin.
    apply elem_of_app in Hin as [Hin|Hin]; unfold page_bucket_keys in Hin;
      apply list_elem_of_fmap in Hin as (i & -> & Hi); apply elem_of_seq in Hi.
    - apply Hbefore; [lia|]. rewrite Hsec. left. cbn. lia.
    - destruct (decide (Z.of_nat i = AssessmentPage.currentQuestionIndex st))
        as [E|Hne]; [rewrite E; exact Hcur|].
      apply Hbefore; [lia|]. rewrite Hsec. right. split; [reflexivity|cbn; lia]. }
  split; [intros k; split; [apply Hall|apply Hk]|].
  assert (Hpos : (0 < length (page_question_keys (AssessmentPage.questions a)))%nat).
  { apply Hk in Hcur. destruct (page_question_keys _); [inversion Hcur|simpl; lia]. }
  destruct (page_submission_score db0 db t0 db_now user assessmentId a st r
              Hreach Hrow Hup Hpos) as (r' & H1 & H2 & H3 & H4).
  exists r'. split; [exact H1|]. split; [|split; assumption].
  rewrite H2. unfold page_answered.
  rewrite (filter_all_length _ _ Hall), (percentage_all _ Hpos).
  apply score_column_of_Z.
Qed.

(** X14. The page can only be submitted complete: whenever an enabled
    Next button leads to "/assessment-complete", every question of both
    buckets has an answer and nothing else has one, so the stored responses
    hold exactly one answer for each question and the stored score is 100.
    On the page the score carries no information. *)
Theorem X14_page_submission_is_complete (db0 db : Db.store) (t0 db_now : Z)
    (user : option string) (assessmentId : string) (a : AssessmentPage.Assessment)
    (st : AssessmentPage.state) (r : Assessments.row) :
  AssessmentPage.reachable t0 user assessmentId a (db0, st) →
  AssessmentPage.enabled st AssessmentPage.Next = true →
  AssessmentPage.route
    (snd (AssessmentPage.handle db_now user assessmentId AssessmentPage.Next (db, st)))
  = Some "/assessment-complete" →
  Db.assessments db !! assessmentId = Some r →
  Rls.can_update user r = true →
  (∀ k, k ∈ page_question_keys (AssessmentPage.questions a)
        ↔ is_Some (AssessmentPage.answers st !! k))
  ∧ ∃ r',
      Db.assessments
        (fst (AssessmentPage.handle db_now user assessmentId AssessmentPage.Next (db, st)))
        !! assessmentId = Some r'
      ∧ Assessments.score r' = Some 100
      ∧ Assessments.responses r' = Some (AssessmentPage.answers st)
      ∧ Assessments.status r' = Assessments.completed.
Proof. apply page_submission_complete. Qed.

(** The applicant reaches the last question of the page with all answers. *)
Lemma scenario_page_before_submit :
  AssessmentPage.reachable (Scenario.t0 + 60000) Scenario.applicant "assessment-1"
    Scenario.in_page
    (Scenario.page_run (Scenario.t0 + 60000) (take 7 Scenario.page_events)
       (Scenario.generated, Scenario.page_tab)).
Proof.
  apply run_reachable.
  - assert (E : Scenario.page_tab = page_loaded Scenario.in_page)
      by (vm_compute; reflexivity).
    rewrite E. apply AssessmentPage.reach_loaded.
  - vm_compute. reflexivity.
Qed.

(** X14 on the worked example: the fourth answer is given and Next is
    pressed. *)
Lemma X14_page_submission_is_complete_witness :
  ∃ r',
    Db.assessments Scenario.page_submitted_once !! "assessment-1" = Some r'
    ∧ Assessments.score r' = Some 100.
Proof.
  destruct (X14_page_submission_is_complete
              (fst (Scenario.page_run (Scenario.t0 + 60000) (take 7 Scenario.page_events)
                      (Scenario.generated, Scenario.page_tab)))
              Scenario.generated (Scenario.t0 + 60000) (Scenario.t0 + 60000)
              Scenario.applicant "assessment-1" Scenario.in_page
              (snd (Scenario.page_run (Scenario.t0 + 60000) (take 7 Scenario.page_events)
                      (Scenario.generated, Scenario.page_tab)))
              Scenario.generated_row)
    as (_ & r' & H1 & H2 & _).
  - rewrite <- surjective_pairing. exact scenario_page_before_submit.
  - vm_compute. reflexivity.
  - vm_compute. reflexivity.
  - vm_compute. reflexivity.
  - vm_compute. reflexivity.
  - exists r'. split; [|exact H2]. rewrite <- H1. vm_compute. reflexivity.
Defined.

(** With no question in the first bucket the loaded page offers nothing. *)
Lemma page_loaded_disabled (a : AssessmentPage.Assessment) (e : AssessmentPage.event) :
  AssessmentPage.length_or_0
    (AssessmentPage.property (AssessmentPage.questions a) AssessmentPage.work_ethics)
  = 0%nat →
  AssessmentPage.enabled (page_loaded a) e = false.
Proof.
  intros Hwe. unfold AssessmentPage.enabled.
  destruct (AssessmentPage.rendered (page_loaded a)) eqn:Hr; [|reflexivity].
  destruct e as [value| |]; cbn [andb].
  - unfold AssessmentPage.currentQuestion, AssessmentPage.getCurrentQuestions.
    cbn [page_loaded AssessmentPage.assessment AssessmentPage.currentSection
         AssessmentPage.currentQuestionIndex].
    destruct (AssessmentPage.is_null (AssessmentPage.questions a)); [reflexivity|].
    destruct (AssessmentPage.property (AssessmentPage.questions a)
                AssessmentPage.work_ethics) as [[|q qs]|]; try reflexivity.
    discriminate.
  - reflexivity.
  - reflexivity.
Qed.

(** With no question in the second bucket no step submits. *)
Lemma page_step_without_technical_inv (db_now : Z) (user : option string)
    (assessmentId : string) (a : AssessmentPage.Assessment) (db : Db.store)
    (st : AssessmentPage.state) (e : AssessmentPage.event) :
  AssessmentPage.length_or_0
    (AssessmentPage.property (AssessmentPage.questions a) AssessmentPage.technical)
  = 0%nat →
  page_inv a st →
  AssessmentPage.enabled st e = true →
  fst (AssessmentPage.handle db_now user assessmentId e (db, st)) = db
  ∧ AssessmentPage.route (snd (AssessmentPage.handle db_now user assessmentId e (db, st)))
    = AssessmentPage.route st.
Proof.
  intros Htech [Ha Hk] Hen.
  destruct e as [value| |]; cbn [AssessmentPage.handle fst snd].
  - split; reflexivity.
  - destruct (page_next_enabled st Hen) as [Hr Hcur].
    destruct (page_current_questions a st Ha Hr) as (qs & Hqs & _).
    unfold AssessmentPage.handleNext. rewrite Hqs.
    destruct (_ <? _); [split; reflexivity|].
    destruct (AssessmentPage.currentSection st) eqn:Hsec; [split; reflexivity|].
    exfalso. apply Hk in Hcur. unfold page_question_keys in Hcur.
    apply elem_of_app in Hcur as [Hin|Hin]; unfold page_bucket_keys in Hin;
      apply list_elem_of_fmap in Hin as (i & Hkey & Hi).
    + apply questionKey_inj in Hkey as [Hkey _]. discriminate.
    + rewrite Htech in Hi. apply elem_of_seq in Hi. lia.
  - unfold AssessmentPage.handlePrevious.
    destruct (_ <? _); [split; reflexivity|].
    destruct (AssessmentPage.currentSection st); split; reflexivity.
Qed.

Lemma page_step_without_technical (db_now : Z) (user : option string)
    (assessmentId : string) (a : AssessmentPage.Assessment) (db0 db : Db.store)
    (st : AssessmentPage.state) (e : AssessmentPage.event) :
  AssessmentPage.length_or_0
    (AssessmentPage.property (AssessmentPage.questions a) AssessmentPage.technical)
  = 0%nat →
  AssessmentPage.reachable db_now user assessmentId a (db0, st) →
  AssessmentPage.enabled st e = true →
  fst (AssessmentPage.handle db_now user assessmentId e (db, st)) = db
  ∧ AssessmentPage.route (snd (AssessmentPage.handle db_now user assessmentId e (db, st)))
    = AssessmentPage.route st.
Proof.
  intros Htech Hreach Hen.
  apply (page_step_without_technical_inv db_now user assessmentId a db st e Htech);
    [|exact Hen].
  exact (page_reachable_inv _ _ _ _ _ Hreach).
Qed.

(** X15. The page needs both buckets. When the payload has no question in
    [work_ethics] (a flat array, a missing or an empty bucket), the loaded page
    offers no event at all; when it has none in [technical], whatever the
    applicant does, nothing is ever submitted: the store stays as it was and
    the page never leaves for "/assessment-complete". *)
Theorem X15_page_needs_both_buckets (db_now : Z) (user : option string)
    (assessmentId : string) (a : AssessmentPage.Assessment) (db : Db.store)
    (es : list AssessmentPage.event) :
  AssessmentPage.length_or_0
    (AssessmentPage.property (AssessmentPage.questions a) AssessmentPage.work_ethics)
  = 0%nat
  ∨ AssessmentPage.length_or_0
      (AssessmentPage.property (AssessmentPage.questions a) AssessmentPage.technical)
    = 0%nat →
  AssessmentPage.run_enabled db_now user assessmentId es (db, page_loaded a) = true →
  fst (AssessmentPage.run db_now user assessmentId es (db, page_loaded a)) = db
  ∧ AssessmentPage.route
      (snd (AssessmentPage.run db_now user assessmentId es (db, page_loaded a)))
    = None
  ∧ (AssessmentPage.length_or_0
       (AssessmentPage.property (AssessmentPage.questions a) AssessmentPage.work_ethics)
     = 0%nat → es = []).
Proof.
  intros Hempty Hen.
  assert (Hwe : AssessmentPage.length_or_0
                  (AssessmentPage.property (AssessmentPage.questions a)
                     AssessmentPage.work_ethics) = 0%nat → es = []).
  { intros Hwe. destruct es as [|e es]; [reflexivity|].
    cbn [AssessmentPage.run_enabled snd] in Hen. rewrite (page_loaded_disabled a e Hwe) in Hen. discriminate. }
  destruct Hempty as [H|Htech].
  - rewrite (Hwe H). split_and!; [reflexivity|reflexivity|auto].
  - assert (Hgen : ∀ es st,
      AssessmentPage.reachable db_now user assessmentId a (db, st) →
      AssessmentPage.route st = None →
      AssessmentPage.run_enabled db_now user assessmentId es (db, st) = true →
      fst (AssessmentPage.run db_now user assessmentId es (db, st)) = db
      ∧ AssessmentPage.route
          (snd (AssessmentPage.run db_now user assessmentId es (db, st))) = None).
    { clear es Hen Hwe. induction es as [|e es IH]; intros st Hreach Hroute Hen.
      - split; [reflexivity|exact Hroute].
      - cbn [AssessmentPage.run_enabled snd] in Hen.
        apply andb_true_iff in Hen as [He Hes].
        destruct (page_step_without_technical db_now user assessmentId a db db st e
                    Htech Hreach He) as [Hdb Hr].
        pose proof (AssessmentPage.reach_step db_now user assessmentId a (db, st) e
                      Hreach He) as Hreach'.
        destruct (AssessmentPage.handle db_now user assessmentId e (db, st))
          as [db' st'] eqn:Hh.
        cbn [fst snd] in Hdb, Hr. subst db'.
        change (AssessmentPage.run db_now user assessmentId (e :: es) (db, st))
          with (AssessmentPage.run db_now user assessmentId es
                  (AssessmentPage.handle db_now user assessmentId e (db, st))).
        rewrite Hh. apply IH; [exact Hreach'|congruence|exact Hes]. }
    destruct (Hgen es (page_loaded a)) as [H1 H2];
      [apply AssessmentPage.reach_loaded|reflexivity|exact Hen|].
    split_and!; assumption.
Qed.

(** X15 on a payload stored as a flat array. *)
Lemma X15_page_needs_both_buckets_witness :
  let a := {| AssessmentPage.data := Scenario.generated_row;
              AssessmentPage.questions :=
                Assessments.JArray
                  (AssessmentModal.questionsArray GenerateAssessment.defaultQuestions) |} in
  fst (AssessmentPage.run Scenario.t0 Scenario.applicant "assessment-1" []
         (Scenario.generated, page_loaded a)) = Scenario.generated
  ∧ AssessmentPage.enabled (page_loaded a) (AssessmentPage.Select "Plan ahead") = false.
Proof.
  cbv zeta. split.
  - apply (X15_page_needs_both_buckets Scenario.t0 Scenario.applicant "assessment-1"
             {| AssessmentPage.data := Scenario.generated_row;
                AssessmentPage.questions :=
                  Assessments.JArray
                    (AssessmentModal.questionsArray GenerateAssessment.defaultQuestions) |}
             Scenario.generated []).
    + left. reflexivity.
    + reflexivity.
  - vm_compute. reflexivity.
Defined.

(** X16. On the page the progress never passes the end: in every state
    the applicant can reach, the number of answers is the number of answered
    questions and at most the number of questions, and every answer is the
    answer to a question of the payload. *)
Theorem X16_page_progress_is_bounded (db_now : Z) (user : option string)
    (assessmentId : string) (a : AssessmentPage.Assessment) (db : Db.store)
    (st : AssessmentPage.state) :
  AssessmentPage.reachable db_now user assessmentId a (db, st) →
  AssessmentPage.getCompletedQuestions st
  = page_answered (AssessmentPage.answers st) (AssessmentPage.questions a)
  ∧ (AssessmentPage.getCompletedQuestions st
     <= length (page_question_keys (AssessmentPage.questions a)))%nat
  ∧ match AssessmentPage.getTotalQuestions st with
    | Some total => (AssessmentPage.getCompletedQuestions st <= total)%nat
    | None => AssessmentPage.getCompletedQuestions st = 0%nat
    end.
Proof.
  intros Hreach.
  pose proof (page_reachable_inv _ _ _ _ _ Hreach) as Hinv. cbn [snd] in Hinv.
  pose proof (page_completed_is_answered a st Hinv) as Hc.
  pose proof (page_answered_le (AssessmentPage.answers st) (AssessmentPage.questions a))
    as Hle.
  destruct Hinv as [Ha _].
  split; [exact Hc|]. rewrite Hc. split; [exact Hle|].
  unfold AssessmentPage.getTotalQuestions. rewrite Ha.
  destruct (AssessmentPage.is_null (AssessmentPage.questions a)) eqn:Hnull.
  - destruct (AssessmentPage.questions a); try discriminate.
    cbn in Hle. cbn. lia.
  - rewrite <- page_question_keys_length. exact Hle.
Qed.

(** X16 on the page with three answers. *)
Lemma X16_page_progress_is_bounded_witness :
  (AssessmentPage.getCompletedQuestions Scenario.page_three_answered <= 4)%nat.
Proof.
  destruct (X16_page_progress_is_bounded (Scenario.t0 + 60000) Scenario.applicant
              "assessment-1" Scenario.in_page
              (fst (Scenario.page_run (Scenario.t0 + 60000) (take 6 Scenario.page_events)
                      (Scenario.generated, Scenario.page_tab)))
              Scenario.page_three_answered) as (_ & H & _).
  - exact scenario_page_reachable.
  - exact H.
Defined.

(** ** The modal *)

Lemma pretty_Z_of_nat (n : nat) : pretty (Z.of_nat n) = pretty n.
Proof. destruct n; reflexivity. Qed.

Lemma modal_questionKey_inj (i j : nat) :
  AssessmentModal.questionKey i = AssessmentModal.questionKey j → i = j.
Proof.
  unfold AssessmentModal.questionKey. intros H.
  apply (inj (String.append "question_")) in H. exact (pretty_nat_inj _ _ H).
Qed.

Lemma modal_inv_current (a : AssessmentModal.Assessment) (st : AssessmentModal.state) :
  modal_inv a st →
  ModalNavigation.questions_length st = Z.of_nat (length (AssessmentModal.questions a))
  ∧ is_Some (ModalNavigation.currentQuestion st)
  ∧ ModalNavigation.currentKey st
    = AssessmentModal.questionKey (Z.to_nat (AssessmentModal.currentQuestionIndex st)).
Proof.
  intros (Ha & Hidx & _). split_and!.
  - unfold ModalNavigation.questions_length. rewrite Ha. reflexivity.
  - unfold ModalNavigation.currentQuestion, AssessmentPage.at_index. rewrite Ha.
    cbn [mbind option_bind].
    destruct (Z.ltb_spec (AssessmentModal.currentQuestionIndex st) 0); [lia|].
    apply lookup_lt_is_Some. lia.
  - unfold ModalNavigation.currentKey, AssessmentModal.questionKey.
    rewrite <- pretty_Z_of_nat, Z2Nat.id by lia. reflexivity.
Qed.

(** Every event of the modal keeps the index on a question and the responses
    on questions. *)
Lemma modal_step_inv (now db_now : Z) (user : option string) (assessmentId : string)
    (a : AssessmentModal.Assessment) (db : Db.store) (st : AssessmentModal.state)
    (e : ModalNavigation.event) :
  modal_inv a st →
  ModalNavigation.enabled st e = true →
  modal_inv a (snd (ModalNavigation.handle now db_now user assessmentId e (db, st))).
Proof.
  intros Hinv Hen.
  destruct (modal_inv_current a st Hinv) as (Hlen & _ & Hkey).
  destruct Hinv as (Ha & Hidx & Hk).
  apply andb_true_iff in Hen as [_ Hen].
  destruct e as [value| | |index|]; cbn [ModalNavigation.handle snd].
  - refine (conj Ha (conj Hidx _)). intros k Hsome.
    cbn [AssessmentModal.handleResponseChange AssessmentModal.responses] in Hsome.
    destruct (decide (ModalNavigation.currentKey st = k)) as [<-|Hne].
    + exists (Z.to_nat (AssessmentModal.currentQuestionIndex st)).
      split; [lia|exact Hkey].
    + rewrite lookup_insert_ne in Hsome by exact Hne. exact (Hk k Hsome).
  - unfold ModalNavigation.handleNext. rewrite Hlen.
    destruct (Z.ltb_spec (AssessmentModal.currentQuestionIndex st)
                (Z.of_nat (length (AssessmentModal.questions a)) - 1));
      (refine (conj Ha (conj _ Hk)); cbn; lia).
  - unfold ModalNavigation.handlePrevious.
    destruct (Z.ltb_spec 0 (AssessmentModal.currentQuestionIndex st));
      (refine (conj Ha (conj _ Hk)); cbn; lia).
  - rewrite Hlen in Hen. apply Z.ltb_lt in Hen.
    refine (conj Ha (conj _ Hk)); cbn; lia.
  - unfold AssessmentModal.handleSubmit. rewrite Ha. cbn [fst snd].
    exact (conj Ha (conj Hidx Hk)).
Qed.

Lemma modal_run_inv (now db_now : Z) (user : option string) (assessmentId : string)
    (a : AssessmentModal.Assessment) (es : list ModalNavigation.event)
    (s : Db.store * AssessmentModal.state) :
  modal_inv a (snd s) →
  ModalNavigation.run_enabled now db_now user assessmentId es s = true →
  modal_inv a (snd (ModalNavigation.run now db_now user assessmentId es s)).
Proof.
  revert s. induction es as [|e es IH]; intros [db st] Hinv Hen; [exact Hinv|].
  cbn [ModalNavigation.run_enabled snd] in Hen.
  apply andb_true_iff in Hen as [He Hes].
  change (ModalNavigation.run now db_now user assessmentId (e :: es) (db, st))
    with (ModalNavigation.run now db_now user assessmentId es
            (ModalNavigation.handle now db_now user assessmentId e (db, st))).
  apply IH; [|exact Hes]. apply modal_step_inv; assumption.
Qed.

(** X17. In the modal, whatever the applicant does after an assessment
    with at least one question has loaded (answer, Next, Previous, a jump from
    the overview, Submit), the index stays on an existing question, so the
    "Question Not Found" notice is never reached; every stored response is the
    response to one of the questions; and the progress shown is above 0 and at
    most 100 per cent. *)
Theorem X17_modal_navigation_stays_in_range (now db_now : Z) (user : option string)
    (assessmentId : string) (a : AssessmentModal.Assessment) (timeLeft : Z)
    (db : Db.store) (es : list ModalNavigation.event) :
  (0 < length (AssessmentModal.questions a))%nat →
  ModalNavigation.run_enabled now db_now user assessmentId es
    (db, modal_loaded a timeLeft) = true →
  let st := snd (ModalNavigation.run now db_now user assessmentId es
                   (db, modal_loaded a timeLeft)) in
  0 <= AssessmentModal.currentQuestionIndex st
       < Z.of_nat (length (AssessmentModal.questions a))
  ∧ is_Some (ModalNavigation.currentQuestion st)
  ∧ (∀ k, is_Some (AssessmentModal.responses st !! k) →
          ∃ i, (i < length (AssessmentModal.questions a))%nat
               ∧ k = AssessmentModal.questionKey i)
  ∧ (size (AssessmentModal.responses st) <= length (AssessmentModal.questions a))%nat
  ∧ ∃ p, ModalNavigation.getProgressPercentage st = JS.Fin p ∧ (0 < p)%Q ∧ (p <= 100)%Q.
Proof.
  intros Hn Hen. cbv zeta.
  assert (H0 : modal_inv a (snd (db, modal_loaded a timeLeft))).
  { refine (conj eq_refl (conj _ _)); [cbn; lia|]. intros k [v Hv]. cbn in Hv.
    rewrite lookup_empty in Hv. discriminate. }
  pose proof (modal_run_inv now db_now user assessmentId a es _ H0 Hen) as Hinv.
  set (st := snd (ModalNavigation.run now db_now user assessmentId es
                    (db, modal_loaded a timeLeft))) in *.
  destruct (modal_inv_current a st Hinv) as (Hlen & Hcur & _).
  destruct Hinv as (Ha & Hidx & Hk).
  split_and!; [lia|lia|exact Hcur|exact Hk| |].
  - rewrite <- size_dom.
    transitivity (size (list_to_set (C := gset string)
                          (AssessmentModal.questionKey
                             <$> seq 0 (length (AssessmentModal.questions a))))).
    + apply subseteq_size. intros k Hin. apply elem_of_dom in Hin.
      destruct (Hk k Hin) as (i & Hi & ->).
      apply elem_of_list_to_set, list_elem_of_fmap. exists i.
      split; [reflexivity|apply elem_of_seq; lia].
    + rewrite size_list_to_set.
      * rewrite length_fmap, length_seq. reflexivity.
      * apply NoDup_fmap_2; [|apply NoDup_seq].
        intros i j. apply modal_questionKey_inj.
  - unfold ModalNavigation.getProgressPercentage. rewrite Hlen.
    destruct (Z.eqb_spec (Z.of_nat (length (AssessmentModal.questions a))) 0); [lia|].
    assert (Hpos : (0 < inject_Z (Z.of_nat (length (AssessmentModal.questions a))))%Q).
    { change 0%Q with (inject_Z 0). rewrite <- Zlt_Qlt. lia. }
    unfold JS.of_Z at 1. rewrite (div_Fin_pos _ _ Hpos). cbn [JS.mul JS.of_Z].
    eexists. split; [reflexivity|].
    assert (H1 : (0 < inject_Z (AssessmentModal.currentQuestionIndex st + 1))%Q).
    { change 0%Q with (inject_Z 0). rewrite <- Zlt_Qlt. lia. }
    assert (H2 : (inject_Z (AssessmentModal.currentQuestionIndex st + 1)
                  <= inject_Z (Z.of_nat (length (AssessmentModal.questions a))))%Q).
    { rewrite <- Zle_Qle. lia. }
    set (x := inject_Z (AssessmentModal.currentQuestionIndex st + 1)) in *.
    set (y := inject_Z (Z.of_nat (length (AssessmentModal.questions a)))) in *.
    change (inject_Z 100) with 100%Q.
    assert (H3 : (0 < x / y)%Q) by (apply Qlt_shift_div_l; lra).
    assert (H4 : (x / y <= 1)%Q) by (apply Qle_shift_div_r; lra).
    split; lra.
Qed.

(** X17 on the default assessment: answer, go on, jump back, go back. *)
Lemma X17_modal_navigation_stays_in_range_witness :
  let st := snd (ModalNavigation.run Scenario.t0 Scenario.t0 Scenario.applicant
                   "assessment-1"
                   [ModalNavigation.Answer "Plan ahead"; ModalNavigation.Next;
                    ModalNavigation.Jump 3; ModalNavigation.Previous]
                   (Scenario.generated, modal_loaded Scenario.in_modal 604799)) in
  0 <= AssessmentModal.currentQuestionIndex st < 4
  ∧ is_Some (ModalNavigation.currentQuestion st).
Proof.
  cbv zeta.
  destruct (X17_modal_navigation_stays_in_range Scenario.t0 Scenario.t0
              Scenario.applicant "assessment-1" Scenario.in_modal 604799
              Scenario.generated
              [ModalNavigation.Answer "Plan ahead"; ModalNavigation.Next;
               ModalNavigation.Jump 3; ModalNavigation.Previous])
    as (H1 & H2 & _).
  - vm_compute. lia.
  - vm_compute. reflexivity.
  - split; [exact H1|exact H2].
Defined.

Lemma modal_is_answered_insert (r : gmap string string) (i j : nat) (v : string) :
  modal_is_answered (<[AssessmentModal.questionKey i := v]> r) j
  = if decide (i = j) then negb (String.eqb (Str.trim v) "")
    else modal_is_answered r j.
Proof.
  unfold modal_is_answered. destruct (decide (i = j)) as [->|Hne].
  - rewrite lookup_insert_eq. reflexivity.
  - rewrite lookup_insert_ne; [reflexivity|].
    intros H. apply Hne. exact (modal_questionKey_inj _ _ H).
Qed.

(** Changing a predicate at one index changes the count by that index. *)
Lemma count_changed_at (P P' : nat → bool) (i : nat) :
  (∀ j, j ≠ i → P' j = P j) →
  ∀ m k,
    (length (List.filter P' (seq k m))
     + (if P i && (k <=? i)%nat && (i <? k + m)%nat then 1 else 0)
     = length (List.filter P (seq k m))
       + (if P' i && (k <=? i)%nat && (i <? k + m)%nat then 1 else 0))%nat.
Proof.
  intros Hother. induction m as [|m IH]; intros k.
  - cbn [seq List.filter length].
    assert (E : ((k <=? i)%nat && (i <? k + 0)%nat) = false).
    { destruct (Nat.leb_spec k i), (Nat.ltb_spec i (k + 0)); try reflexivity. lia. }
    rewrite <- !andb_assoc, E, !andb_false_r. reflexivity.
  - cbn [seq List.filter]. specialize (IH (S k)).
    destruct (decide (k = i)) as [->|Hne].
    + assert (E1 : ((S i <=? i)%nat && (i <? S i + m)%nat) = false).
      { destruct (Nat.leb_spec (S i) i); [lia|reflexivity]. }
      assert (E2 : ((i <=? i)%nat && (i <? i + S m)%nat) = true).
      { destruct (Nat.leb_spec i i), (Nat.ltb_spec i (i + S m)); try reflexivity; lia. }
      rewrite <- !andb_assoc, E1, !andb_false_r in IH.
      rewrite <- !andb_assoc, E2, !andb_true_r.
      destruct (P i), (P' i); cbn [length]; lia.
    + rewrite (Hother k Hne).
      assert (E : ((k <=? i)%nat && (i <? k + S m)%nat)
                  = ((S k <=? i)%nat && (i <? S k + m)%nat)).
      { destruct (Nat.leb_spec k i), (Nat.ltb_spec i (k + S m)),
          (Nat.leb_spec (S k) i), (Nat.ltb_spec i (S k + m)); try reflexivity; lia. }
      rewrite <- !andb_assoc, E, !andb_assoc.
      destruct (P k); cbn [length]; lia.
Qed.

Lemma of_Z_inj (z z' : Z) : JS.of_Z z = JS.of_Z z' → z = z'.
Proof. unfold JS.of_Z, inject_Z. intros [= H]. exact H. Qed.

(** One more answer never lowers the percentage. *)
Lemma percentage_step (c total : nat) (z z' : Z) :
  (S c <= total)%nat → Z.of_nat total < 2 ^ 32 →
  percentage c total = JS.of_Z z →
  percentage (S c) total = JS.of_Z z' →
  z <= z'.
Proof.
  intros Hc Hb Hz Hz'.
  assert (Ht : (0 < total)%nat) by lia.
  destruct (percentage_spec c total Ht) as (y & Hy & _ & Hnear & _); [lia|exact Hb|].
  destruct (percentage_spec (S c) total Ht Hc Hb) as (y' & Hy' & _ & Hnear' & Htie').
  rewrite Hy in Hz. apply of_Z_inj in Hz. subst y.
  rewrite Hy' in Hz'. apply of_Z_inj in Hz'. subst y'.
  destruct (completion_rate_step c total Ht) as [Hmono Hstrict].
  destruct (half_way (S c) total) eqn:Hh.
  - unfold half_way in Hh. apply Z.eqb_eq in Hh. specialize (Hstrict Hh). lia.
  - specialize (Htie' eq_refl). lia.
Qed.

(** X18. How an input changes the modal's score. The count of answered
    questions moves by the one question that was changed: up by one when a
    non-blank text replaces nothing or a blank, down by one when a text of
    nothing but white space replaces an answer, not at all otherwise. With
    fewer than [2^32] questions, the score before and after is an integer
    between 0 and 100, the completion rate of the count or the integer below
    it; a new answer never lowers it; it is 0 with no answer and 100 with
    all. *)
Theorem X18_modal_score_follows_the_answers (st : AssessmentModal.state)
    (a : AssessmentModal.Assessment) (i : nat) (v : string) :
  AssessmentModal.assessment st = Some a →
  (i < length (AssessmentModal.questions a))%nat →
  Z.of_nat (length (AssessmentModal.questions a)) < 2 ^ 32 →
  let total := length (AssessmentModal.questions a) in
  let st' := AssessmentModal.handleResponseChange (AssessmentModal.questionKey i) v st in
  let before := modal_answered (AssessmentModal.responses st) total in
  let after := modal_answered (AssessmentModal.responses st') total in
  (after + (if modal_is_answered (AssessmentModal.responses st) i then 1 else 0)
   = before + (if String.eqb (Str.trim v) "" then 0 else 1))%nat
  ∧ ∃ z z',
      AssessmentModal.calculateScore st = JS.of_Z z
      ∧ AssessmentModal.calculateScore st' = JS.of_Z z'
      ∧ 0 <= z <= 100 ∧ 0 <= z' <= 100
      ∧ completion_rate before total - 1 <= z <= completion_rate before total
      ∧ completion_rate after total - 1 <= z' <= completion_rate after total
      ∧ (modal_is_answered (AssessmentModal.responses st) i = false → z <= z')
      ∧ (before = 0%nat → z = 0)
      ∧ (after = total → z' = 100).
Proof.
  intros Ha Hi Hb. cbv zeta.
  assert (Hn : (0 < length (AssessmentModal.questions a))%nat) by lia.
  pose proof (count_changed_at
                (modal_is_answered (AssessmentModal.responses st))
                (modal_is_answered
                   (<[AssessmentModal.questionKey i := v]> (AssessmentModal.responses st)))
                i) as Hcount.
  assert (Hother : ∀ j, j ≠ i →
            modal_is_answered
              (<[AssessmentModal.questionKey i := v]> (AssessmentModal.responses st)) j
            = modal_is_answered (AssessmentModal.responses st) j).
  { intros j Hj. rewrite modal_is_answered_insert.
    destruct (decide (i = j)) as [E|_]; [|reflexivity].
    exfalso. apply Hj. symmetry. exact E. }
  specialize (Hcount Hother).
  specialize (Hcount (length (AssessmentModal.questions a)) 0%nat).
  rewrite modal_is_answered_insert, decide_True in Hcount by reflexivity.
  assert (E : ((0 <=? i)%nat && (i <? 0 + length (AssessmentModal.questions a))%nat)
              = true).
  { destruct (Nat.leb_spec 0 i), (Nat.ltb_spec i (0 + length (AssessmentModal.questions a)));
      try reflexivity; lia. }
  rewrite <- !andb_assoc, E, !andb_true_r in Hcount.
  fold (modal_answered (AssessmentModal.responses st)
          (length (AssessmentModal.questions a))) in Hcount.
  fold (modal_answered
          (<[AssessmentModal.questionKey i := v]> (AssessmentModal.responses st))
          (length (AssessmentModal.questions a))) in Hcount.
  cbn [AssessmentModal.handleResponseChange AssessmentModal.responses].
  set (total := length (AssessmentModal.questions a)) in *.
  set (before := modal_answered (AssessmentModal.responses st) total) in *.
  set (after := modal_answered
                  (<[AssessmentModal.questionKey i := v]> (AssessmentModal.responses st))
                  total) in *.
  assert (Hcount' : (after + (if modal_is_answered (AssessmentModal.responses st) i
                              then 1 else 0)
                     = before + (if String.eqb (Str.trim v) "" then 0 else 1))%nat).
  { destruct (String.eqb (Str.trim v) ""); cbn [negb] in Hcount; exact Hcount. }
  split; [exact Hcount'|].
  pose proof (modal_answered_le (AssessmentModal.responses st) total) as Hle.
  pose proof (modal_answered_le
                (<[AssessmentModal.questionKey i := v]> (AssessmentModal.responses st))
                total) as Hle'.
  fold before in Hle. fold after in Hle'.
  destruct (percentage_spec before total Hn Hle Hb) as (z & Hz & Hr & Hnear & _).
  destruct (percentage_spec after total Hn Hle' Hb) as (z' & Hz' & Hr' & Hnear' & _).
  exists z, z'. split_and!; try assumption; try lia.
  - rewrite (calculateScore_percentage st a Ha Hn). exact Hz.
  - rewrite (calculateScore_percentage
               (AssessmentModal.handleResponseChange (AssessmentModal.questionKey i) v st)
               a Ha Hn). exact Hz'.
  - intros Hun. rewrite Hun in Hcount'.
    destruct (String.eqb (Str.trim v) "").
    + assert (Eab : after = before) by lia. rewrite Eab in Hz'.
      rewrite Hz in Hz'. apply of_Z_inj in Hz'. lia.
    + assert (Eab : after = S before) by lia. rewrite Eab in Hz', Hle'.
      exact (percentage_step before total z z' Hle' Hb Hz Hz').
  - intros E0. rewrite E0, (percentage_none total Hn) in Hz.
    apply of_Z_inj in Hz. lia.
  - intros Et. rewrite Et, (percentage_all total Hn) in Hz'.
    apply of_Z_inj in Hz'. lia.
Qed.

(** X18 in the second tab: one answer out of four. *)
Lemma X18_modal_score_follows_the_answers_witness :
  ∃ z z',
    AssessmentModal.calculateScore Scenario.tab_2 = JS.of_Z z
    ∧ AssessmentModal.calculateScore Scenario.tab_2_answered = JS.of_Z z'
    ∧ z <= z'.
Proof.
  destruct (X18_modal_score_follows_the_answers Scenario.tab_2 Scenario.in_modal 0
              "Ask for help") as (_ & z & z' & H1 & H2 & _ & _ & _ & _ & H3 & _).
  - vm_compute. reflexivity.
  - vm_compute. lia.
  - vm_compute. reflexivity.
  - exists z, z'. split; [exact H1|]. split; [exact H2|]. apply H3.
    vm_compute. reflexivity.
Defined.

(** X19. The "Take Assessment" button and the guards of the two loaders
    agree, except at the very instant of expiry. For a stored assessment that
    is 'sent' or 'completed' and its applicant: when the button is shown,
    neither loader answers "completed" or "expired" (it loads, or the payload
    does not parse); when the button is hidden at any time other than
    [expires_at], both loaders refuse with one of these notices; at
    [expires_at] itself a 'sent' assessment has no button, yet both loaders
    still accept it. *)
Theorem X19_take_button_matches_the_load_guards
    (JSON_parse : string → option Assessments.questions_t)
    (db : Db.store) (now : Z) (id : string) (r : Assessments.row) :
  Db.assessments db !! id = Some r →
  Assessments.status r = Assessments.sent
  ∨ Assessments.status r = Assessments.completed →
  let user := Some (Assessments.applicant_id r) in
  let modal :=
    snd (AssessmentModal.fetchAssessment JSON_parse db now user id AssessmentModal.opened) in
  let page :=
    snd (AssessmentPage.fetchAssessment JSON_parse db now user id AssessmentPage.mounted) in
  let modal_accepts := modal = None ∨ modal = Some "Error loading assessment" in
  let page_accepts := page = None ∨ page = Some "Failed to load assessment" in
  let modal_refuses :=
    modal = Some "Assessment already completed" ∨ modal = Some "Assessment has expired" in
  let page_refuses :=
    page = Some "This assessment has already been completed"
    ∨ page = Some "This assessment has expired" in
  (ApplicantApplications.canTakeAssessment r now = true → modal_accepts ∧ page_accepts)
  ∧ (ApplicantApplications.canTakeAssessment r now = false →
     now ≠ Assessments.expires_at r → modal_refuses ∧ page_refuses)
  ∧ (now = Assessments.expires_at r → Assessments.status r = Assessments.sent →
     ApplicantApplications.canTakeAssessment r now = false
     ∧ modal_accepts ∧ page_accepts).
Proof.
  intros Hr Hst. cbv zeta.
  assert (Happl : Rls.is_applicant (Some (Assessments.applicant_id r)) r = true)
    by apply String.eqb_refl.
  unfold ApplicantApplications.canTakeAssessment,
    AssessmentModal.fetchAssessment, AssessmentPage.fetchAssessment,
    Rls.select_by_id, Rls.can_select.
  rewrite Hr. cbv iota beta. rewrite Happl, orb_true_r. cbv iota beta.
  rewrite Happl. cbv iota beta.
  destruct (Z.ltb_spec now (Assessments.expires_at r)) as [Hlt|Hge],
    (Z.ltb_spec (Assessments.expires_at r) now) as [Hlt'|Hge'];
    try lia;
    destruct Hst as [-> | ->];
    destruct (AssessmentModal.parsedQuestions JSON_parse (Assessments.questions r));
    cbn [snd];
    (split; [intros H|split; [intros H Hne|intros He Hs]]);
    try discriminate; try lia; auto.
Qed.

(** X19 on the worked example, one second after the generation. *)
Lemma X19_take_button_matches_the_load_guards_witness :
  snd (AssessmentPage.fetchAssessment Scenario.no_parse Scenario.generated
         (Scenario.t0 + 1000) Scenario.applicant "assessment-1" AssessmentPage.mounted)
  = None
  ∨ snd (AssessmentPage.fetchAssessment Scenario.no_parse Scenario.generated
           (Scenario.t0 + 1000) Scenario.applicant "assessment-1" AssessmentPage.mounted)
    = Some "Failed to load assessment".
Proof.
  destruct (X19_take_button_matches_the_load_guards Scenario.no_parse
              Scenario.generated (Scenario.t0 + 1000) "assessment-1"
              Scenario.generated_row) as (H & _ & _).
  - vm_compute. reflexivity.
  - left. reflexivity.
  - apply H. vm_compute. reflexivity.
Defined.

(** The recruiter's count for a payload that the modal can read. *)
Lemma getQuestionCount_parsed
    (JSON_parse : string → option Assessments.questions_t)
    (q parsed : Assessments.questions_t) :
  AssessmentModal.parsedQuestions JSON_parse q = Some parsed →
  q ≠ Assessments.JString "" →
  AssessmentResults.getQuestionCount JSON_parse q
  = match parsed with
    | Assessments.JObject None _ | Assessments.JObject _ None => 0%nat
    | _ => length (AssessmentModal.questionsArray parsed)
    end.
Proof.
  intros Hp Hq. unfold AssessmentResults.getQuestionCount.
  destruct q as [qs|we te| |b|n|s]; cbn in Hp.
  - injection Hp as <-. reflexivity.
  - injection Hp as <-. destruct we, te; cbn; try reflexivity.
    rewrite length_app. reflexivity.
  - injection Hp as <-. reflexivity.
  - injection Hp as <-. destruct b; reflexivity.
  - injection Hp as <-. cbn. destruct (negb (negb (Qeq_bool n 0))); reflexivity.
  - destruct s as [|c s]; [exfalso; apply Hq; reflexivity|].
    cbn [GenerateAssessment.truthy Str.truthy negb]. cbv iota. rewrite Hp.
    destruct parsed as [qs|[we|] [te|]| |b|n|s']; cbn; try reflexivity.
    rewrite length_app. reflexivity.
Qed.

(** X20. The recruiter's question count against what the applicant is shown.
    For a payload that the modal can read (stored as JSON, or as a non-empty
    text that parses), the count shown to the recruiter is the number of
    questions the modal presents, except for an object with only one of the
    two buckets: the modal presents that bucket, the recruiter reads 0. The
    recruiter's count is therefore never larger than the modal's. *)
Theorem X20_recruiter_question_count
    (JSON_parse : string → option Assessments.questions_t)
    (q parsed : Assessments.questions_t) :
  AssessmentModal.parsedQuestions JSON_parse q = Some parsed →
  q ≠ Assessments.JString "" →
  AssessmentResults.getQuestionCount JSON_parse q
  = match parsed with
    | Assessments.JObject None _ | Assessments.JObject _ None => 0%nat
    | _ => length (AssessmentModal.questionsArray parsed)
    end
  ∧ (AssessmentResults.getQuestionCount JSON_parse q
     <= length (AssessmentModal.questionsArray parsed))%nat.
Proof.
  intros Hp Hq. pose proof (getQuestionCount_parsed JSON_parse q parsed Hp Hq) as E.
  split; [exact E|]. rewrite E.
  destruct parsed as [qs|[we|] [te|]| |b|n|s']; cbn; lia.
Qed.

(** X20 on the default template: four questions on both sides. *)
Lemma X20_recruiter_question_count_witness :
  AssessmentResults.getQuestionCount Scenario.no_parse
    GenerateAssessment.defaultQuestions = 4%nat.
Proof.
  destruct (X20_recruiter_question_count Scenario.no_parse
              GenerateAssessment.defaultQuestions
              GenerateAssessment.defaultQuestions) as [H _].
  - reflexivity.
  - discriminate.
  - exact H.
Defined.

(** ** The job form *)

Lemma split_not_nil (sep : ascii) (s : string) : JobPostings.split sep s ≠ [].
Proof.
  destruct s as [|c s]; cbn; [discriminate|].
  destruct (Ascii.eqb c sep); [discriminate|].
  destruct (JobPostings.split sep s); discriminate.
Qed.

Lemma split_no_separator (sep : ascii) (s : string) :
  List.Forall (fun p => all_chars (fun c => negb (Ascii.eqb c sep)) p = true)
    (JobPostings.split sep s).
Proof.
  induction s as [|c s IH]; cbn.
  - constructor; [reflexivity|constructor].
  - destruct (Ascii.eqb c sep) eqn:Hc.
    + constructor; [reflexivity|exact IH].
    + destruct (JobPostings.split sep s) as [|h t].
      * constructor; [cbn; rewrite Hc; reflexivity|constructor].
      * inversion IH as [|? ? Hh Ht]; subst.
        constructor; [cbn; rewrite Hc, Hh; reflexivity|exact Ht].
Qed.

Lemma split_all_chars (P : ascii → bool) (sep : ascii) (s : string) :
  forallb (all_chars P) (JobPostings.split sep s)
  = all_chars (fun c => Ascii.eqb c sep || P c) s.
Proof.
  induction s as [|c s IH]; cbn; [reflexivity|].
  destruct (Ascii.eqb c sep) eqn:Hc; cbn.
  - exact IH.
  - pose proof (split_not_nil sep s) as Hne.
    destruct (JobPostings.split sep s) as [|h t]; [contradiction|].
    cbn in IH |- *. rewrite <- IH, andb_assoc. reflexivity.
Qed.

(** Joining the pieces with the separator gives the text back. *)
Lemma split_join (sep : ascii) (s : string) :
  String.concat (String sep EmptyString) (JobPostings.split sep s) = s.
Proof.
  induction s as [|c s IH]; cbn; [reflexivity|].
  pose proof (split_not_nil sep s) as Hne.
  destruct (Ascii.eqb_spec c sep) as [->|Hc].
  - destruct (JobPostings.split sep s) as [|h t]; [contradiction|].
    rewrite <- IH. reflexivity.
  - destruct (JobPostings.split sep s) as [|h t]; [contradiction|].
    rewrite <- IH. destruct t as [|h' t]; reflexivity.
Qed.

Lemma trim_start_skip (s : string) :
  Str.trim_start s
  = match Str.skip_space s with Some r => Str.trim_start r | None => s end.
Proof.
  destruct s as [|a [|b [|c s]]]; cbn; try reflexivity.
  - destruct (Str.space1 a); reflexivity.
  - destruct (Str.space1 a); [reflexivity|]. destruct (Str.space2 a b); reflexivity.
  - destruct (Str.space1 a); [reflexivity|]. destruct (Str.space2 a b); [reflexivity|].
    destruct (Str.space3 a b c); reflexivity.
Qed.

Lemma skip_space_shorter (s r : string) :
  Str.skip_space s = Some r → (String.length r < String.length s)%nat.
Proof.
  destruct s as [|a [|b [|c s]]]; cbn; try discriminate.
  - destruct (Str.space1 a); [|discriminate]. intros [= <-]. cbn. lia.
  - destruct (Str.space1 a); [intros [= <-]; cbn; lia|].
    destruct (Str.space2 a b); [|discriminate]. intros [= <-]. cbn. lia.
  - destruct (Str.space1 a); [intros [= <-]; cbn; lia|].
    destruct (Str.space2 a b); [intros [= <-]; cbn; lia|].
    destruct (Str.space3 a b c); [|discriminate]. intros [= <-]. cbn. lia.
Qed.

Lemma skip_space_app (s r t : string) :
  Str.skip_space s = Some r → Str.skip_space (s +:+ t) = Some (r +:+ t).
Proof.
  destruct s as [|a [|b [|c s]]]; cbv [String.append]; fold String.append;
    cbn; try discriminate.
  - destruct (Str.space1 a); [|discriminate]. intros [= <-]. reflexivity.
  - destruct (Str.space1 a); [intros [= <-]; reflexivity|].
    destruct (Str.space2 a b); [|discriminate]. intros [= <-]. reflexivity.
  - destruct (Str.space1 a); [intros [= <-]; reflexivity|].
    destruct (Str.space2 a b); [intros [= <-]; reflexivity|].
    destruct (Str.space3 a b c); [|discriminate]. intros [= <-]. reflexivity.
Qed.

Lemma skip_space_all_chars (P : ascii → bool) (s r : string) :
  Str.skip_space s = Some r → all_chars P s = true → all_chars P r = true.
Proof.
  destruct s as [|a [|b [|c s]]]; cbn; try discriminate.
  - destruct (Str.space1 a); [|discriminate]. intros [= <-]. reflexivity.
  - destruct (Str.space1 a); [intros [= <-]|].
    + intros H. apply andb_prop in H as [_ H]. exact H.
    + destruct (Str.space2 a b); [|discriminate]. intros [= <-]. reflexivity.
  - destruct (Str.space1 a); [intros [= <-]|].
    + intros H. apply andb_prop in H as [_ H]. exact H.
    + destruct (Str.space2 a b); [intros [= <-]|].
      * intros H. apply andb_prop in H as [_ H]. apply andb_prop in H as [_ H].
        exact H.
      * destruct (Str.space3 a b c); [|discriminate]. intros [= <-] H.
        apply andb_prop in H as [_ H]. apply andb_prop in H as [_ H].
        apply andb_prop in H as [_ H]. exact H.
Qed.

(** Induction on the length of a string. *)
Lemma string_length_ind (P : string → Prop) :
  (∀ s, (∀ r, (String.length r < String.length s)%nat → P r) → P s) →
  ∀ s, P s.
Proof.
  intros H s. remember (String.length s) as n eqn:E.
  revert s E. induction n as [n IH] using lt_wf_ind. intros s ->.
  apply H. intros r Hr. exact (IH _ Hr r eq_refl).
Qed.

(** What [trim_start] returns does not start with white space. *)
Lemma skip_space_trim_start (s : string) : Str.skip_space (Str.trim_start s) = None.
Proof.
  induction s as [s IH] using string_length_ind.
  rewrite trim_start_skip. destruct (Str.skip_space s) as [r|] eqn:E.
  - apply IH. exact (skip_space_shorter s r E).
  - exact E.
Qed.

Lemma trim_start_idem (s : string) :
  Str.trim_start (Str.trim_start s) = Str.trim_start s.
Proof.
  rewrite (trim_start_skip (Str.trim_start s)), skip_space_trim_start. reflexivity.
Qed.

(** White space in front of [t] does not count. *)
Lemma trim_start_app (s t : string) :
  Str.blank s = true → Str.trim_start (s +:+ t) = Str.trim_start t.
Proof.
  induction s as [s IH] using string_length_ind. unfold Str.blank. intros Hb.
  rewrite trim_start_skip in Hb.
  destruct (Str.skip_space s) as [r|] eqn:E.
  - rewrite trim_start_skip, (skip_space_app s r t E).
    apply IH; [exact (skip_space_shorter s r E)|exact Hb].
  - destruct s; [reflexivity|discriminate].
Qed.

Lemma trim_end_split (s : string) :
  ∃ b, s = Str.trim_end s +:+ b ∧ Str.blank b = true.
Proof.
  induction s as [|c s (b & E & Hb)].
  - exists "". split; reflexivity.
  - cbn [Str.trim_end]. destruct (Str.blank (String c s)) eqn:Hc.
    + exists (String c s). split; [reflexivity|exact Hc].
    + exists b. split; [|exact Hb].
      change (String c s = String c (Str.trim_end s +:+ b)).
      rewrite <- E. reflexivity.
Qed.

Lemma trim_end_idem (s : string) : Str.trim_end (Str.trim_end s) = Str.trim_end s.
Proof.
  induction s as [|c s IH]; [reflexivity|].
  cbn [Str.trim_end]. destruct (Str.blank (String c s)) eqn:Hc; [reflexivity|].
  cbn [Str.trim_end]. rewrite IH.
  destruct (Str.blank (String c (Str.trim_end s))) eqn:Hc'; [|reflexivity].
  exfalso. destruct (trim_end_split s) as (b & E & Hb).
  assert (H : Str.blank (String c s) = true).
  { unfold Str.blank. rewrite E.
    change (String c (Str.trim_end s +:+ b)) with (String c (Str.trim_end s) +:+ b).
    rewrite (trim_start_app _ b Hc'). exact Hb. }
  congruence.
Qed.

(** Cutting the end does not uncover white space at the start. *)
Lemma skip_space_trim_end (s : string) :
  Str.skip_space s = None → Str.skip_space (Str.trim_end s) = None.
Proof.
  intros Hs. destruct (Str.skip_space (Str.trim_end s)) as [r|] eqn:E; [|reflexivity].
  destruct (trim_end_split s) as (b & Es & _).
  pose proof (skip_space_app _ r b E) as H. rewrite <- Es in H. congruence.
Qed.

(** Trimming twice is trimming once. *)
Lemma trim_idem (s : string) : Str.trim (Str.trim s) = Str.trim s.
Proof.
  unfold Str.trim.
  rewrite (trim_start_skip (Str.trim_end (Str.trim_start s))).
  rewrite (skip_space_trim_end _ (skip_space_trim_start s)).
  apply trim_end_idem.
Qed.

(** A text trims to nothing exactly when it is nothing but white space. *)
Lemma trim_blank (s : string) : negb (Str.truthy (Str.trim s)) = Str.blank s.
Proof.
  unfold Str.trim.
  destruct (Str.trim_start s) as [|c t] eqn:E.
  - unfold Str.blank. rewrite E. reflexivity.
  - cbn [Str.trim_end]. unfold Str.blank at 2. rewrite E. cbn [Str.truthy negb].
    assert (H : Str.blank (String c t) = false).
    { unfold Str.blank. rewrite <- E, trim_start_idem, E. reflexivity. }
    rewrite H. reflexivity.
Qed.

Lemma trim_start_all_chars (P : ascii → bool) (s : string) :
  all_chars P s = true → all_chars P (Str.trim_start s) = true.
Proof.
  induction s as [s IH] using string_length_ind. intros H.
  rewrite trim_start_skip. destruct (Str.skip_space s) as [r|] eqn:E; [|exact H].
  apply IH; [exact (skip_space_shorter s r E)|].
  exact (skip_space_all_chars P s r E H).
Qed.

Lemma trim_end_all_chars (P : ascii → bool) (s : string) :
  all_chars P s = true → all_chars P (Str.trim_end s) = true.
Proof.
  induction s as [|c s IH]; [reflexivity|]. intros H.
  cbn [Str.trim_end]. destruct (Str.blank (String c s)); [reflexivity|].
  cbn in H |- *. apply andb_prop in H as [Hc Hs]. rewrite Hc, (IH Hs). reflexivity.
Qed.

Lemma trim_all_chars (P : ascii → bool) (s : string) :
  all_chars P s = true → all_chars P (Str.trim s) = true.
Proof.
  intros H. apply trim_end_all_chars, trim_start_all_chars, H.
Qed.

Lemma space1_not_comma (a : ascii) : Str.space1 a = true → Ascii.eqb a "," = false.
Proof.
  intros H. apply Ascii.eqb_neq. intros ->. discriminate.
Qed.

Lemma space2_not_comma (a b : ascii) :
  Str.space2 a b = true → Ascii.eqb a "," = false ∧ Ascii.eqb b "," = false.
Proof.
  unfold Str.space2. rewrite andb_true_iff, !N.eqb_eq. intros [Ha Hb].
  split; apply Ascii.eqb_neq; intros ->; discriminate.
Qed.

Lemma space3_not_comma (a b c : ascii) :
  Str.space3 a b c = true →
  Ascii.eqb a "," = false ∧ Ascii.eqb b "," = false ∧ Ascii.eqb c "," = false.
Proof.
  unfold Str.space3. cbv zeta.
  rewrite !orb_true_iff, !andb_true_iff, !orb_true_iff, !andb_true_iff,
    !N.eqb_eq, !N.leb_le.
  intros H.
  split; [|split]; apply Ascii.eqb_neq; intros ->;
    change (N_of_ascii ",") with 44%N in H; lia.
Qed.

Lemma split_app_no_separator (sep : ascii) (w r : string) :
  all_chars (fun c => negb (Ascii.eqb c sep)) w = true →
  JobPostings.split sep (w +:+ r)
  = match JobPostings.split sep r with
    | h :: t => (w +:+ h) :: t
    | [] => [w]
    end.
Proof.
  induction w as [|c w IH]; intros H.
  - change ("" +:+ r) with r. pose proof (split_not_nil sep r) as Hne.
    destruct (JobPostings.split sep r); [contradiction|reflexivity].
  - cbn in H. apply andb_prop in H as [Hc Hw]. apply negb_true_iff in Hc.
    change (String c w +:+ r) with (String c (w +:+ r)).
    cbn [JobPostings.split]. rewrite Hc, (IH Hw).
    pose proof (split_not_nil sep r) as Hne.
    destruct (JobPostings.split sep r); [contradiction|reflexivity].
Qed.

Lemma split_head_prefix (sep : ascii) (s p : string) (t : list string) :
  JobPostings.split sep s = p :: t → ∃ rest, s = p +:+ rest.
Proof.
  revert p t. induction s as [|c s IH]; intros p t; cbn.
  - intros [= <- <-]. exists "". reflexivity.
  - destruct (Ascii.eqb c sep).
    + intros [= <- <-]. exists (String c s). reflexivity.
    + destruct (JobPostings.split sep s) as [|h t'] eqn:E.
      * intros [= <- <-]. destruct (split_not_nil sep s E).
      * intros [= <- <-]. destruct (IH h t' eq_refl) as [rest ->].
        exists rest. reflexivity.
Qed.

Lemma skip_space_decompose (s r : string) :
  Str.skip_space s = Some r →
  ∃ w, s = w +:+ r ∧ Str.blank w = true
       ∧ all_chars (fun c => negb (Ascii.eqb c ",")) w = true.
Proof.
  destruct s as [|a s1]; [discriminate|]. cbn [Str.skip_space].
  destruct (Str.space1 a) eqn:H1.
  { intros [= <-]. exists (String a ""). split; [reflexivity|].
    split; [unfold Str.blank; cbn; rewrite H1; reflexivity|].
    cbn. rewrite (space1_not_comma a H1). reflexivity. }
  destruct s1 as [|b s2]; [discriminate|].
  destruct (Str.space2 a b) eqn:H2.
  { intros [= <-]. exists (String a (String b "")). split; [reflexivity|].
    split; [unfold Str.blank; cbn; rewrite H1, H2; reflexivity|].
    destruct (space2_not_comma a b H2) as [Ha Hb].
    cbn. rewrite Ha, Hb. reflexivity. }
  destruct s2 as [|c s3]; [discriminate|].
  destruct (Str.space3 a b c) eqn:H3; [|discriminate].
  intros [= <-]. exists (String a (String b (String c ""))). split; [reflexivity|].
  split; [unfold Str.blank; cbn; rewrite H1, H2, H3; reflexivity|].
  destruct (space3_not_comma a b c H3) as (Ha & Hb & Hc).
  cbn. rewrite Ha, Hb, Hc. reflexivity.
Qed.

Lemma commas_and_spaces_skip (a : ascii) (s1 : string) :
  commas_and_spaces (String a s1)
  = if Ascii.eqb a "," then commas_and_spaces s1
    else match Str.skip_space (String a s1) with
         | Some r => commas_and_spaces r
         | None => false
         end.
Proof.
  cbn [commas_and_spaces Str.skip_space].
  destruct (Ascii.eqb a ","); [reflexivity|]. cbn [orb].
  destruct (Str.space1 a); [reflexivity|].
  destruct s1 as [|b [|c s3]]; try reflexivity.
  - destruct (Str.space2 a b); reflexivity.
  - destruct (Str.space2 a b); [reflexivity|].
    destruct (Str.space3 a b c); reflexivity.
Qed.

Lemma blank_app (w h : string) :
  Str.blank w = true → Str.blank (w +:+ h) = Str.blank h.
Proof.
  intros H. unfold Str.blank. rewrite (trim_start_app w h H). reflexivity.
Qed.

(** The pieces between the commas are all blank exactly when the text holds
    nothing but commas and white space. *)
Lemma split_all_blank (s : string) :
  forallb Str.blank (JobPostings.split "," s) = commas_and_spaces s.
Proof.
  induction s as [s IH] using string_length_ind.
  destruct s as [|a s1]; [reflexivity|].
  rewrite commas_and_spaces_skip.
  destruct (Ascii.eqb a ",") eqn:Ha.
  - cbn [JobPostings.split]. rewrite Ha. cbn [forallb].
    change (Str.blank "") with true. cbn [andb]. apply IH. cbn. lia.
  - destruct (Str.skip_space (String a s1)) as [r|] eqn:E.
    + destruct (skip_space_decompose _ r E) as (w & Es & Hw & Hc).
      rewrite <- (IH r (skip_space_shorter _ r E)).
      rewrite Es, (split_app_no_separator "," w r Hc).
      pose proof (split_not_nil "," r) as Hne.
      destruct (JobPostings.split "," r) as [|h t]; [contradiction|].
      cbn [forallb]. rewrite (blank_app w h Hw). reflexivity.
    + cbn [JobPostings.split]. rewrite Ha.
      pose proof (split_not_nil "," s1) as Hne.
      destruct (JobPostings.split "," s1) as [|h t] eqn:Eh; [contradiction|].
      cbn [forallb].
      assert (Hb : Str.blank (String a h) = false).
      { destruct (split_head_prefix "," s1 h t Eh) as [rest Er].
        unfold Str.blank. rewrite trim_start_skip.
        destruct (Str.skip_space (String a h)) as [r'|] eqn:E'; [|reflexivity].
        exfalso. pose proof (skip_space_app _ r' rest E') as H.
        change (String a h +:+ rest) with (String a (h +:+ rest)) in H.
        rewrite <- Er in H. congruence. }
      rewrite Hb. reflexivity.
Qed.

Lemma is_nil_filter {A : Type} (f : A → bool) (l : list A) :
  is_nil (List.filter f l) = forallb (fun x => negb (f x)) l.
Proof.
  induction l as [|x l IH]; cbn; [reflexivity|].
  destruct (f x); cbn; [reflexivity|exact IH].
Qed.

Lemma forallb_map {A B : Type} (f : A → B) (g : B → bool) (l : list A) :
  forallb g (List.map f l) = forallb (fun x => g (f x)) l.
Proof.
  induction l as [|x l IH]; cbn; [reflexivity|]. rewrite IH. reflexivity.
Qed.

Lemma forallb_ext_eq {A : Type} (f g : A → bool) (l : list A) :
  (∀ x, f x = g x) → forallb f l = forallb g l.
Proof.
  intros H. induction l as [|x l IH]; cbn; [reflexivity|]. rewrite H, IH. reflexivity.
Qed.

(** X21. What the job form stores. The skills field is cut at the commas:
    every stored skill is non-empty, carries no white space at either end and
    no comma; the stored list is empty exactly when the field holds nothing
    but commas and white space (an empty field included). The requirements
    field is cut at the line ends: every stored line is non-empty and holds
    no line end, and the list is empty exactly when the field holds nothing
    but line ends. *)
Theorem X21_job_form_lists (input : string) :
  List.Forall
    (fun skill => skill ≠ ""
                  ∧ Str.trim skill = skill
                  ∧ all_chars (fun c => negb (Ascii.eqb c ",")) skill = true)
    (JobPostings.skills_required input)
  ∧ is_nil (JobPostings.skills_required input) = commas_and_spaces input
  ∧ List.Forall
      (fun line => line ≠ ""
                   ∧ all_chars (fun c => negb (Ascii.eqb c (ascii_of_nat 10))) line = true)
      (JobPostings.requirements input)
  ∧ is_nil (JobPostings.requirements input)
    = all_chars (fun c => Ascii.eqb c (ascii_of_nat 10)) input.
Proof.
  unfold JobPostings.skills_required, JobPostings.requirements. split_and!.
  - apply List.Forall_forall. intros e He.
    apply List.filter_In in He as [He Ht].
    apply List.in_map_iff in He as (p & <- & Hp).
    split_and!.
    + intros E. rewrite E in Ht. discriminate.
    + apply trim_idem.
    + apply trim_all_chars.
      exact (proj1 (List.Forall_forall _ _) (split_no_separator "," input) p Hp).
  - rewrite is_nil_filter, forallb_map.
    rewrite (forallb_ext_eq _ Str.blank) by (intros x; apply trim_blank).
    apply split_all_blank.
  - apply List.Forall_forall. intros e He.
    apply List.filter_In in He as [He Ht]. split.
    + intros E. rewrite E in Ht. discriminate.
    + exact (proj1 (List.Forall_forall _ _)
               (split_no_separator (ascii_of_nat 10) input) e He).
  - rewrite is_nil_filter.
    rewrite (forallb_ext_eq _ (all_chars (fun _ => false)))
      by (intros [|c x]; reflexivity).
    rewrite split_all_chars. induction input as [|c s IH]; cbn; [reflexivity|].
    rewrite orb_false_r, IH. reflexivity.
Qed.

(** ** The skill list of the profile form *)

Lemma includes_In (l : list string) (x : string) :
  ApplicantProfileForm.includes l x = true ↔ List.In x l.
Proof.
  unfold ApplicantProfileForm.includes. rewrite List.existsb_exists. split.
  - intros (y & Hy & E). apply String.eqb_eq in E. subst y. exact Hy.
  - intros H. exists x. split; [exact H|apply String.eqb_refl].
Qed.

Lemma filter_not_In (x : string) (l : list string) :
  ¬ List.In x l →
  List.filter (fun skill => negb (String.eqb skill x)) l = l.
Proof.
  induction l as [|y l IH]; cbn; [reflexivity|].
  intros H. destruct (String.eqb_spec y x) as [->|Hne]; cbn.
  - exfalso. apply H. left. reflexivity.
  - f_equal. apply IH. intros Hin. apply H. right. exact Hin.
Qed.

(** X22. The skill list of the profile form. From a list without
    duplicates, [addSkill] gives a list without duplicates that keeps every
    skill in place and holds the trimmed input unless that is empty; typing
    the same skill again changes nothing; [removeSkill] leaves no occurrence
    of the skill and no duplicates; and removing a skill that was just added
    gives the former list back. *)
Theorem X22_profile_skill_list (st : ApplicantProfileForm.state) (x : string) :
  List.NoDup (ApplicantProfileForm.skills st) →
  let t := Str.trim (ApplicantProfileForm.newSkill st) in
  let added := ApplicantProfileForm.addSkill st in
  let again :=
    ApplicantProfileForm.addSkill
      {| ApplicantProfileForm.skills := ApplicantProfileForm.skills added;
         ApplicantProfileForm.newSkill := ApplicantProfileForm.newSkill st |} in
  let removed := ApplicantProfileForm.removeSkill x st in
  List.NoDup (ApplicantProfileForm.skills added)
  ∧ (∃ rest, ApplicantProfileForm.skills added = ApplicantProfileForm.skills st ++ rest)
  ∧ (t = "" ∨ List.In t (ApplicantProfileForm.skills added))
  ∧ ApplicantProfileForm.skills again = ApplicantProfileForm.skills added
  ∧ List.NoDup (ApplicantProfileForm.skills removed)
  ∧ ¬ List.In x (ApplicantProfileForm.skills removed)
  ∧ (t = "" ∨ List.In t (ApplicantProfileForm.skills st)
     ∨ ApplicantProfileForm.skills (ApplicantProfileForm.removeSkill t added)
       = ApplicantProfileForm.skills st).
Proof.
  intros Hnd. cbv zeta.
  unfold ApplicantProfileForm.addSkill, ApplicantProfileForm.removeSkill.
  cbn [ApplicantProfileForm.skills ApplicantProfileForm.newSkill].
  set (t := Str.trim (ApplicantProfileForm.newSkill st)).
  assert (Hrm : List.NoDup
                  (List.filter (fun skill => negb (String.eqb skill x))
                     (ApplicantProfileForm.skills st))
                ∧ ¬ List.In x
                      (List.filter (fun skill => negb (String.eqb skill x))
                         (ApplicantProfileForm.skills st))).
  { split; [apply List.NoDup_filter; exact Hnd|].
    intros H. apply List.filter_In in H as [_ H].
    rewrite String.eqb_refl in H. discriminate. }
  destruct Hrm as [Hrm1 Hrm2].
  destruct (Str.truthy t) eqn:Ht; cbn [andb].
  - destruct (ApplicantProfileForm.includes (ApplicantProfileForm.skills st) t) eqn:Hin;
      cbn [negb ApplicantProfileForm.skills ApplicantProfileForm.newSkill].
    + rewrite Hin. cbn [negb ApplicantProfileForm.skills].
      apply includes_In in Hin.
      refine (conj Hnd (conj _ (conj (or_intror Hin) (conj eq_refl
                (conj Hrm1 (conj Hrm2 (or_intror (or_introl Hin)))))))).
      exists []. rewrite app_nil_r. reflexivity.
    + assert (Hnin : ¬ List.In t (ApplicantProfileForm.skills st)).
      { intros H. apply includes_In in H. rewrite H in Hin. discriminate. }
      assert (Hin' : ApplicantProfileForm.includes
                       (ApplicantProfileForm.skills st ++ [t]) t = true).
      { apply includes_In, List.in_or_app. right. left. reflexivity. }
      assert (Hin'' : List.In t (ApplicantProfileForm.skills st ++ [t])).
      { apply List.in_or_app. right. left. reflexivity. }
      rewrite Hin'. cbn [negb ApplicantProfileForm.skills].
      refine (conj _ (conj _ (conj (or_intror Hin'') (conj eq_refl
                (conj Hrm1 (conj Hrm2 (or_intror (or_intror _)))))))).
      * apply NoDup_ListNoDup, NoDup_app. split; [|split].
        -- apply NoDup_ListNoDup. exact Hnd.
        -- intros y Hy Hy'. apply list_elem_of_singleton in Hy'. subst y.
           apply Hnin. apply list_elem_of_In. exact Hy.
        -- apply NoDup_singleton.
      * exists [t]. reflexivity.
      * rewrite List.filter_app, (filter_not_In t _ Hnin). cbn.
        rewrite String.eqb_refl. cbn. apply app_nil_r.
  - assert (E : t = "") by (destruct t; [reflexivity|discriminate]).
    refine (conj Hnd (conj _ (conj (or_introl E) (conj eq_refl
              (conj Hrm1 (conj Hrm2 (or_introl E))))))).
    exists []. rewrite app_nil_r. reflexivity.
Qed.

(** X22 on a list of two skills and the input " AWS ": the skill is added
    at the end, and removing it gives the two skills back. *)
Lemma X22_profile_skill_list_witness :
  List.NoDup
    (ApplicantProfileForm.skills
       (ApplicantProfileForm.addSkill
          {| ApplicantProfileForm.skills := ["React"; "Node.js"];
             ApplicantProfileForm.newSkill := " AWS " |})).
Proof.
  refine (proj1 (X22_profile_skill_list
                   {| ApplicantProfileForm.skills := ["React"; "Node.js"];
                      ApplicantProfileForm.newSkill := " AWS " |} "React" _)).
  apply NoDup_ListNoDup. apply (bool_decide_unpack _). vm_compute. reflexivity.
Defined.

(** ** Applying for a job *)

Lemma taken_spec (db : Db.store) (job_id applicant_id : string) :
  Apply.taken db job_id applicant_id = true
  ↔ ∃ i r, Db.applications db !! i = Some r
           ∧ Applications.job_id r = job_id
           ∧ Applications.applicant_id r = applicant_id.
Proof.
  unfold Apply.taken. rewrite bool_decide_eq_true, map_Exists_lookup.
  reflexivity.
Qed.

Lemma insert_applications_unique (db db' : Db.store) (uuid : string)
    (user : option string) (job_id : string) :
  applications_unique db →
  Apply.insert db uuid user job_id = Some db' →
  applications_unique db'
  ∧ ∃ a, user = Some a ∧ Apply.taken db job_id a = false
         ∧ Apply.taken db' job_id a = true
         ∧ Db.assessments db' = Db.assessments db
         ∧ Db.jobs db' = Db.jobs db.
Proof.
  intros Hu Hi. unfold Apply.insert in Hi.
  destruct user as [a|]; [|discriminate].
  destruct (bool_decide (is_Some (Db.jobs db !! job_id))); [|discriminate].
  destruct (bool_decide (Db.applications db !! uuid = None)) eqn:Hfree;
    [|discriminate].
  destruct (Apply.taken db job_id a) eqn:Htaken; [discriminate|].
  cbn [andb negb] in Hi. injection Hi as <-.
  apply bool_decide_eq_true in Hfree.
  assert (Hnot : ∀ i r, Db.applications db !! i = Some r →
                        Applications.job_id r = job_id →
                        Applications.applicant_id r = a → False).
  { intros i r Hr Hj Ha.
    assert (H : Apply.taken db job_id a = true) by (apply taken_spec; eauto).
    rewrite H in Htaken. discriminate. }
  split.
  - intros i1 i2 r1 r2 H1 H2 Hj Ha.
    cbn [Db.applications Apply.with_applications] in H1, H2.
    destruct (decide (i1 = uuid)) as [->|Hn1], (decide (i2 = uuid)) as [->|Hn2].
    + reflexivity.
    + rewrite lookup_insert_eq in H1. injection H1 as <-.
      rewrite lookup_insert_ne in H2 by congruence.
      cbn in Hj, Ha. exfalso. exact (Hnot i2 r2 H2 (eq_sym Hj) (eq_sym Ha)).
    + rewrite lookup_insert_eq in H2. injection H2 as <-.
      rewrite lookup_insert_ne in H1 by congruence.
      cbn in Hj, Ha. exfalso. exact (Hnot i1 r1 H1 Hj Ha).
    + rewrite lookup_insert_ne in H1 by congruence.
      rewrite lookup_insert_ne in H2 by congruence.
      exact (Hu i1 i2 r1 r2 H1 H2 Hj Ha).
  - exists a. split_and!; try reflexivity; [exact Htaken|].
    apply taken_spec. eexists uuid, _. split; [apply lookup_insert_eq|].
    split; reflexivity.
Qed.

(** X23. One application for each job and applicant. From a store with at
    most one application per pair, [handleApply] gives such a store again. It
    either succeeds, and then the pair was free before and is taken after,
    with the assessments and the jobs untouched; or it shows "Error submitting
    application" and the store is as before, which is what happens whenever
    the pair was taken. After a success, applying to the same job again fails
    whatever identity the database draws. *)
Theorem X23_one_application_per_job (db : Db.store) (uuid uuid' : string)
    (user : option string) (job : Jobs.row) :
  applications_unique db →
  let out := Apply.handleApply db uuid user (Some job) in
  applications_unique (fst out)
  ∧ ((snd out = Some "Application submitted successfully!"
      ∧ ∃ a, user = Some a
             ∧ Apply.taken db (Jobs.id job) a = false
             ∧ Apply.taken (fst out) (Jobs.id job) a = true
             ∧ Db.assessments (fst out) = Db.assessments db
             ∧ Db.jobs (fst out) = Db.jobs db
             ∧ Apply.handleApply (fst out) uuid' user (Some job)
               = (fst out, Some "Error submitting application"))
     ∨ out = (db, Some "Error submitting application"))
  ∧ match user with
    | Some a =>
        if Apply.taken db (Jobs.id job) a
        then out = (db, Some "Error submitting application")
        else True
    | None => out = (db, Some "Error submitting application")
    end.
Proof.
  intros Hu. cbv zeta.
  assert (E : Apply.handleApply db uuid user (Some job)
              = match Apply.insert db uuid user (Jobs.id job) with
                | Some db' => (db', Some "Application submitted successfully!")
                | None => (db, Some "Error submitting application")
                end) by reflexivity.
  rewrite E. clear E.
  destruct (Apply.insert db uuid user (Jobs.id job)) as [db'|] eqn:Hi.
  - destruct (insert_applications_unique db db' uuid user (Jobs.id job) Hu Hi)
      as (Hu' & a & -> & Hfree & Htaken & Hassess & Hjobs).
    cbn [fst snd]. split; [exact Hu'|]. split.
    + left. split; [reflexivity|]. exists a. split_and!; try assumption; try reflexivity.
      unfold Apply.handleApply, Apply.insert. rewrite Htaken, !andb_false_r.
      reflexivity.
    + rewrite Hfree. exact I.
  - cbn [fst snd]. split; [exact Hu|]. split; [right; reflexivity|].
    destruct user as [a|]; [|reflexivity].
    destruct (Apply.taken db (Jobs.id job) a); [reflexivity|exact I].
Qed.

(** X23 on the worked example: the applicant has applied for the job, so a
    second application is refused. *)
Lemma X23_one_application_per_job_witness :
  Apply.handleApply (Scenario.db Scenario.react_node_mid Scenario.react_aws_3)
    "application-2" Scenario.applicant (Some Scenario.react_node_mid)
  = (Scenario.db Scenario.react_node_mid Scenario.react_aws_3,
     Some "Error submitting application").
Proof.
  refine (proj2 (proj2 (X23_one_application_per_job
                          (Scenario.db Scenario.react_node_mid Scenario.react_aws_3)
                          "application-2" "application-3" Scenario.applicant
                          Scenario.react_node_mid _))).
  intros i1 i2 r1 r2 H1 H2 _ _.
  unfold Scenario.db in H1, H2. cbn [Db.applications] in H1, H2.
  apply lookup_singleton_Some in H1 as [<- _].
  apply lookup_singleton_Some in H2 as [<- _].
  reflexivity.
Defined.

(** ** Searching the job list *)

Lemma includes_empty (s : string) : Str.includes s "" = true.
Proof. destruct s; reflexivity. Qed.

Lemma truthy_toLowerCase (s : string) :
  Str.truthy (Str.toLowerCase s) = Str.truthy s.
Proof. destruct s; reflexivity. Qed.

Lemma filter_filter_and {A : Type} (f g : A → bool) (l : list A) :
  List.filter f (List.filter g l) = List.filter (fun x => f x && g x) l.
Proof.
  induction l as [|x l IH]; cbn; [reflexivity|].
  destruct (g x); cbn; [|rewrite andb_false_r; exact IH].
  rewrite andb_true_r. destruct (f x); rewrite IH; reflexivity.
Qed.

Lemma filter_true {A : Type} (f : A → bool) (l : list A) :
  (∀ x, f x = true) → List.filter f l = l.
Proof.
  intros H. induction l as [|x l IH]; cbn; [reflexivity|]. rewrite H, IH. reflexivity.
Qed.

Lemma matchesSearch_empty (job : JobSearch.Job) : JobSearch.matchesSearch "" job = true.
Proof.
  unfold JobSearch.matchesSearch. cbn [Str.toLowerCase].
  rewrite includes_empty. reflexivity.
Qed.

(** X24. The three filters of the job list. With nothing typed and nothing
    chosen every job is listed; the choice 'all-types' is the same as no
    choice; the case of the letters typed for the search and for the location
    does not matter; and the three filters are independent: the list is what
    remains after applying the job type, the location and the search one
    after the other. *)
Theorem X24_job_filters (searchTerm locationFilter jobTypeFilter : string)
    (jobs : list JobSearch.Job) :
  JobSearch.filteredJobs "" "" "" jobs = jobs
  ∧ JobSearch.filteredJobs searchTerm locationFilter "all-types" jobs
    = JobSearch.filteredJobs searchTerm locationFilter "" jobs
  ∧ JobSearch.filteredJobs (Str.toLowerCase searchTerm) (Str.toLowerCase locationFilter)
      jobTypeFilter jobs
    = JobSearch.filteredJobs searchTerm locationFilter jobTypeFilter jobs
  ∧ JobSearch.filteredJobs searchTerm locationFilter jobTypeFilter jobs
    = JobSearch.filteredJobs searchTerm "" ""
        (JobSearch.filteredJobs "" locationFilter ""
           (JobSearch.filteredJobs "" "" jobTypeFilter jobs)).
Proof.
  unfold JobSearch.filteredJobs. split_and!.
  - apply filter_true. intros job. rewrite matchesSearch_empty. reflexivity.
  - apply List.filter_ext. intros job. reflexivity.
  - apply List.filter_ext. intros job.
    unfold JobSearch.matchesSearch, JobSearch.matchesLocation.
    rewrite !toLowerCase_idem, truthy_toLowerCase. reflexivity.
  - rewrite !filter_filter_and. apply List.filter_ext. intros job.
    rewrite !matchesSearch_empty.
    change (JobSearch.matchesLocation "" job) with true.
    change (JobSearch.matchesJobType "" job) with true.
    destruct (JobSearch.matchesSearch searchTerm job),
      (JobSearch.matchesLocation locationFilter job),
      (JobSearch.matchesJobType jobTypeFilter job); reflexivity.
Qed.

(** ** Opening a portfolio *)

(** X25. The address that [handleViewPortfolio] opens always starts with
    "http://" or "https://"; it is the given address when that starts so and
    the address behind "https://" otherwise, and completing a completed
    address changes nothing. *)
Theorem X25_portfolio_address_has_a_protocol (portfolioUrl : string) :
  let url := Portfolio.handleViewPortfolio portfolioUrl in
  Portfolio.startsWith url "http://" || Portfolio.startsWith url "https://" = true
  ∧ Portfolio.handleViewPortfolio url = url
  ∧ url = (if Portfolio.startsWith portfolioUrl "http://"
              || Portfolio.startsWith portfolioUrl "https://"
           then portfolioUrl else "https://" +:+ portfolioUrl).
Proof.
  cbv zeta.
  assert (H : Portfolio.startsWith (Portfolio.handleViewPortfolio portfolioUrl) "http://"
              || Portfolio.startsWith (Portfolio.handleViewPortfolio portfolioUrl) "https://"
              = true).
  { unfold Portfolio.handleViewPortfolio.
    destruct (Portfolio.startsWith portfolioUrl "http://"
              || Portfolio.startsWith portfolioUrl "https://") eqn:E; [exact E|].
    apply orb_true_iff. right. destruct portfolioUrl; reflexivity. }
  split; [exact H|]. split; [|reflexivity].
  unfold Portfolio.handleViewPortfolio at 1. rewrite H. reflexivity.
Qed.

(** ** The recruiter's view of a submission *)

(** Without a question in the first bucket the page stays as loaded. *)
Lemma page_reachable_first_bucket (db_now : Z) (user : option string)
    (assessmentId : string) (a : AssessmentPage.Assessment)
    (s : Db.store * AssessmentPage.state) :
  AssessmentPage.reachable db_now user assessmentId a s →
  AssessmentPage.length_or_0
    (AssessmentPage.property (AssessmentPage.questions a) AssessmentPage.work_ethics)
  = 0%nat →
  snd s = page_loaded a.
Proof.
  intros Hreach Hwe. induction Hreach as [db|s e Hreach IH Hen].
  - reflexivity.
  - rewrite IH, (page_loaded_disabled a e Hwe) in Hen. discriminate.
Qed.

(** X26. What the recruiter reads after a submission of the page. Whenever
    an enabled Next button of the page leads to "/assessment-complete", the
    payload has questions in both buckets, and the recruiter's view of the
    stored record counts as many responses as questions, at least two. *)
Theorem X26_recruiter_reads_a_complete_submission
    (JSON_parse : string → option Assessments.questions_t)
    (db0 db : Db.store) (t0 db_now : Z)
    (user : option string) (assessmentId : string) (a : AssessmentPage.Assessment)
    (st : AssessmentPage.state) (r : Assessments.row) :
  AssessmentPage.reachable t0 user assessmentId a (db0, st) →
  AssessmentPage.enabled st AssessmentPage.Next = true →
  AssessmentPage.route
    (snd (AssessmentPage.handle db_now user assessmentId AssessmentPage.Next (db, st)))
  = Some "/assessment-complete" →
  Db.assessments db !! assessmentId = Some r →
  Rls.can_update user r = true →
  AssessmentModal.parsedQuestions JSON_parse (Assessments.questions r)
  = Some (AssessmentPage.questions a) →
  Assessments.questions r ≠ Assessments.JString "" →
  ∃ r',
    Db.assessments
      (fst (AssessmentPage.handle db_now user assessmentId AssessmentPage.Next (db, st)))
      !! assessmentId = Some r'
    ∧ AssessmentResults.getResponseCount (Assessments.responses r')
      = AssessmentResults.getQuestionCount JSON_parse (Assessments.questions r')
    ∧ (2 <= AssessmentResults.getResponseCount (Assessments.responses r'))%nat.
Proof.
  intros Hreach Hen Hroute Hrow Hup Hparse Hne.
  destruct (page_submission_complete db0 db t0 db_now user assessmentId a st r
              Hreach Hen Hroute Hrow Hup) as (Hkeys & r' & H1 & _ & Hresp & _).
  exists r'. split; [exact H1|].
  pose proof (page_reachable_inv _ _ _ _ _ Hreach) as Hinv. cbn [snd] in Hinv.
  assert (Hq : Assessments.questions r' = Assessments.questions r).
  { assert (Hkept : kept_columns
                      <$> (Db.assessments
                             (fst (AssessmentPage.handle db_now user assessmentId
                                     AssessmentPage.Next (db, st))) !! assessmentId)
                    = kept_columns <$> (Db.assessments db !! assessmentId)).
    { destruct (page_handle_store db_now user assessmentId AssessmentPage.Next db st)
        as [->|(c & _ & ->)]; [reflexivity|apply update_by_id_kept_columns]. }
    rewrite H1, Hrow in Hkept. cbn in Hkept. unfold kept_columns in Hkept.
    congruence. }
  assert (Hwe : (0 < AssessmentPage.length_or_0
                       (AssessmentPage.property (AssessmentPage.questions a)
                          AssessmentPage.work_ethics))%nat).
  { destruct (AssessmentPage.length_or_0 _) eqn:E; [exfalso|lia].
    pose proof (page_reachable_first_bucket _ _ _ _ _ Hreach E) as Hst.
    cbn [snd] in Hst. rewrite Hst, (page_loaded_disabled a _ E) in Hen.
    discriminate. }
  assert (Hte : (0 < AssessmentPage.length_or_0
                       (AssessmentPage.property (AssessmentPage.questions a)
                          AssessmentPage.technical))%nat).
  { destruct (AssessmentPage.length_or_0
                (AssessmentPage.property (AssessmentPage.questions a)
                   AssessmentPage.technical)) eqn:E; [exfalso|lia].
    destruct (page_step_without_technical_inv db_now user assessmentId a db st
                AssessmentPage.Next E Hinv Hen) as [_ Hr].
    destruct (page_next_enabled st Hen) as [Hrend _].
    destruct (page_current_questions a st (proj1 Hinv) Hrend) as (_ & _ & _ & Hnone & _).
    rewrite Hr, Hnone in Hroute. discriminate. }
  assert (Hsize : size (AssessmentPage.answers st)
                  = length (page_question_keys (AssessmentPage.questions a))).
  { pose proof (page_completed_is_answered a st Hinv) as Hc.
    unfold AssessmentPage.getCompletedQuestions, page_answered in Hc.
    rewrite Hc. apply filter_all_length. intros k Hk. apply Hkeys. exact Hk. }
  rewrite Hresp, Hq. cbn [AssessmentResults.getResponseCount].
  rewrite (getQuestionCount_parsed JSON_parse _ _ Hparse Hne), Hsize,
    page_question_keys_length.
  destruct (AssessmentPage.questions a) as [qs|[we|] [te|]| |b|n|s'];
    cbn in Hwe, Hte |- *; try lia.
  rewrite length_app. split; [reflexivity|lia].
Qed.

(** X26 on the worked example: four responses for four questions. *)
Lemma X26_recruiter_reads_a_complete_submission_witness :
  ∃ r',
    Db.assessments Scenario.page_submitted_once !! "assessment-1" = Some r'
    ∧ AssessmentResults.getResponseCount (Assessments.responses r')
      = AssessmentResults.getQuestionCount Scenario.no_parse (Assessments.questions r').
Proof.
  destruct (X26_recruiter_reads_a_complete_submission Scenario.no_parse
              (fst (Scenario.page_run (Scenario.t0 + 60000) (take 7 Scenario.page_events)
                      (Scenario.generated, Scenario.page_tab)))
              Scenario.generated (Scenario.t0 + 60000) (Scenario.t0 + 60000)
              Scenario.applicant "assessment-1" Scenario.in_page
              (snd (Scenario.page_run (Scenario.t0 + 60000) (take 7 Scenario.page_events)
                      (Scenario.generated, Scenario.page_tab)))
              Scenario.generated_row)
    as (r' & H1 & H2 & _).
  - rewrite <- surjective_pairing. exact scenario_page_before_submit.
  - vm_compute. reflexivity.
  - vm_compute. reflexivity.
  - vm_compute. reflexivity.
  - vm_compute. reflexivity.
  - vm_compute. reflexivity.
  - discriminate.
  - exists r'. split; [|exact H2]. rewrite <- H1. vm_compute. reflexivity.
Defined.
